(** * notion-assistant: the incremental recursive indexer

    A shallow embedding of [services/notion_reader.py] (the document
    fetcher) and [services/notion_indexer.py] (change detection, the
    chunk-and-embed step, the graph builder and the depth-first driver),
    with the properties of the specification stated over it.

    The remote document source, the embedding store, the text splitter and
    the MD5 fingerprint are external to the repository; they are Section
    variables here, so every statement holds for any behaviour of theirs. *)

From stdpp Require Import gmap strings list fin_maps pretty.

Open Scope Z_scope.

(** ** Python values the two services pass around *)

(** Exceptions that can leave a call. [Exception msg] is the plain
    [raise Exception(f"...")] of the reader. *)
Inductive exn :=
| Exception (msg : string)
| ValueError
| KeyError (key : string)
| TypeError.

Inductive result (A : Type) :=
| Ok (a : A)
| Raise (e : exn).
Arguments Ok {A} a.
Arguments Raise {A} e.

(** The values [get_page_content] stores in the [content] dict. *)
Inductive pyval :=
| PList (items : list string)
| PStr (s : string)
| PNone
| PBool (b : bool)
| PNum (n : Z).

Definition opt_str (o : option string) : pyval :=
  match o with Some s => PStr s | None => PNone end.

(** ** The remote source (Notion REST API) *)

(** Body of a [requests] response: [response.json()] either decodes (we keep
    its [json.dumps(_, indent=2)] rendering and, when the JSON has the shape
    the success path reads, the decoded data) or raises [ValueError]. *)
Inductive body (A : Type) :=
| Json (dump : string) (data : option A)
| NotJson.
Arguments Json {A} dump data.
Arguments NotJson {A}.

Record response (A : Type) := Response {
  status_code : Z;
  text : string;
  payload : body A
}.
Arguments Response {A} _ _ _.
Arguments status_code {A} _.
Arguments text {A} _.
Arguments payload {A} _.

(** A property value of a page object, by the key the reader tests for. *)
Inductive property :=
| prop_title (plain_texts : list string)
| prop_rich_text (plain_texts : list string)
| prop_url (url : option string)
| prop_select (name : option string)
| prop_multi_select (names : list string)
| prop_date (start : option string)
| prop_people (names : list string)
| prop_relation (ids : list string)
| prop_checkbox (b : bool)
| prop_number (n : option Z)
| prop_other.

Inductive heading_level := heading_1 | heading_2 | heading_3.

Definition level_of (h : heading_level) : nat :=
  match h with heading_1 => 1 | heading_2 => 2 | heading_3 => 3 end%nat.

(** [block[block['type']]] of a block object. *)
Inductive block_data :=
| paragraph (rich_text : list string)
| heading (level : heading_level) (rich_text : list string)
| bulleted_list_item (rich_text : list string)
| numbered_list_item (rich_text : list string)
| child_page (title : string)
| unsupported.

(** A block object: [block['id']], [block['parent']['page_id']], the typed
    part and [str(block)]. *)
Record block := Block {
  block_id : string;
  block_parent_page_id : string;
  block_type : block_data;
  block_str : string
}.

(** ** services/notion_reader.py *)

Record NotionChildPage := mkChild {
  child_title : string;
  child_page_id : string
}.

Record NotionPage := mkPage {
  page_id : string;
  content : gmap string pyval;
  full_content : string;
  child_pages : list NotionChildPage
}.

#[global] Instance exn_eq_dec : EqDecision exn.
Proof. solve_decision. Defined.
#[global] Instance pyval_eq_dec : EqDecision pyval.
Proof. solve_decision. Defined.
#[global] Instance heading_level_eq_dec : EqDecision heading_level.
Proof. solve_decision. Defined.
#[global] Instance block_data_eq_dec : EqDecision block_data.
Proof. solve_decision. Defined.
#[global] Instance block_eq_dec : EqDecision block.
Proof. solve_decision. Defined.
#[global] Instance NotionChildPage_eq_dec : EqDecision NotionChildPage.
Proof. solve_decision. Defined.

(** [' '.join(...)] and ['\n'.join(...)]. *)
Definition join (sep : string) (l : list string) : string := String.concat sep l.

Definition newline : string := String (Ascii.ascii_of_nat 10) EmptyString.

(** ['#' * n] *)
Fixpoint str_repeat (s : string) (n : nat) : string :=
  match n with O => "" | S k => s +:+ str_repeat s k end.

(** One iteration of the loop of [process_blocks]: the line appended for a
    block. *)
Definition render_block (b : block) : string :=
  match block_type b with
  | paragraph rt => join " " rt
  | heading lvl rt =>
      let text := match rt with t :: _ => t | [] => "" end in
      str_repeat "#" (level_of lvl) +:+ " " +:+ text
  | bulleted_list_item rt => "- " +:+ join " " rt
  | numbered_list_item rt => "1. " +:+ join " " rt
  | child_page title =>
      "- [" +:+ title +:+ "](" +:+ block_parent_page_id b +:+ ")"
  | unsupported => block_str b
  end.

Definition process_blocks (blocks : list block) : string :=
  join newline (map render_block blocks).

Fixpoint get_child_pages (blocks : list block) : list NotionChildPage :=
  match blocks with
  | [] => []
  | b :: rest =>
      match block_type b with
      | child_page title => mkChild title (block_id b) :: get_child_pages rest
      | _ => get_child_pages rest
      end
  end.

(** The [content] entry written for one property; [None] when no branch of
    the [if/elif] chain matches. *)
Definition convert_property (v : property) : option pyval :=
  match v with
  | prop_title l => Some (PList l)
  | prop_rich_text l => Some (PList l)
  | prop_url u => Some (opt_str u)
  | prop_select n => Some (opt_str n)
  | prop_multi_select l => Some (PList l)
  | prop_date d => Some (opt_str d)
  | prop_people l => Some (PList l)
  | prop_relation l => Some (PList l)
  | prop_checkbox b => Some (PBool b)
  | prop_number n => Some (match n with Some z => PNum z | None => PNone end)
  | prop_other => None
  end.

Fixpoint read_properties (props : list (string * property))
    (acc : gmap string pyval) : gmap string pyval :=
  match props with
  | [] => acc
  | (key, value) :: rest =>
      read_properties rest
        (match convert_property value with
         | Some v => <[key := v]> acc
         | None => acc
         end)
  end.

(** What the two endpoints answer for a page id. *)
Record source := Source {
  pages_endpoint : string → response (list (string * property));
  blocks_endpoint : string → response (list block)
}.

(** The lines the [else] branches print before giving up. *)
Definition error_report {A} (status_line json_prefix text_prefix : string)
    (r : response A) : list string :=
  [status_line +:+ pretty (status_code r);
   match payload r with
   | Json dump _ => json_prefix +:+ dump
   | NotJson => text_prefix +:+ text r
   end].

Section Reader.
Variable notion : source.

(** [NotionReader.get_page_blocks]: printed lines and the value returned. *)
Definition get_page_blocks (pid : string) : list string * result (list block) :=
  let r := blocks_endpoint notion pid in
  if decide (status_code r = 200) then
    match payload r with
    | Json _ (Some results) => ([], Ok results)
    | Json _ None => ([], Raise (KeyError "results"))
    | NotJson => ([], Raise ValueError)
    end
  else
    (error_report "Error fetching blocks. Status Code: "
       "Full Error Response for blocks: "
       "Error Response Content for blocks: " r,
     Ok []).

(** [NotionReader.get_page_content]. *)
Definition get_page_content (pid : string) : list string * result NotionPage :=
  let r := pages_endpoint notion pid in
  if decide (status_code r = 200) then
    match payload r with
    | Json _ (Some properties) =>
        let content := read_properties properties ∅ in
        match get_page_blocks pid with
        | (out, Ok blocks) =>
            (out, Ok (mkPage pid content (process_blocks blocks)
                        (get_child_pages blocks)))
        | (out, Raise e) => (out, Raise e)
        end
    | Json _ None => ([], Raise (KeyError "properties"))
    | NotJson => ([], Raise ValueError)
    end
  else
    (error_report "Error Status Code: " "Full Error Response: "
       "Error Response Content: " r,
     Raise (Exception ("Failed to retrieve page content. Status code: "
                         +:+ pretty (status_code r)))).
End Reader.

(** ** The knowledge graph ([networkx.DiGraph]) *)

(** Nodes carry an optional [title] attribute (a node created by [add_edge]
    has none); edges carry no attribute. *)
Record DiGraph := mkGraph {
  nodes : gmap string (option string);
  edges : gset (string * string)
}.

#[global] Instance DiGraph_eq_dec : EqDecision DiGraph.
Proof. solve_decision. Defined.

Definition empty_graph : DiGraph := mkGraph ∅ ∅.

(** [G.add_node(n, title=t)]: creates the node or updates its attribute. *)
Definition add_node (n title : string) (g : DiGraph) : DiGraph :=
  mkGraph (<[n := Some title]> (nodes g)) (edges g).

(** [G.add_edge(u, v)]: missing endpoints are created without attributes. *)
Definition touch_node (n : string) (ns : gmap string (option string)) :=
  match ns !! n with
  | Some _ => ns
  | None => <[n := None]> ns
  end.

Definition add_edge (u v : string) (g : DiGraph) : DiGraph :=
  mkGraph (touch_node v (touch_node u (nodes g))) ({[(u, v)]} ∪ edges g).

(** How often an edge, resp. a node, occurs in [G.edges], resp. [G.nodes]. *)
Definition edge_count (u v : string) (g : DiGraph) : nat :=
  length (filter (λ e, e = (u, v)) (elements (edges g))).

Definition node_count (n : string) (g : DiGraph) : nat :=
  length (filter (λ kv, kv.1 = n) (map_to_list (nodes g))).

(** ** services/notion_indexer.py *)

Record metadata := mkMeta {
  meta_page_id : string;
  meta_title : string
}.

#[global] Instance metadata_eq_dec : EqDecision metadata.
Proof. solve_decision. Defined.

(** The records the indexer logs, one constructor per call site. *)
Inductive log_record :=
| log_start
| log_already_processed (n total : Z) (title : string)
| log_processing (n total : Z) (title : string)
| log_no_content (pid : string)
| log_delete_error (pid : string)
| log_submitting (pid : string)
| log_chunk_ok (pid : string)
| log_chunk_error (pid : string)
| log_completed (pid : string)
| log_skipping (n total : Z) (title : string)
| log_found_children (n : Z) (title : string)
| log_complete (n : Z).

Inductive log_level := INFO | WARNING | ERROR.

Definition level (r : log_record) : log_level :=
  match r with
  | log_no_content _ | log_delete_error _ => WARNING
  | log_chunk_error _ => ERROR
  | _ => INFO
  end.

(** What the indexer does to the outside world, in order. *)
Inductive event :=
| ev_fetch (pid : string)
| ev_print (line : string)
| ev_log (r : log_record)
| ev_delete (pid : string) (ok : bool)
| ev_add_texts (chunk : string) (meta : metadata) (ok : bool)
| ev_save_hash_store (m : gmap string string)
| ev_save_processed_pages (p : gset string)
| ev_save_knowledge_graph (g : DiGraph).

#[global] Instance log_record_eq_dec : EqDecision log_record.
Proof. solve_decision. Defined.
#[global] Instance event_eq_dec : EqDecision event.
Proof. solve_decision. Defined.

(** The indexer object together with the world it acts on: the embedding
    store, the three pickle files and the trace of events. [store_calls]
    counts the calls made to the embedding store. *)
Record indexer := mkIndexer {
  root_page_id : string;
  total_pages_found : Z;
  pages_processed : Z;
  processed_pages : gset string;
  hash_store : gmap string string;
  knowledge_graph : DiGraph;
  vector_store : list (string * metadata);
  store_calls : nat;
  hash_store_file : option (gmap string string);
  processed_pages_file : option (gset string);
  knowledge_graph_file : option DiGraph;
  trace : list event
}.

Definition emit (e : event) (s : indexer) : indexer :=
  mkIndexer (root_page_id s) (total_pages_found s) (pages_processed s)
    (processed_pages s) (hash_store s) (knowledge_graph s) (vector_store s)
    (store_calls s) (hash_store_file s) (processed_pages_file s)
    (knowledge_graph_file s) (trace s ++ [e]).

Definition emit_all (es : list event) (s : indexer) : indexer :=
  foldl (λ s e, emit e s) s es.

Definition set_counters (found processed : Z) (s : indexer) : indexer :=
  mkIndexer (root_page_id s) found processed
    (processed_pages s) (hash_store s) (knowledge_graph s) (vector_store s)
    (store_calls s) (hash_store_file s) (processed_pages_file s)
    (knowledge_graph_file s) (trace s).

Definition set_processed_pages (p : gset string) (s : indexer) : indexer :=
  mkIndexer (root_page_id s) (total_pages_found s) (pages_processed s)
    p (hash_store s) (knowledge_graph s) (vector_store s)
    (store_calls s) (hash_store_file s) (processed_pages_file s)
    (knowledge_graph_file s) (trace s).

Definition set_hash_store (m : gmap string string) (s : indexer) : indexer :=
  mkIndexer (root_page_id s) (total_pages_found s) (pages_processed s)
    (processed_pages s) m (knowledge_graph s) (vector_store s)
    (store_calls s) (hash_store_file s) (processed_pages_file s)
    (knowledge_graph_file s) (trace s).

Definition set_knowledge_graph (g : DiGraph) (s : indexer) : indexer :=
  mkIndexer (root_page_id s) (total_pages_found s) (pages_processed s)
    (processed_pages s) (hash_store s) g (vector_store s)
    (store_calls s) (hash_store_file s) (processed_pages_file s)
    (knowledge_graph_file s) (trace s).

(** One call to the embedding store: counted, and its effect applied. *)
Definition store_call (docs : list (string * metadata)) (s : indexer) : indexer :=
  mkIndexer (root_page_id s) (total_pages_found s) (pages_processed s)
    (processed_pages s) (hash_store s) (knowledge_graph s) docs
    (S (store_calls s)) (hash_store_file s) (processed_pages_file s)
    (knowledge_graph_file s) (trace s).

(** [save_hash_store], [save_processed_pages], [save_knowledge_graph]. *)
Definition save_hash_store (s : indexer) : indexer :=
  emit (ev_save_hash_store (hash_store s))
    (mkIndexer (root_page_id s) (total_pages_found s) (pages_processed s)
       (processed_pages s) (hash_store s) (knowledge_graph s) (vector_store s)
       (store_calls s) (Some (hash_store s)) (processed_pages_file s)
       (knowledge_graph_file s) (trace s)).

Definition save_processed_pages (s : indexer) : indexer :=
  emit (ev_save_processed_pages (processed_pages s))
    (mkIndexer (root_page_id s) (total_pages_found s) (pages_processed s)
       (processed_pages s) (hash_store s) (knowledge_graph s) (vector_store s)
       (store_calls s) (hash_store_file s) (Some (processed_pages s))
       (knowledge_graph_file s) (trace s)).

Definition save_knowledge_graph (s : indexer) : indexer :=
  emit (ev_save_knowledge_graph (knowledge_graph s))
    (mkIndexer (root_page_id s) (total_pages_found s) (pages_processed s)
       (processed_pages s) (hash_store s) (knowledge_graph s) (vector_store s)
       (store_calls s) (hash_store_file s) (processed_pages_file s)
       (Some (knowledge_graph s)) (trace s)).

(** [load_processed_pages]: only when the file exists. *)
Definition load_processed_pages (s : indexer) : indexer :=
  match processed_pages_file s with
  | Some p => set_processed_pages p s
  | None => s
  end.

(** [NotionIndexer.__init__] over the files found on disk. *)
Definition new_indexer (root : string) (docs : list (string * metadata))
    (hash_file : option (gmap string string)) (graph_file : option DiGraph)
    (processed_file : option (gset string)) : indexer :=
  mkIndexer root 0 0 ∅ (default ∅ hash_file) (default empty_graph graph_file)
    docs 0 hash_file processed_file graph_file [].

(** [title_list = content.get('title', ['Untitled'])] followed by
    [title_list[0] if title_list else 'Untitled']. *)
Definition page_title (content : gmap string pyval) : result string :=
  match content !! "title" with
  | None => Ok "Untitled"
  | Some (PList (t :: _)) => Ok t
  | Some (PList []) => Ok "Untitled"
  | Some (PStr (String c _)) => Ok (String c "")
  | Some (PStr "") => Ok "Untitled"
  | Some PNone => Ok "Untitled"
  | Some (PBool false) => Ok "Untitled"
  | Some (PBool true) => Raise TypeError
  | Some (PNum 0) => Ok "Untitled"
  | Some (PNum _) => Raise TypeError
  end.

(** The title the indexer uses for a fetched page. *)
Definition title_of (page : NotionPage) : result string :=
  page_title (content page).

(** [if parent_id:] *)
Definition truthy (parent_id : option string) : bool :=
  match parent_id with
  | Some (String _ _) => true
  | _ => false
  end.

(** The graph part of a visit: [add_node(page_id, title=title)], then
    [add_edge(parent_id, page_id)] under [if parent_id:]. *)
Definition update_graph (pid title : string) (parent_id : option string)
    (g : DiGraph) : DiGraph :=
  let g := add_node pid title g in
  match parent_id with
  | Some parent => if truthy parent_id then add_edge parent pid g else g
  | None => g
  end.

Inductive outcome :=
| Done (s : indexer)
| Failed (e : exn) (s : indexer)
| RecursionOverflow.

(** [for x in xs: body(x)] where the body may raise. *)
Fixpoint for_each {A} (body : A → indexer → outcome) (xs : list A)
    (s : indexer) : outcome :=
  match xs with
  | [] => Done s
  | x :: rest =>
      match body x s with
      | Done s' => for_each body rest s'
      | other => other
      end
  end.

Section Indexer.
(** The collaborators: the remote source, [hashlib.md5(..).hexdigest()],
    [CharacterTextSplitter(chunk_size=1000, chunk_overlap=200).split_text]
    and, for the embedding store, which of its calls raise (the n-th call
    made to the store raises iff [store_fails n]). *)
Variable notion : source.
Variable md5 : string → string.
Variable split_text : string → list string.
Variable store_fails : nat → bool.

(** The [try: self.vector_store._collection.delete(where={"page_id": ..})]
    block with its [except] clause. *)
Definition delete_page (pid : string) (s : indexer) : indexer :=
  if store_fails (store_calls s) then
    emit (ev_log (log_delete_error pid))
      (emit (ev_delete pid false) (store_call (vector_store s) s))
  else
    emit (ev_delete pid true)
      (store_call
         (filter (λ d, meta_page_id d.2 ≠ pid) (vector_store s)) s).

(** [executor.submit(self.vector_store.add_texts, [chunk], [meta])] for one
    chunk; the boolean tells whether the task completed without raising. *)
Definition submit_chunk (pid title chunk : string) (s : indexer)
    : indexer * bool :=
  let s := emit (ev_log (log_submitting pid)) s in
  let meta := mkMeta pid title in
  if store_fails (store_calls s) then
    (emit (ev_add_texts chunk meta false) (store_call (vector_store s) s),
     false)
  else
    (emit (ev_add_texts chunk meta true)
       (store_call (vector_store s ++ [(chunk, meta)]) s),
     true).

(** The submission loop. The pool runs the tasks concurrently; each task is
    one call to the store that either adds its chunk or raises, so the
    tasks are taken here in submission order, and which of them raise is
    left to [store_fails]. The order in which the chunks of one page stand
    in [vector_store] is thus one of the orders in which the workers may
    complete: what is proved about the vectors of a page does not depend
    on it. *)
Fixpoint submit_chunks (pid title : string) (chunks : list string)
    (s : indexer) : indexer * list bool :=
  match chunks with
  | [] => (s, [])
  | chunk :: rest =>
      let '(s1, ok) := submit_chunk pid title chunk s in
      let '(s2, oks) := submit_chunks pid title rest s1 in
      (s2, ok :: oks)
  end.

(** The [as_completed] loop: one record per future (listed here in
    submission order), never an exception. *)
Definition collect_results (pid : string) (oks : list bool) (s : indexer)
    : indexer :=
  emit_all
    (map (λ ok : bool,
            ev_log (if ok then log_chunk_ok pid else log_chunk_error pid))
       oks) s.

(** The body of the [elif is_new_page or is_page_modified:] branch. *)
Definition index_page (pid title content current_hash : string)
    (s : indexer) : indexer :=
  let s := emit (ev_log (log_processing (pages_processed s + 1)
                           (total_pages_found s + 1) title)) s in
  let chunks := split_text content in
  match chunks with
  | [] => emit (ev_log (log_no_content pid)) s
  | _ :: _ =>
      let s := delete_page pid s in
      let '(s, oks) := submit_chunks pid title chunks s in
      let s := collect_results pid oks s in
      let s := emit (ev_log (log_completed pid)) s in
      let s := set_hash_store (<[pid := current_hash]> (hash_store s)) s in
      let s := save_hash_store s in
      let s := set_processed_pages ({[pid]} ∪ processed_pages s) s in
      save_processed_pages s
  end.

(** The three flags computed before the branch. *)
Definition is_new_page (pid : string) (s : indexer) : bool :=
  bool_decide (hash_store s !! pid = None).

Definition is_page_modified (pid current_hash : string) (s : indexer) : bool :=
  bool_decide (hash_store s !! pid ≠ Some current_hash).

Definition is_already_processed (pid : string) (s : indexer) : bool :=
  bool_decide (pid ∈ processed_pages s).

(** [self.total_pages_found += len(notion_page.child_pages)] *)
Definition arrive (page : NotionPage) (s : indexer) : indexer :=
  set_counters (total_pages_found s + Z.of_nat (length (child_pages page)))
    (pages_processed s) s.

(** [self.pages_processed += 1] and the update of the knowledge graph. *)
Definition leave (pid title : string) (parent_id : option string)
    (s : indexer) : indexer :=
  let s := set_counters (total_pages_found s) (pages_processed s + 1) s in
  set_knowledge_graph (update_graph pid title parent_id (knowledge_graph s)) s.

(** [process_page] from the fetched page up to (not including) the loop
    over the children. *)
Definition visit_page (pid : string) (parent_id : option string)
    (page : NotionPage) (s : indexer) : outcome :=
  let current_hash := md5 (full_content page) in
  let s := arrive page s in
  match title_of page with
  | Raise e => Failed e s
  | Ok title =>
      let s :=
        if is_already_processed pid s then
          emit (ev_log (log_already_processed (pages_processed s + 1)
                          (total_pages_found s + 1) title)) s
        else if is_new_page pid s || is_page_modified pid current_hash s then
          index_page pid title (full_content page) current_hash s
        else
          emit (ev_log (log_skipping (pages_processed s + 1)
                          (total_pages_found s + 1) title)) s in
      Done (leave pid title parent_id s)
  end.

(** [NotionReader.get_page_content(page_id)] as the indexer sees it. *)
Definition fetch (pid : string) (s : indexer) : indexer * result NotionPage :=
  let '(out, r) := get_page_content notion pid in
  (emit_all (map ev_print out) (emit (ev_fetch pid) s), r).

(** The tail of [process_page]: [if notion_page.child_pages:] and the loop
    over the children, [visit] being the recursive call. *)
Definition descend (visit : string → option string → indexer → outcome)
    (pid : string) (page : NotionPage) (s : indexer) : outcome :=
  match child_pages page with
  | [] => Done s
  | children =>
      let title := match title_of page with Ok t => t | Raise _ => "" end in
      let s := emit (ev_log (log_found_children
                               (Z.of_nat (length children)) title)) s in
      for_each (λ child, visit (child_page_id child) (Some pid)) children s
  end.

(** [NotionIndexer.process_page]. The recursion follows the remote data,
    so it is bounded here by [depth] stack frames; [RecursionOverflow]
    means the bound was too small. *)
Fixpoint process_page (depth : nat) (pid : string)
    (parent_id : option string) (s : indexer) : outcome :=
  match depth with
  | O => RecursionOverflow
  | S depth' =>
      match fetch pid s with
      | (s, Raise e) => Failed e s
      | (s, Ok page) =>
          match visit_page pid parent_id page s with
          | Done s => descend (process_page depth') pid page s
          | other => other
          end
      end
  end.

(** [NotionIndexer.run]. *)
Definition run (depth : nat) (s : indexer) : outcome :=
  let s := emit (ev_log log_start) s in
  let s := load_processed_pages s in
  let s := set_counters 1 0 s in
  match process_page depth (root_page_id s) None s with
  | Done s =>
      let s := save_knowledge_graph s in
      Done (emit (ev_log (log_complete (pages_processed s))) s)
  | other => other
  end.

(** *** Expected behaviour of the store phase, for the statements below *)

(** Whether each of the submissions made from store call [n] on succeeds. *)
Fixpoint submission_results (n : nat) (chunks : list string) : list bool :=
  match chunks with
  | [] => []
  | _ :: rest => negb (store_fails n) :: submission_results (S n) rest
  end.

Definition submit_events (pid title : string)
    (submitted : list (string * bool)) : list event :=
  flat_map (λ cr : string * bool,
              [ev_log (log_submitting pid);
               ev_add_texts cr.1 (mkMeta pid title) cr.2]) submitted.

(** The documents that the successful submissions leave in the store. *)
Definition stored (pid title : string) (submitted : list (string * bool))
    : list (string * metadata) :=
  map (λ cr : string * bool, (cr.1, mkMeta pid title))
    (filter (λ cr : string * bool, cr.2 = true) submitted).

Definition delete_events (pid : string) (n : nat) : list event :=
  if store_fails n then [ev_delete pid false; ev_log (log_delete_error pid)]
  else [ev_delete pid true].

Definition result_events (pid : string) (oks : list bool) : list event :=
  map (λ ok : bool,
         ev_log (if ok then log_chunk_ok pid else log_chunk_error pid)) oks.
End Indexer.

(** The calls made to the embedding store that a trace records. *)
Definition is_store_event (e : event) : bool :=
  match e with
  | ev_delete _ _ | ev_add_texts _ _ _ => true
  | _ => false
  end.

Definition store_events (t : list event) : list event :=
  filter (λ e, is_store_event e = true) t.

(** The chunks a trace submits, with the outcome of each submission. *)
Definition submissions (t : list event) : list (string * bool) :=
  omap (λ e, match e with
             | ev_add_texts chunk _ ok => Some (chunk, ok)
             | _ => None
             end) t.

(** The records a trace logs, in order. *)
Definition logged (t : list event) : list log_record :=
  omap (λ e, match e with ev_log r => Some r | _ => None end) t.

(** The state an outcome leaves behind, if any. *)
Definition final_state (o : outcome) : option indexer :=
  match o with
  | Done s | Failed _ s => Some s
  | RecursionOverflow => None
  end.

(** Both per-node files hold what the indexer has in memory. *)
Definition persisted (s : indexer) : Prop :=
  hash_store_file s = Some (hash_store s)
  ∧ processed_pages_file s = Some (processed_pages s).


(** The ids whose visit a trace records, in order. *)
Definition fetches (t : list event) : list string :=
  omap (λ e, match e with ev_fetch p => Some p | _ => None end) t.

(** ** Corpora shaped as trees *)

#[local] Unset Elimination Schemes.
Inductive tree := Node (node_id : string) (kids : list tree).
#[local] Set Elimination Schemes.

Definition root (t : tree) : string :=
  match t with Node i _ => i end.

Fixpoint preorder (t : tree) : list string :=
  match t with Node i ks => i :: flat_map preorder ks end.

Fixpoint height (t : tree) : nat :=
  match t with Node _ ks => S (foldr (λ k h, Nat.max (height k) h) O ks) end.

(** [unfolds notion t]: following the child references of the remote source
    from [root t] unfolds exactly the tree [t]; every page on the way is
    fetched without error and has a usable title. *)
#[local] Unset Elimination Schemes.
Inductive unfolds (notion : source) : tree → Prop :=
| unfolds_node (i : string) (ks : list tree) (page : NotionPage) (title : string) :
    (get_page_content notion i).2 = Ok page →
    title_of page = Ok title →
    child_page_id <$> child_pages page = root <$> ks →
    Forall (unfolds notion) ks →
    unfolds notion (Node i ks).
#[local] Set Elimination Schemes.

(** ** What a completed visit leaves behind *)

Section Absorbed.
Variable notion : source.
Variable md5 : string → string.
Variable split_text : string → list string.

(** The graph records the visit of [pid] coming from [parent_id]. *)
Definition graph_has (g : DiGraph) (pid title : string)
    (parent_id : option string) : Prop :=
  nodes g !! pid = Some (Some title)
  ∧ match parent_id with
    | Some parent =>
        truthy parent_id = true →
        is_Some (nodes g !! parent) ∧ (parent, pid) ∈ edges g
    | None => True
    end.

(** Nothing is left to do for [pid]: it is in ProcessedSet, or its text has
    no chunk, or its stored fingerprint is the fresh one. *)
Definition settled (s : indexer) (pid : string) (page : NotionPage) : Prop :=
  pid ∈ processed_pages s
  ∨ split_text (full_content page) = []
  ∨ hash_store s !! pid = Some (md5 (full_content page)).

Definition absorbed (s : indexer) (pid : string) (parent_id : option string)
    : Prop :=
  ∀ page title,
    (get_page_content notion pid).2 = Ok page →
    title_of page = Ok title →
    settled s pid page ∧ graph_has (knowledge_graph s) pid title parent_id.

(** [t] has absorbed every visit that [s] has. *)
Definition covers (s t : indexer) : Prop :=
  ∀ pid parent_id, absorbed s pid parent_id → absorbed t pid parent_id.
End Absorbed.

(** Nothing but the counters and the log moved between [s] and [s']. *)
Definition quiet (s s' : indexer) : Prop :=
  hash_store s' = hash_store s
  ∧ processed_pages s' = processed_pages s
  ∧ knowledge_graph s' = knowledge_graph s
  ∧ vector_store s' = vector_store s
  ∧ store_calls s' = store_calls s
  ∧ hash_store_file s' = hash_store_file s
  ∧ processed_pages_file s' = processed_pages_file s
  ∧ knowledge_graph_file s' = knowledge_graph_file s
  ∧ root_page_id s' = root_page_id s
  ∧ store_events (trace s') = store_events (trace s).

(** The file of ProcessedSet, when there is one, holds the set in memory. *)
Definition processed_in_sync (s : indexer) : Prop :=
  match processed_pages_file s with
  | Some p => p = processed_pages s
  | None => True
  end.

(** From [s] to [s'] nothing persisted is lost: the files still hold what is
    in memory, ProcessedSet and the keys of ContentHash only grow, and the
    trace is extended. *)
Definition durable_step (s s' : indexer) : Prop :=
  (persisted s → persisted s')
  ∧ processed_pages s ⊆ processed_pages s'
  ∧ dom (hash_store s) ⊆ dom (hash_store s')
  ∧ trace s `prefix_of` trace s'.

(** The decision of the change detector, from the two flags of
    [process_page]. *)
Inductive decision := Unseen | Modified | Unchanged.

Definition decide_page (md5 : string → string) (pid : string)
    (page : NotionPage) (s : indexer) : decision :=
  if is_new_page pid s then Unseen
  else if is_page_modified pid (md5 (full_content page)) s then Modified
  else Unchanged.

(** ** A small corpus to run the model on *)

Module Demo.
(** Stand-ins for the external functions: a splitter that keeps a short
    non-empty text as its single chunk, and a fingerprint. *)
Definition split (text : string) : list string :=
  match text with "" => [] | _ => [text] end.

Definition digest (text : string) : string := "md5:" +:+ text.

Definition ok_page (title : string) : response (list (string * property)) :=
  Response 200 "" (Json "" (Some [("title", prop_title [title])])).

Definition ok_blocks (bs : list block) : response (list block) :=
  Response 200 "" (Json "" (Some bs)).

Definition not_found {A} : response A :=
  Response 404 "Not Found" NotJson.

Definition para (owner line : string) : block :=
  Block (owner +:+ "-p") owner (paragraph [line]) "".

Definition link (owner child : string) : block :=
  Block child owner (child_page child) "".

(** root -> A, B; A -> C; B -> C  (C is declared under two parents). *)
Definition diamond : source :=
  Source
    (λ pid, if bool_decide (pid ∈ ["root"; "A"; "B"; "C"]) then ok_page pid
            else not_found)
    (λ pid,
       if String.eqb pid "root" then
         ok_blocks [para "root" "hello"; link "root" "A"; link "root" "B"]
       else if String.eqb pid "A" then ok_blocks [link "A" "C"]
       else if String.eqb pid "B" then ok_blocks [link "B" "C"]
       else if String.eqb pid "C" then ok_blocks [para "C" "leaf"]
       else not_found).

(** A -> B -> A. *)
Definition cycle : source :=
  Source
    (λ pid, ok_page pid)
    (λ pid,
       if String.eqb pid "A" then ok_blocks [link "A" "B"]
       else ok_blocks [link pid "A"]).

(** root -> A, B; A -> C: a tree. *)
Definition family : source :=
  Source
    (λ pid, if bool_decide (pid ∈ ["root"; "A"; "B"; "C"]) then ok_page pid
            else not_found)
    (λ pid,
       if String.eqb pid "root" then
         ok_blocks [para "root" "hello"; link "root" "A"; link "root" "B"]
       else if String.eqb pid "A" then ok_blocks [link "A" "C"]
       else if String.eqb pid "B" then ok_blocks [para "B" "second"]
       else if String.eqb pid "C" then ok_blocks [para "C" "leaf"]
       else not_found).

Definition family_tree : tree :=
  Node "root" [Node "A" [Node "C" []]; Node "B" []].

(** A single page whose only paragraph is [line]; no block at all when
    [line] is empty. *)
Definition single (line : string) : source :=
  Source
    (λ pid, if String.eqb pid "root" then ok_page pid else not_found)
    (λ pid,
       if String.eqb pid "root" then
         ok_blocks (match line with "" => [] | _ => [para "root" line] end)
       else not_found).

(** The page object is served, the request for its blocks is refused. *)
Definition blocks_refused : source :=
  Source (λ pid, ok_page pid) (λ pid, not_found).

(** The page request itself is refused. *)
Definition page_refused : source :=
  Source (λ pid, not_found) (λ pid, ok_blocks []).

Definition fresh (root : string) : indexer :=
  new_indexer root [] None None None.

Definition never_fails (n : nat) : bool := false.

(** The third call made to the store raises. *)
Definition third_fails (n : nat) : bool := Nat.eqb n 2.

(** A page with two chunks, under a splitter that cuts at the first '|'. *)
Fixpoint cut (text : string) : string * option string :=
  match text with
  | "" => ("", None)
  | String c rest =>
      if Ascii.eqb c (Ascii.ascii_of_nat 124) then ("", Some rest)
      else let '(a, b) := cut rest in (String c a, b)
  end.

Definition split2 (text : string) : list string :=
  match cut text with
  | ("", None) => []
  | (a, None) => [a]
  | (a, Some b) => [a; b]
  end.

Definition two_chunks : NotionPage :=
  mkPage "A" {["title" := PList ["A"]]} "first|second" [].

Definition empty_page : NotionPage :=
  mkPage "B" {["title" := PList ["B"]]} "" [].

Definition returned (o : outcome) : option indexer :=
  match o with Done s => Some s | _ => None end.

(** The first call made to the store (the deletion) raises. *)
Definition first_fails (n : nat) : bool := Nat.eqb n 0.

(** The state a first run over [family] leaves. *)
Definition first_run : indexer :=
  default (fresh "") (returned (run family digest split never_fails 3 (fresh "root"))).

(** The visit of the single page "root" with text "old", step by step. *)
Definition old_page : NotionPage :=
  mkPage "root" {["title" := PList ["root"]]} "old" [].

Definition old_fetched : indexer :=
  (fetch (single "old") "root" (fresh "root")).1.

Definition old_visited : indexer :=
  default (fresh "")
    (returned (visit_page digest split never_fails "root" None old_page
                 old_fetched)).
End Demo.

(** ** Further definitions: the reader seen from its callers *)

(** [block['type'] == 'child_page'] *)
Definition is_child_page (b : block) : bool :=
  match block_type b with child_page _ => true | _ => false end.

(** The reference [get_child_pages] builds from one block, if any. *)
Definition child_ref (b : block) : option NotionChildPage :=
  match block_type b with
  | child_page title => Some (mkChild title (block_id b))
  | _ => None
  end.

(** ** Further definitions: the indexer across runs *)

(** What [__init__] followed by [load_processed_pages] would read back from
    the files is what the indexer holds in memory. *)
Definition restorable (s : indexer) : Prop :=
  hash_store s = default ∅ (hash_store_file s)
  ∧ processed_pages s = default ∅ (processed_pages_file s).

(** A new indexer object over the files [s] leaves on disk, at the point
    where its [run] has loaded ProcessedSet. *)
Definition restart (s : indexer) : indexer :=
  load_processed_pages
    (new_indexer (root_page_id s) (vector_store s) (hash_store_file s)
       (knowledge_graph_file s) (processed_pages_file s)).

(** Every id with a fingerprint is in ProcessedSet. *)
Definition hashed_are_processed (s : indexer) : Prop :=
  dom (hash_store s) ⊆ processed_pages s.

(** The vectors of the store tagged with a page id. *)
Definition tagged (pid : string) (docs : list (string * metadata))
    : list (string * metadata) :=
  filter (λ d, meta_page_id d.2 = pid) docs.

(** Every fingerprint in ContentHash is the fingerprint of the text the
    source serves for that id, and that text has at least one chunk. *)
Definition hash_sound (notion : source) (md5 : string → string)
    (split_text : string → list string) (s : indexer) : Prop :=
  ∀ pid h page,
    hash_store s !! pid = Some h →
    (get_page_content notion pid).2 = Ok page →
    h = md5 (full_content page) ∧ split_text (full_content page) ≠ [].

(** ** Further definitions: the graph of a tree-shaped corpus *)

(** The title the indexer uses for the page of id [i]. *)
Definition title_at (notion : source) (i : string) : string :=
  match (get_page_content notion i).2 with
  | Ok page => match title_of page with Ok t => t | Raise _ => "" end
  | Raise _ => ""
  end.

(** The graph updates of a traversal of [t] entered from [parent_id], in
    the order the traversal makes them. *)
Fixpoint tree_graph (title : string → string) (t : tree)
    (parent_id : option string) (g : DiGraph) : DiGraph :=
  match t with
  | Node i ks =>
      foldl (λ g k, tree_graph title k (Some i) g)
        (update_graph i (title i) parent_id g) ks
  end.

(** The parent->child pairs of a tree, in preorder of the child. *)
Fixpoint edge_list (t : tree) : list (string * string) :=
  match t with
  | Node i ks => flat_map (λ k, (i, root k) :: edge_list k) ks
  end.

(** The node and the edge that [add_edge(parent_id, page_id)] contributes
    under [if parent_id:]. *)
Definition parent_node (parent_id : option string) : gset string :=
  match parent_id with
  | Some p => if truthy parent_id then {[p]} else ∅
  | None => ∅
  end.

Definition parent_edge (parent_id : option string) (i : string)
    : gset (string * string) :=
  match parent_id with
  | Some p => if truthy parent_id then {[(p, i)]} else ∅
  | None => ∅
  end.


(** ** tools/notion_tools.py *)

(** [str(e)]: the message of a plain [Exception], the repr of the key of a
    [KeyError]; the text of the built-in errors is left to
    [builtin_message]. *)
Definition str_exn (builtin_message : exn → string) (e : exn) : string :=
  match e with
  | Exception msg => msg
  | KeyError key => "'" +:+ key +:+ "'"
  | other => builtin_message other
  end.

(** [NotionPageReaderTool._run]: what is printed and the string returned.
    [dumps page] stands for [json.dumps(result, indent=2)] of the dict built
    from the page (its id, properties, text and child references). *)
Definition page_reader_tool (notion : source) (builtin_message : exn → string)
    (dumps : NotionPage → string) (pid : string) : list string * string :=
  match get_page_content notion pid with
  | (out, Ok page) => (out, dumps page)
  | (out, Raise e) =>
      (out, "Error reading Notion page: " +:+ str_exn builtin_message e)
  end.

(** [graph.neighbors(n)]: the successors of a node, [None] standing for the
    [NetworkXError] raised when [n] is not in the graph. *)
Definition neighbors (g : DiGraph) (n : string) : option (gset string) :=
  match nodes g !! n with
  | Some _ => Some (set_map snd (filter (λ e, e.1 = n) (edges g)))
  | None => None
  end.

(** [graph.nodes[n].get("title", "Untitled")] *)
Definition node_title (g : DiGraph) (n : string) : string :=
  match nodes g !! n with
  | Some (Some title) => title
  | _ => "Untitled"
  end.

(** The dict [NotionKnowledgeGraphTool._run] hands to [json.dumps]. The
    children of the root are kept as a map from page id to title: the order
    in which networkx lists them is not recorded by [DiGraph]. *)
Record graph_report := mkReport {
  total_pages : nat;
  total_connections : nat;
  report_root_page_id : string;
  root_children : gmap string string
}.

(** [NotionKnowledgeGraphTool._run]. *)
Definition knowledge_graph_tool (dumps : graph_report → string)
    (s : indexer) : string :=
  let graph := knowledge_graph s in
  match neighbors graph (root_page_id s) with
  | Some children =>
      dumps (mkReport (size (nodes graph)) (size (edges graph))
               (root_page_id s)
               (set_to_map (λ n, (n, node_title graph n)) children))
  | None =>
      "Error exploring knowledge graph: The node " +:+ root_page_id s
      +:+ " is not in the digraph."
  end.

Definition kids (t : tree) : list tree :=
  match t with Node _ ks => ks end.

(** A Python [str] is held as the bytes of its UTF-8 encoding. A byte
    10xxxxxx continues the code point that the last leading byte opened. *)
Definition is_continuation (c : Ascii.ascii) : bool :=
  match c with
  | Ascii.Ascii _ _ _ _ _ _ b6 b7 => b7 && negb b6
  end.

(** [len(text)]: the number of code points, one per leading byte. *)
Fixpoint code_points (text : string) : nat :=
  match text with
  | "" => 0
  | String c rest =>
      ((if is_continuation c then 0 else 1) + code_points rest)%nat
  end.

(** [text[:n]]: the first [n] code points, each with its continuation
    bytes. *)
Fixpoint str_take (n : nat) (text : string) : string :=
  match text with
  | "" => ""
  | String c rest =>
      if is_continuation c then String c (str_take n rest)
      else match n with
           | O => ""
           | S k => String c (str_take k rest)
           end
  end.

(** [doc.page_content[:200] + "..."] *)
Definition content_preview (text : string) : string :=
  str_take 200 text +:+ "...".

(** One entry of the list [NotionSearchTool._run] hands to [json.dumps]. *)
Record search_hit := mkHit {
  hit_page_id : string;
  hit_title : string;
  hit_content_preview : string
}.

Definition format_result (doc : string * metadata) : search_hit :=
  mkHit (meta_page_id doc.2) (meta_title doc.2) (content_preview doc.1).

(** [NotionSearchTool._run]. [similarity_search docs query k] stands for
    the search of the vector store, which may raise; the documents of the
    store are those the indexer writes, whose metadata has both keys. *)
Definition search_tool
    (similarity_search : list (string * metadata) → string → Z →
                         result (list (string * metadata)))
    (builtin_message : exn → string) (dumps : list search_hit → string)
    (s : indexer) (query : string) (max_results : Z) : string :=
  match similarity_search (vector_store s) query max_results with
  | Ok search_results => dumps (map format_result search_results)
  | Raise e => "Error searching Notion: " +:+ str_exn builtin_message e
  end.

(** ** Further concrete inputs *)

Module Cases.
Import Demo.

(** root -> A, where the request for page A is refused. *)
Definition orphan : source :=
  Source
    (λ pid, if String.eqb pid "root" then ok_page pid else not_found)
    (λ pid,
       if String.eqb pid "root" then
         ok_blocks [para "root" "hello"; link "root" "A"]
       else not_found).

(** Every page is served and has no block. *)
Definition no_blocks : source :=
  Source (λ pid, ok_page pid) (λ pid, ok_blocks []).

(** A property object: a title, a ticked checkbox and a property of a type
    the reader does not convert. *)
Definition three_props : list (string * property) :=
  [("title", prop_title ["T"; "rest"]); ("done", prop_checkbox true);
   ("misc", prop_other)].

(** A new indexer over a store that holds a vector of page "A" and one of
    page "Z". *)
Definition with_vectors : indexer :=
  new_indexer "root" [("older", mkMeta "A" "A"); ("x", mkMeta "Z" "Zed")]
    None None None.

(** A new indexer whose files record the page "root" under the fingerprint
    of an older text. *)
Definition stale : indexer :=
  load_processed_pages
    (new_indexer "root" [("older", mkMeta "root" "root")]
       (Some {["root" := digest "older"]}) None (Some {["root"]})).

(** A rendering of the report of the knowledge graph tool. *)
Definition show_report (r : graph_report) : string :=
  report_root_page_id r +:+ ": " +:+ pretty (total_pages r) +:+ " pages, "
  +:+ pretty (total_connections r) +:+ " connections".

(** A search that returns the first [k] documents of the store, and raises
    on a negative [k]. *)
Definition first_k (docs : list (string * metadata)) (query : string)
    (k : Z) : result (list (string * metadata)) :=
  if bool_decide (k < 0) then Raise (Exception "k must be positive")
  else Ok (take (Z.to_nat k) docs).

(** A text of 201 code points of two bytes each (U+00E9), and a new
    indexer over a store that holds it as a vector of page "A". *)
Definition e_acute : string :=
  String (Ascii.ascii_of_nat 195) (String (Ascii.ascii_of_nat 169) "").

Definition long_text : string := str_repeat e_acute 201.

Definition with_long_text : indexer :=
  new_indexer "root" [(long_text, mkMeta "A" "A")] None None None.

(** A rendering of the hits of the search tool: their previews. *)
Definition show_hits (hits : list search_hit) : string :=
  join "|" (map hit_content_preview hits).
End Cases.

(** * Properties *)

(** ** Auxiliary facts on strings, lists and the graph *)

Lemma append_cons (a : Ascii.ascii) (x y : string) :
  String a x +:+ y = String a (x +:+ y).
Proof. reflexivity. Qed.

Lemma length_append (x y : string) :
  String.length (x +:+ y) = (String.length x + String.length y)%nat.
Proof.
  induction x as [|a x IH]; [done|].
  rewrite append_cons. simpl. by rewrite IH.
Qed.

Lemma append_inj_r (x y z : string) : x +:+ z = y +:+ z → x = y.
Proof.
  revert y; induction x as [|a x IH]; intros [|b y] H; try done.
  - exfalso. apply (f_equal String.length) in H.
    rewrite !length_append in H. simpl in H. lia.
  - exfalso. apply (f_equal String.length) in H.
    rewrite !length_append in H. simpl in H. lia.
  - rewrite !append_cons in H. injection H as -> H. f_equal. by apply IH.
Qed.

Lemma count_key {A K} `{EqDecision K} (f : A → K) (k : K) (l : list A) :
  NoDup (f <$> l) → k ∈ f <$> l → length (filter (λ e, f e = k) l) = 1%nat.
Proof.
  induction l as [|y l IH]; simpl; intros Hnd Hin.
  - by apply elem_of_nil in Hin.
  - apply NoDup_cons in Hnd as [Hy Hnd]. rewrite filter_cons.
    destruct (decide (f y = k)) as [<-|Hne].
    + simpl. f_equal. apply length_zero_iff_nil.
      destruct (filter (λ e, f e = f y) l) as [|z r] eqn:E; [done|].
      exfalso. assert (Hz : z ∈ filter (λ e, f e = f y) l) by (rewrite E; left).
      apply list_elem_of_filter in Hz as [Hfz Hz]. apply Hy. rewrite <- Hfz.
      by apply list_elem_of_fmap_2.
    + apply IH; [done|]. apply elem_of_cons in Hin as [?|?]; [congruence|done].
Qed.

Lemma edge_count_elem (u v : string) (g : DiGraph) :
  (u, v) ∈ edges g → edge_count u v g = 1%nat.
Proof.
  intros Hin. unfold edge_count.
  apply (count_key id (u, v)); rewrite list_fmap_id.
  - apply NoDup_elements.
  - by apply elem_of_elements.
Qed.

Lemma node_count_elem (n : string) (g : DiGraph) :
  is_Some (nodes g !! n) → node_count n g = 1%nat.
Proof.
  intros [a Ha]. unfold node_count.
  apply (count_key fst n).
  - apply NoDup_fst_map_to_list.
  - apply list_elem_of_fmap. exists (n, a). split; [done|].
    by apply elem_of_map_to_list.
Qed.

Lemma touch_node_lookup (n m : string) (ns : gmap string (option string)) :
  is_Some (ns !! m) → touch_node n ns !! m = ns !! m.
Proof.
  intros Hm. unfold touch_node. destruct (ns !! n) eqn:E; [done|].
  rewrite lookup_insert_ne; [done|]. intros ->. rewrite E in Hm. by destruct Hm.
Qed.

Lemma touch_node_is_Some (n : string) (ns : gmap string (option string)) :
  is_Some (touch_node n ns !! n).
Proof.
  unfold touch_node. destruct (ns !! n) eqn:E; [by rewrite E|].
  rewrite lookup_insert_eq. eauto.
Qed.

Lemma touch_node_mono (n m : string) (ns : gmap string (option string)) :
  is_Some (ns !! m) → is_Some (touch_node n ns !! m).
Proof. intros H. by rewrite touch_node_lookup. Qed.

Lemma touch_node_id (n : string) (ns : gmap string (option string)) :
  is_Some (ns !! n) → touch_node n ns = ns.
Proof. intros [a Ha]. unfold touch_node. by rewrite Ha. Qed.

Lemma add_node_twice (n t : string) (g : DiGraph) :
  add_node n t (add_node n t g) = add_node n t g.
Proof. unfold add_node; simpl. by rewrite insert_insert_eq. Qed.

Lemma add_edge_twice (u v : string) (g : DiGraph) :
  add_edge u v (add_edge u v g) = add_edge u v g.
Proof.
  unfold add_edge; simpl. f_equal.
  - rewrite (touch_node_id u (touch_node v (touch_node u (nodes g)))).
    + apply touch_node_id, touch_node_is_Some.
    + apply touch_node_mono, touch_node_is_Some.
  - by rewrite (assoc_L (∪)), (idemp_L (∪)).
Qed.

(** Observing a (parent, child) pair again changes nothing. *)
Lemma observe_twice (p c t : string) (g : DiGraph) :
  add_edge p c (add_node c t (add_edge p c (add_node c t g)))
  = add_edge p c (add_node c t g).
Proof.
  unfold add_edge, add_node; simpl.
  f_equal; [|by rewrite (assoc_L (∪)), (idemp_L (∪))].
  set (ns := touch_node c (touch_node p (<[c:=Some t]> (nodes g)))).
  assert (Hc : ns !! c = Some (Some t)).
  { unfold ns. rewrite touch_node_lookup.
    - rewrite touch_node_lookup; rewrite lookup_insert_eq; eauto.
    - apply touch_node_mono. rewrite lookup_insert_eq; eauto. }
  assert (Hp : is_Some (ns !! p)).
  { unfold ns. apply touch_node_mono, touch_node_is_Some. }
  rewrite (insert_id ns c); [|done].
  rewrite (touch_node_id p); [|done]. rewrite (touch_node_id c); [done|].
  by rewrite Hc.
Qed.

(** ** The properties of the specification *)

(** C8. Adding a node and adding a parent->child edge are idempotent: the
    repeated call returns the graph unchanged (no error is possible), and
    however many times a (parent, child) pair is observed by a visit
    ([add_node] of the child followed by [add_edge]), the graph is the one
    obtained from a single observation and lists that edge once and each of
    the two nodes once. *)
Theorem graph_builder_idempotent (p c t : string) (g : DiGraph) (k : nat) :
  p ≠ "" →
  add_node c t (add_node c t g) = add_node c t g
  ∧ add_edge p c (add_edge p c g) = add_edge p c g
  ∧ edge_count p c (add_edge p c g) = 1%nat
  ∧ node_count c (add_node c t g) = 1%nat
  ∧ let g' := Nat.iter (S k) (update_graph c t (Some p)) g in
    g' = update_graph c t (Some p) g
    ∧ edge_count p c g' = 1%nat
    ∧ node_count c g' = 1%nat
    ∧ node_count p g' = 1%nat.
Proof.
  intros Hp.
  assert (Hu : ∀ h, update_graph c t (Some p) h = add_edge p c (add_node c t h)).
  { intros h. unfold update_graph. destruct p; [done|reflexivity]. }
  split; [apply add_node_twice|]. split; [apply add_edge_twice|].
  split; [apply edge_count_elem; simpl; set_solver|].
  split; [apply node_count_elem; simpl; rewrite lookup_insert_eq; eauto|].
  assert (Hk : Nat.iter (S k) (update_graph c t (Some p)) g
               = update_graph c t (Some p) g).
  { induction k as [|k IH]; [done|].
    change (Nat.iter (S (S k)) (update_graph c t (Some p)) g)
      with (update_graph c t (Some p) (Nat.iter (S k) (update_graph c t (Some p)) g)).
    rewrite IH, !Hu. apply observe_twice. }
  cbv zeta. rewrite Hk, Hu. split; [done|].
  split; [apply edge_count_elem; simpl; set_solver|].
  split; apply node_count_elem; simpl.
  - apply touch_node_is_Some.
  - apply touch_node_mono, touch_node_is_Some.
Qed.

Lemma get_child_pages_app (pre post : list block) :
  get_child_pages (pre ++ post) = get_child_pages pre ++ get_child_pages post.
Proof.
  induction pre as [|b pre IH]; [done|].
  simpl. destruct (block_type b); simpl; by rewrite ?IH.
Qed.

(** C10. A [child_page] block is rendered in the flattened text as the
    markdown link [- [title](block['parent']['page_id'])], the id of the page
    that contains the block, while the child reference built from the same
    block carries [block['id']]; unless the two ids coincide, the rendered
    line is not the link to the id the traversal recurses into. *)
Theorem child_page_link_vs_ref (pre post : list block) (b : block)
    (title : string) :
  block_type b = child_page title →
  process_blocks (pre ++ b :: post)
  = join newline
      (map render_block pre
       ++ ("- [" +:+ title +:+ "](" +:+ block_parent_page_id b +:+ ")")
       :: map render_block post)
  ∧ get_child_pages (pre ++ b :: post)
    = get_child_pages pre ++ mkChild title (block_id b) :: get_child_pages post
  ∧ (block_id b ≠ block_parent_page_id b →
     ∀ ref, ref ∈ get_child_pages [b] →
       render_block b
       ≠ "- [" +:+ child_title ref +:+ "](" +:+ child_page_id ref +:+ ")").
Proof.
  intros Hb. split; [|split].
  - unfold process_blocks. rewrite map_app. simpl.
    unfold render_block at 2. by rewrite Hb.
  - rewrite get_child_pages_app. simpl. by rewrite Hb.
  - intros Hne ref Href. simpl in Href. rewrite Hb in Href.
    apply list_elem_of_singleton in Href as ->. simpl.
    unfold render_block. rewrite Hb. intros Heq.
    do 3 apply String.app_inj in Heq. apply append_inj_r in Heq. congruence.
Qed.

(** C3, as the code has it. A non-200 answer to the page request raises
    [Exception] whose message carries the status code (the body is printed,
    not carried by the exception); a non-200 answer to the block request is
    printed and replaced by an empty block list, so the page is returned
    with empty text and no child references. *)
Theorem fetch_failure_modes (notion : source) (pid : string) :
  (status_code (pages_endpoint notion pid) ≠ 200 →
     get_page_content notion pid
     = (error_report "Error Status Code: " "Full Error Response: "
          "Error Response Content: " (pages_endpoint notion pid),
        Raise (Exception ("Failed to retrieve page content. Status code: "
                 +:+ pretty (status_code (pages_endpoint notion pid))))))
  ∧ (∀ dump properties,
       status_code (pages_endpoint notion pid) = 200 →
       payload (pages_endpoint notion pid) = Json dump (Some properties) →
       status_code (blocks_endpoint notion pid) ≠ 200 →
       get_page_content notion pid
       = (error_report "Error fetching blocks. Status Code: "
            "Full Error Response for blocks: "
            "Error Response Content for blocks: " (blocks_endpoint notion pid),
          Ok (mkPage pid (read_properties properties ∅) "" []))).
Proof.
  split.
  - intros Hs. unfold get_page_content. by rewrite decide_False.
  - intros dump properties Hp Hpay Hb. unfold get_page_content, get_page_blocks.
    rewrite decide_True by done. rewrite Hpay. by rewrite decide_False.
Qed.

(** ** One visit: the store phase *)

(** Reduces the record plumbing of the state and nothing else. *)
Ltac state_simpl :=
  cbv beta iota zeta delta
    [emit set_counters set_processed_pages set_hash_store set_knowledge_graph
     store_call save_hash_store save_processed_pages save_knowledge_graph
     arrive leave
     root_page_id total_pages_found pages_processed processed_pages hash_store
     knowledge_graph vector_store store_calls hash_store_file
     processed_pages_file knowledge_graph_file trace].

Tactic Notation "state_simpl" "in" hyp(H) :=
  cbv beta iota zeta delta
    [emit set_counters set_processed_pages set_hash_store set_knowledge_graph
     store_call save_hash_store save_processed_pages save_knowledge_graph
     arrive leave
     root_page_id total_pages_found pages_processed processed_pages hash_store
     knowledge_graph vector_store store_calls hash_store_file
     processed_pages_file knowledge_graph_file trace] in H.

(** The same everywhere, once the state at hand is an explicit record. *)
Ltac state_simpl_all :=
  state_simpl;
  repeat match goal with H : _ |- _ => progress state_simpl in H end.

Lemma emit_all_trace (es : list event) (s : indexer) :
  emit_all es s
  = mkIndexer (root_page_id s) (total_pages_found s) (pages_processed s)
      (processed_pages s) (hash_store s) (knowledge_graph s) (vector_store s)
      (store_calls s) (hash_store_file s) (processed_pages_file s)
      (knowledge_graph_file s) (trace s ++ es).
Proof.
  revert s. induction es as [|e es IH]; intros s.
  - destruct s; simpl. by rewrite app_nil_r.
  - unfold emit_all; simpl. fold (emit_all es (emit e s)). rewrite IH.
    destruct s; simpl. by rewrite <- app_assoc.
Qed.

Section StorePhase.
Variable notion : source.
Variable md5 : string → string.
Variable split_text : string → list string.
Variable store_fails : nat → bool.

Lemma submit_chunks_spec (pid title : string) (chunks : list string)
    (s : indexer) :
  let oks := submission_results store_fails (store_calls s) chunks in
  submit_chunks store_fails pid title chunks s
  = (mkIndexer (root_page_id s) (total_pages_found s) (pages_processed s)
       (processed_pages s) (hash_store s) (knowledge_graph s)
       (vector_store s ++ stored pid title (zip chunks oks))
       (store_calls s + length chunks)%nat
       (hash_store_file s) (processed_pages_file s) (knowledge_graph_file s)
       (trace s ++ submit_events pid title (zip chunks oks)),
     oks).
Proof.
  revert s. induction chunks as [|c chunks IH]; intros s; cbv zeta.
  - destruct s; simpl. by rewrite !app_nil_r, Nat.add_0_r.
  - simpl. unfold submit_chunk.
    destruct (store_fails (store_calls (emit _ s))) eqn:Hf;
      rewrite IH; cbv zeta; destruct s; simpl in *; rewrite Hf; simpl;
      unfold stored; simpl.
    + rewrite <- !app_assoc. simpl. do 2 f_equal. lia.
    + rewrite <- !app_assoc. simpl. do 2 f_equal. lia.
Qed.

Lemma submission_results_length (n : nat) (chunks : list string) :
  length (submission_results store_fails n chunks) = length chunks.
Proof. revert n; induction chunks; intros n; simpl; [done|]. by rewrite IHchunks. Qed.

Lemma submission_results_lookup (n i : nat) (chunks : list string) :
  (i < length chunks)%nat →
  submission_results store_fails n chunks !! i
  = Some (negb (store_fails (n + i)%nat)).
Proof.
  revert n i; induction chunks as [|c chunks IH]; intros n i Hi; simpl in *.
  - lia.
  - destruct i as [|i]; simpl.
    + by rewrite Nat.add_0_r.
    + rewrite IH by lia. do 3 f_equal. lia.
Qed.

Lemma submissions_app (t1 t2 : list event) :
  submissions (t1 ++ t2) = submissions t1 ++ submissions t2.
Proof. apply omap_app. Qed.

Lemma submissions_submit_events (pid title : string) (l : list (string * bool)) :
  submissions (submit_events pid title l) = l.
Proof.
  induction l as [|[c ok] l IH]; [done|]. simpl.
  unfold submissions in *. simpl. by rewrite IH.
Qed.

Lemma submissions_result_events (pid : string) (oks : list bool) :
  submissions (result_events pid oks) = [].
Proof. induction oks as [|[] oks IH]; simpl; done. Qed.

Lemma submissions_delete_events (pid : string) (n : nat) :
  submissions (delete_events store_fails pid n) = [].
Proof. unfold delete_events. by destruct (store_fails n). Qed.

(** The state the indexing branch leaves when the text has chunks. *)
Lemma index_page_spec (pid title content current_hash : string)
    (s : indexer) :
  split_text content ≠ [] →
  let chunks := split_text content in
  let n := store_calls s in
  let oks := submission_results store_fails (S n) chunks in
  index_page split_text store_fails pid title content current_hash s
  = mkIndexer (root_page_id s) (total_pages_found s) (pages_processed s)
      ({[pid]} ∪ processed_pages s) (<[pid := current_hash]> (hash_store s))
      (knowledge_graph s)
      ((if store_fails n then vector_store s
        else filter (λ d, meta_page_id d.2 ≠ pid) (vector_store s))
       ++ stored pid title (zip chunks oks))
      (S n + length chunks)%nat
      (Some (<[pid := current_hash]> (hash_store s)))
      (Some ({[pid]} ∪ processed_pages s))
      (knowledge_graph_file s)
      (trace s
       ++ [ev_log (log_processing (pages_processed s + 1)
                     (total_pages_found s + 1) title)]
       ++ delete_events store_fails pid n
       ++ submit_events pid title (zip chunks oks)
       ++ result_events pid oks
       ++ [ev_log (log_completed pid);
           ev_save_hash_store (<[pid := current_hash]> (hash_store s));
           ev_save_processed_pages ({[pid]} ∪ processed_pages s)]).
Proof.
  intros Hne. cbv zeta. unfold index_page.
  destruct (split_text content) as [|c cs] eqn:Hsplit; [done|].
  destruct s as [r tf pp P H G V n hf pf gf t].
  unfold delete_page, delete_events. state_simpl.
  destruct (store_fails n) eqn:Hf; state_simpl;
    rewrite submit_chunks_spec; state_simpl; unfold collect_results;
    rewrite emit_all_trace; state_simpl;
    rewrite <- ?app_assoc; reflexivity.
Qed.

End StorePhase.

(** ** One visit: the three branches of [process_page] *)

Section Visit.
Variable notion : source.
Variable md5 : string → string.
Variable split_text : string → list string.
Variable store_fails : nat → bool.

Abbreviation visit_page := (visit_page md5 split_text store_fails).
Abbreviation index_page := (index_page split_text store_fails).

Lemma stale_or_absent (pid h : string) (s : indexer) :
  is_new_page pid s || is_page_modified pid h s
  = bool_decide (hash_store s !! pid ≠ Some h).
Proof.
  unfold is_new_page, is_page_modified.
  destruct (hash_store s !! pid) as [h'|] eqn:E.
  - by rewrite (bool_decide_eq_false_2 (Some h' = None)) by done.
  - rewrite (bool_decide_eq_true_2 (None = None)) by done.
    by rewrite bool_decide_eq_true_2.
Qed.

Lemma visit_page_processed pid parent page title s :
  title_of page = Ok title →
  pid ∈ processed_pages s →
  visit_page pid parent page s
  = Done (leave pid title parent
            (emit (ev_log (log_already_processed (pages_processed s + 1)
                     (total_pages_found (arrive page s) + 1) title))
               (arrive page s))).
Proof.
  intros Ht Hin. unfold visit_page. rewrite Ht.
  unfold is_already_processed. by rewrite bool_decide_eq_true_2.
Qed.

Lemma visit_page_unchanged pid parent page title s :
  title_of page = Ok title →
  pid ∉ processed_pages s →
  hash_store s !! pid = Some (md5 (full_content page)) →
  visit_page pid parent page s
  = Done (leave pid title parent
            (emit (ev_log (log_skipping (pages_processed s + 1)
                     (total_pages_found (arrive page s) + 1) title))
               (arrive page s))).
Proof.
  intros Ht Hin Hh. unfold visit_page. rewrite Ht.
  unfold is_already_processed. rewrite bool_decide_eq_false_2 by done.
  rewrite stale_or_absent. by rewrite bool_decide_eq_false_2 by (simpl; auto).
Qed.

Lemma visit_page_index pid parent page title s :
  title_of page = Ok title →
  pid ∉ processed_pages s →
  hash_store s !! pid ≠ Some (md5 (full_content page)) →
  visit_page pid parent page s
  = Done (leave pid title parent
            (index_page pid title (full_content page)
               (md5 (full_content page)) (arrive page s))).
Proof.
  intros Ht Hin Hh. unfold visit_page. rewrite Ht.
  unfold is_already_processed. rewrite bool_decide_eq_false_2 by done.
  rewrite stale_or_absent. by rewrite bool_decide_eq_true_2.
Qed.

End Visit.

Section VisitProperties.
Variable notion : source.
Variable md5 : string → string.
Variable split_text : string → list string.
Variable store_fails : nat → bool.

Abbreviation visit_page := (visit_page md5 split_text store_fails).
Abbreviation index_page := (index_page split_text store_fails).
Abbreviation process_page := (process_page notion md5 split_text store_fails).

Lemma index_page_empty pid title content h s :
  split_text content = [] →
  index_page pid title content h s
  = emit (ev_log (log_no_content pid))
      (emit (ev_log (log_processing (pages_processed s + 1)
                       (total_pages_found s + 1) title)) s).
Proof. intros He. unfold index_page. by rewrite He. Qed.

(** After a visit that returns, [process_page] goes on with the children. *)
Lemma process_page_continues depth pid parent s0 s page s1 :
  fetch notion pid s0 = (s, Ok page) →
  visit_page pid parent page s = Done s1 →
  process_page (S depth) pid parent s0
  = descend (process_page depth) pid page s1.
Proof. intros Hf Hv. simpl. by rewrite Hf, Hv. Qed.

Lemma store_events_app t1 t2 :
  store_events (t1 ++ t2) = store_events t1 ++ store_events t2.
Proof. apply filter_app. Qed.

(** C1, as the code has it. The decision reads ProcessedSet first. For an
    id in ProcessedSet the visit embeds nothing and leaves ContentHash as
    it was, whatever the fingerprints; for an id outside ProcessedSet the
    page is re-embedded and its entry set to the fresh fingerprint
    whenever the stored fingerprint is absent or differs (and the text has
    a chunk), and skipped when the fingerprints agree. *)
Theorem decision_reads_processed_set pid parent page title s :
  title_of page = Ok title →
  ∃ s', visit_page pid parent page s = Done s'
    ∧ (pid ∈ processed_pages s →
         hash_store s' = hash_store s
         ∧ vector_store s' = vector_store s
         ∧ store_calls s' = store_calls s
         ∧ store_events (trace s') = store_events (trace s))
    ∧ (pid ∉ processed_pages s →
       hash_store s !! pid ≠ Some (md5 (full_content page)) →
       split_text (full_content page) ≠ [] →
         hash_store s' !! pid = Some (md5 (full_content page))
         ∧ ∃ new, trace s' = trace s ++ new
             ∧ (submissions new).*1 = split_text (full_content page))
    ∧ (pid ∉ processed_pages s →
       hash_store s !! pid = Some (md5 (full_content page)) →
         hash_store s' = hash_store s
         ∧ vector_store s' = vector_store s
         ∧ store_events (trace s') = store_events (trace s)).
Proof.
  intros Ht.
  destruct (decide (pid ∈ processed_pages s)) as [Hin|Hout].
  { eexists. split; [by apply visit_page_processed|].
    split; [|split]; [|done..]. intros _.
    destruct s; state_simpl. rewrite store_events_app.
    repeat split; try done. apply app_nil_r. }
  destruct (decide (hash_store s !! pid = Some (md5 (full_content page))))
    as [Heq|Hne].
  { eexists. split; [by apply visit_page_unchanged|].
    split; [done|]. split; [done|]. intros _ _.
    destruct s; state_simpl. rewrite store_events_app.
    repeat split; try done. apply app_nil_r. }
  eexists. split; [by apply visit_page_index|].
  split; [done|]. split; [|done]. intros _ _ Hsplit.
  rewrite index_page_spec by done. destruct s; state_simpl. split.
  - by rewrite lookup_insert_eq.
  - eexists. split; [reflexivity|].
    rewrite !submissions_app, submissions_delete_events,
      submissions_submit_events, submissions_result_events.
    rewrite !app_nil_r. apply fst_zip.
    rewrite submission_results_length. lia.
Qed.

Lemma stored_tagged pid title (l : list (string * bool)) :
  filter (λ d : string * metadata, meta_page_id d.2 = pid) (stored pid title l)
  = stored pid title l.
Proof.
  unfold stored. induction (filter _ l) as [|x xs IH]; [done|].
  simpl. rewrite filter_cons_True by done. by rewrite IH.
Qed.

Lemma purged_untagged pid (docs : list (string * metadata)) :
  filter (λ d : string * metadata, meta_page_id d.2 = pid)
    (filter (λ d, meta_page_id d.2 ≠ pid) docs) = [].
Proof.
  induction docs as [|d docs IH]; [done|].
  rewrite (filter_cons (λ d, meta_page_id d.2 ≠ pid)).
  destruct (decide (meta_page_id d.2 ≠ pid)); [|done].
  by rewrite filter_cons_False.
Qed.

(** C4. When a page is indexed, every chunk is submitted whichever
    submissions fail: the submissions recorded are the chunks of the page
    in order, each with its own outcome, the successful ones are in the
    store, the visit returns normally so that [process_page] goes on with
    the children, and the ContentHash entry is the fresh fingerprint, in
    memory and on disk. *)
Theorem chunk_failures_are_isolated pid parent page title s :
  title_of page = Ok title →
  pid ∉ processed_pages s →
  hash_store s !! pid ≠ Some (md5 (full_content page)) →
  split_text (full_content page) ≠ [] →
  let chunks := split_text (full_content page) in
  let oks := submission_results store_fails (S (store_calls s)) chunks in
  ∃ s' new docs,
    visit_page pid parent page s = Done s'
    ∧ trace s' = trace s ++ new
    ∧ submissions new = zip chunks oks
    ∧ (submissions new).*1 = chunks
    ∧ (∀ i, (i < length chunks)%nat →
         oks !! i = Some (negb (store_fails (S (store_calls s) + i)%nat)))
    ∧ vector_store s' = docs ++ stored pid title (zip chunks oks)
    ∧ hash_store s' !! pid = Some (md5 (full_content page))
    ∧ hash_store_file s' = Some (hash_store s')
    ∧ ∀ depth s0, fetch notion pid s0 = (s, Ok page) →
        process_page (S depth) pid parent s0
        = descend (process_page depth) pid page s'.
Proof.
  intros Ht Hout Hne Hsplit chunks oks. subst chunks oks.
  destruct s as [r tf pp P H G V n hf pf gf t]. state_simpl_all.
  eexists _, _, _. split; [by apply visit_page_index|].
  rewrite index_page_spec by done. state_simpl.
  split; [reflexivity|].
  rewrite !submissions_app, submissions_delete_events,
    submissions_submit_events, submissions_result_events, !app_nil_r.
  split; [reflexivity|]. split.
  { apply fst_zip. rewrite submission_results_length. lia. }
  split; [intros i Hi; by apply submission_results_lookup|].
  split; [reflexivity|]. split; [by rewrite lookup_insert_eq|].
  split; [done|]. intros depth s0 Hf.
  eapply process_page_continues; [done|]. rewrite (visit_page_index _ _ _ _ _ _ title) by done.
  by rewrite index_page_spec.
Qed.

(** C6. A page that is new or modified and whose text splits into zero
    chunks: the visit returns normally and [process_page] goes on with the
    children; no call is made to the embedding store, ContentHash and its
    file are left as they were, and (the id not being in ProcessedSet) the
    only thing reported is the warning that there is no content. *)
Theorem empty_page_is_noop pid parent page title s :
  title_of page = Ok title →
  hash_store s !! pid ≠ Some (md5 (full_content page)) →
  split_text (full_content page) = [] →
  ∃ s', visit_page pid parent page s = Done s'
    ∧ vector_store s' = vector_store s
    ∧ store_calls s' = store_calls s
    ∧ store_events (trace s') = store_events (trace s)
    ∧ hash_store s' = hash_store s
    ∧ hash_store_file s' = hash_store_file s
    ∧ (pid ∉ processed_pages s →
         trace s'
         = trace s ++ [ev_log (log_processing (pages_processed s + 1)
                         (total_pages_found s
                          + Z.of_nat (length (child_pages page)) + 1) title);
                       ev_log (log_no_content pid)]
         ∧ level (log_no_content pid) = WARNING)
    ∧ ∀ depth s0, fetch notion pid s0 = (s, Ok page) →
        process_page (S depth) pid parent s0
        = descend (process_page depth) pid page s'.
Proof.
  intros Ht Hne Hsplit.
  destruct s as [r tf pp P H G V n hf pf gf t]. state_simpl_all.
  destruct (decide (pid ∈ P)) as [Hin|Hout].
  - eexists. split; [by apply visit_page_processed|]. state_simpl.
    rewrite store_events_app, app_nil_r.
    repeat (split; [done|]). intros depth s0 Hf.
    eapply process_page_continues; [done|]. by apply visit_page_processed.
  - eexists. split; [by apply visit_page_index|].
    rewrite index_page_empty by done. state_simpl.
    rewrite !store_events_app, !app_nil_r.
    repeat (split; [done|]). split.
    { intros _. by rewrite <- app_assoc. }
    intros depth s0 Hf.
    eapply process_page_continues; [done|]. rewrite (visit_page_index _ _ _ _ _ _ title) by done.
    by rewrite index_page_empty.
Qed.

(** C7. When a page is (re-)indexed, the first call made to the embedding
    store is the delete-by-metadata for its page id, and every chunk is
    submitted after it. When the deletion succeeds the vectors tagged with
    the id afterwards are exactly the newly stored ones; when it raises,
    the failure is logged as a warning and the chunks are submitted all
    the same. *)
Theorem delete_precedes_adds pid parent page title s :
  title_of page = Ok title →
  pid ∉ processed_pages s →
  hash_store s !! pid ≠ Some (md5 (full_content page)) →
  split_text (full_content page) ≠ [] →
  let chunks := split_text (full_content page) in
  let oks := submission_results store_fails (S (store_calls s)) chunks in
  let ok := negb (store_fails (store_calls s)) in
  ∃ s' before after,
    visit_page pid parent page s = Done s'
    ∧ trace s' = trace s ++ before ++ ev_delete pid ok :: after
    ∧ store_events before = []
    ∧ submissions after = zip chunks oks
    ∧ (submissions after).*1 = chunks
    ∧ (ok = true →
         filter (λ d, meta_page_id d.2 = pid) (vector_store s')
         = stored pid title (zip chunks oks))
    ∧ (ok = false →
         head after = Some (ev_log (log_delete_error pid))
         ∧ level (log_delete_error pid) = WARNING
         ∧ vector_store s'
           = vector_store s ++ stored pid title (zip chunks oks)).
Proof.
  intros Ht Hout Hne Hsplit chunks oks ok.
  assert (Hfst : (zip chunks oks).*1 = chunks).
  { apply fst_zip. unfold oks. rewrite submission_results_length. lia. }
  assert (Htail : ∀ pre m p,
            submissions pre = [] →
            submissions
              (pre ++ submit_events pid title (zip chunks oks)
               ++ result_events pid oks
               ++ [ev_log (log_completed pid); ev_save_hash_store m;
                   ev_save_processed_pages p])
            = zip chunks oks).
  { intros pre m p Hpre.
    rewrite !submissions_app, Hpre, submissions_submit_events,
      submissions_result_events. apply app_nil_r. }
  subst chunks oks ok.
  destruct s as [r tf pp P H G V n hf pf gf t]. state_simpl_all.
  destruct (store_fails n) eqn:Hfail.
  - eexists _, [_], ([_] ++ _). split; [by apply visit_page_index|].
    rewrite index_page_spec by done. state_simpl. unfold delete_events.
    rewrite Hfail. split; [reflexivity|]. split; [done|].
    split; [apply (Htail [_]); done|].
    split; [rewrite (Htail [_]); done|].
    split; [done|]. intros _. done.
  - eexists _, [_], ([] ++ _). split; [by apply visit_page_index|].
    rewrite index_page_spec by done. state_simpl. unfold delete_events.
    rewrite Hfail. split; [reflexivity|]. split; [done|].
    split; [apply (Htail []); done|].
    split; [rewrite (Htail []); done|].
    split; [|done]. intros _.
    rewrite filter_app, purged_untagged, stored_tagged. done.
Qed.

End VisitProperties.

(** ** The traversal *)

Section Traversal.
Variable notion : source.
Variable md5 : string → string.
Variable split_text : string → list string.
Variable store_fails : nat → bool.

Abbreviation visit_page := (visit_page md5 split_text store_fails).
Abbreviation index_page := (index_page split_text store_fails).
Abbreviation process_page := (process_page notion md5 split_text store_fails).
Abbreviation run := (run notion md5 split_text store_fails).

Lemma fetch_result pid s :
  fetch notion pid s
  = (emit_all (map ev_print (get_page_content notion pid).1)
       (emit (ev_fetch pid) s),
     (get_page_content notion pid).2).
Proof. unfold fetch. by destruct (get_page_content notion pid). Qed.

(** The branch a visit takes. *)
Lemma visit_page_cases pid parent page s :
  (∃ e, title_of page = Raise e
        ∧ visit_page pid parent page s = Failed e (arrive page s))
  ∨ (∃ title es,
        title_of page = Ok title
        ∧ settled md5 split_text s pid page
        ∧ store_events es = []
        ∧ fetches es = []
        ∧ visit_page pid parent page s
          = Done (leave pid title parent (emit_all es (arrive page s))))
  ∨ (∃ title,
        title_of page = Ok title
        ∧ (pid ∉ processed_pages s)
        ∧ (hash_store s !! pid ≠ Some (md5 (full_content page)))
        ∧ (split_text (full_content page) ≠ [])
        ∧ visit_page pid parent page s
          = Done (leave pid title parent
                    (index_page pid title (full_content page)
                       (md5 (full_content page)) (arrive page s)))).
Proof.
  destruct (title_of page) as [title|e] eqn:Ht.
  2:{ left. exists e. split; [done|]. unfold visit_page. by rewrite Ht. }
  right.
  destruct (decide (pid ∈ processed_pages s)) as [Hin|Hout].
  { left. eexists title, [_]. split; [done|]. split; [by left|].
    split; [|split]; [| |by apply visit_page_processed]; done. }
  destruct (decide (hash_store s !! pid = Some (md5 (full_content page))))
    as [Heq|Hne].
  { left. eexists title, [_]. split; [done|]. split; [by right; right|].
    split; [|split]; [| |by apply visit_page_unchanged]; done. }
  destruct (split_text (full_content page)) as [|c cs] eqn:Hs.
  { left. eexists title, [_; _]. split; [done|]. split; [by right; left|].
    split; [|split];
      [| |rewrite (visit_page_index _ _ _ _ _ _ title) by done;
          rewrite index_page_empty by done; reflexivity]; done. }
  right. exists title. repeat (split; [done|]).
  by apply visit_page_index.
Qed.

Lemma for_each_preserves {A} (R : relation indexer)
    (body : A → indexer → outcome) (xs : list A) :
  Reflexive R → Transitive R →
  (∀ x s s', x ∈ xs → final_state (body x s) = Some s' → R s s') →
  ∀ s s', final_state (for_each body xs s) = Some s' → R s s'.
Proof.
  intros Hrefl Htrans. induction xs as [|x xs IH]; intros Hbody s s' Hfin.
  - simpl in Hfin. by injection Hfin as <-.
  - simpl in Hfin. destruct (body x s) as [s1|e s1|] eqn:Hx.
    + etrans.
      * apply (Hbody x s s1); [left|]. by rewrite Hx.
      * apply IH; [|done]. intros y t t' Hy. apply Hbody. by right.
    + apply (Hbody x s s'); [left|]. by rewrite Hx.
    + done.
Qed.

Lemma emit_all_preserves (R : relation indexer) (es : list event) s :
  Reflexive R → Transitive R → (∀ e s, R s (emit e s)) → R s (emit_all es s).
Proof.
  intros Hrefl Htrans Hemit. revert s.
  induction es as [|e es IH]; intros s; [done|].
  change (emit_all (e :: es) s) with (emit_all es (emit e s)).
  etrans; [apply Hemit|apply IH].
Qed.

(** A relation kept by every emission and every visit is kept by the whole
    traversal, whether it returns or raises. *)
Lemma process_page_preserves (R : relation indexer) :
  Reflexive R → Transitive R →
  (∀ e s, R s (emit e s)) →
  (∀ pid parent page s s',
     final_state (visit_page pid parent page s) = Some s' → R s s') →
  ∀ depth pid parent s s',
    final_state (process_page depth pid parent s) = Some s' → R s s'.
Proof.
  intros Hrefl Htrans Hemit Hvisit.
  induction depth as [|depth IH]; intros pid parent s s' Hfin; [done|].
  simpl in Hfin. rewrite fetch_result in Hfin.
  set (s1 := emit_all _ _) in Hfin.
  assert (H1 : R s s1).
  { unfold s1. etrans; [apply (Hemit (ev_fetch pid))|].
    by apply emit_all_preserves. }
  destruct (get_page_content notion pid).2 as [page|e].
  2:{ simpl in Hfin. by injection Hfin as <-. }
  destruct (visit_page pid parent page s1) as [s2|e s2|] eqn:Hv.
  - assert (H2 : R s1 s2) by (apply (Hvisit pid parent page); by rewrite Hv).
    unfold descend in Hfin. destruct (child_pages page) as [|c cs].
    + simpl in Hfin. injection Hfin as <-. by etrans.
    + etrans; [exact H1|]. etrans; [exact H2|]. etrans; [apply Hemit|].
      eapply (for_each_preserves R); [done..| |exact Hfin].
      intros x t t' _. apply IH.
  - simpl in Hfin. injection Hfin as <-. etrans; [exact H1|].
    apply (Hvisit pid parent page). by rewrite Hv.
  - done.
Qed.

Lemma fetches_app (t1 t2 : list event) :
  fetches (t1 ++ t2) = fetches t1 ++ fetches t2.
Proof. apply omap_app. Qed.

Lemma fetches_submit_events (pid title : string) (l : list (string * bool)) :
  fetches (submit_events pid title l) = [].
Proof. induction l as [|[c ok] l IH]; [done|]. exact IH. Qed.

Lemma fetches_result_events (pid : string) (oks : list bool) :
  fetches (result_events pid oks) = [].
Proof. induction oks as [|[] oks IH]; simpl; done. Qed.

Lemma fetches_delete_events (pid : string) (n : nat) :
  fetches (delete_events store_fails pid n) = [].
Proof. unfold delete_events. by destruct (store_fails n). Qed.

Lemma descend_preserves (R : relation indexer) :
  Reflexive R → Transitive R →
  (∀ e s, R s (emit e s)) →
  (∀ pid parent page s s',
     final_state (visit_page pid parent page s) = Some s' → R s s') →
  ∀ depth pid page s s',
    final_state (descend (process_page depth) pid page s) = Some s' → R s s'.
Proof.
  intros Hrefl Htrans Hemit Hvisit depth pid page s s' Hfin.
  unfold descend in Hfin. destruct (child_pages page) as [|c cs].
  - simpl in Hfin. by injection Hfin as <-.
  - etrans; [apply Hemit|].
    eapply (for_each_preserves R); [done..| |exact Hfin].
    intros x t t' _. by apply process_page_preserves.
Qed.

Lemma durable_step_refl : Reflexive durable_step.
Proof. intros s. unfold durable_step. done. Qed.

Lemma durable_step_trans : Transitive durable_step.
Proof.
  intros s1 s2 s3 (Ha & Hb & Hc & Hd) (Ha' & Hb' & Hc' & Hd').
  unfold durable_step. split; [auto|]. split; [set_solver|].
  split; [set_solver|]. by etrans.
Qed.

Lemma durable_step_emit e s : durable_step s (emit e s).
Proof.
  unfold durable_step, persisted. simpl.
  split; [done|]. split; [done|]. split; [done|]. by apply prefix_app_r.
Qed.

Lemma durable_step_visit pid parent page s s' :
  final_state (visit_page pid parent page s) = Some s' → durable_step s s'.
Proof.
  intros Hfin.
  destruct (visit_page_cases pid parent page s)
    as [(e & Ht & Hv)|[(title & es & Ht & _ & _ & _ & Hv)|(title & Ht & Hout & Hne & Hs & Hv)]];
    rewrite Hv in Hfin; simpl in Hfin; injection Hfin as <-.
  - unfold durable_step, persisted. simpl. done.
  - rewrite emit_all_trace. unfold durable_step, persisted. simpl.
    split; [done|]. split; [done|]. split; [done|]. by apply prefix_app_r.
  - rewrite index_page_spec by done. unfold durable_step, persisted. simpl.
    split; [done|]. split; [set_solver|]. split.
    + rewrite dom_insert_L. set_solver.
    + by apply prefix_app_r.
Qed.

(** C5. When the visit of a node N updates ContentHash or ProcessedSet, both
    are on disk when the visit hands over to the children: the files hold
    exactly the maps in memory, N's entries included, and the two save
    events close the trace of the visit, before any further fetch. They are
    still there in whatever state the traversal of N's subtree ends, which
    is the state the next sibling is visited from. *)
Theorem persisted_before_children_and_siblings depth pid parent s0 s page s1 :
  fetch notion pid s0 = (s, Ok page) →
  visit_page pid parent page s = Done s1 →
  hash_store s1 ≠ hash_store s ∨ processed_pages s1 ≠ processed_pages s →
  persisted s1
  ∧ hash_store s1 !! pid = Some (md5 (full_content page))
  ∧ pid ∈ processed_pages s1
  ∧ (∃ before,
       trace s1 = trace s ++ before
                  ++ [ev_save_hash_store (hash_store s1);
                      ev_save_processed_pages (processed_pages s1)]
       ∧ fetches before = [])
  ∧ process_page (S depth) pid parent s0
    = descend (process_page depth) pid page s1
  ∧ ∀ s2, final_state (process_page (S depth) pid parent s0) = Some s2 →
      persisted s2
      ∧ pid ∈ processed_pages s2
      ∧ is_Some (hash_store s2 !! pid)
      ∧ trace s1 `prefix_of` trace s2.
Proof.
  intros Hf Hv Hchg.
  assert (Hcont := process_page_continues notion md5 split_text store_fails
                     depth pid parent s0 s page s1 Hf Hv).
  destruct (visit_page_cases pid parent page s)
    as [(e & Ht & Hv')|[(title & es & Ht & _ & _ & _ & Hv')|(title & Ht & Hout & Hne & Hs & Hv')]];
    rewrite Hv' in Hv; try done; injection Hv as <-.
  { exfalso. rewrite emit_all_trace in Hchg. simpl in Hchg. by destruct Hchg. }
  rewrite index_page_spec in * by done. simpl in *.
  assert (Hp : persisted
    (leave pid title parent
       (index_page pid title (full_content page) (md5 (full_content page))
          (arrive page s)))).
  { rewrite index_page_spec by done. by unfold persisted. }
  rewrite index_page_spec in Hp by done.
  split; [exact Hp|]. split; [by rewrite lookup_insert_eq|].
  split; [by apply elem_of_union_l, elem_of_singleton|]. split.
  { exists ([ev_log (log_processing (pages_processed s + 1)
                       (total_pages_found s
                        + Z.of_nat (length (child_pages page)) + 1) title)]
            ++ delete_events store_fails pid (store_calls s)
            ++ submit_events pid title
                 (zip (split_text (full_content page))
                    (submission_results store_fails (S (store_calls s))
                       (split_text (full_content page))))
            ++ result_events pid
                 (submission_results store_fails (S (store_calls s))
                    (split_text (full_content page)))
            ++ [ev_log (log_completed pid)]).
    split.
    - rewrite <- !app_assoc. reflexivity.
    - rewrite !fetches_app, fetches_delete_events, fetches_submit_events,
        fetches_result_events. done. }
  split; [exact Hcont|]. intros s2 Hfin. rewrite Hcont in Hfin.
  apply (descend_preserves durable_step durable_step_refl durable_step_trans
           durable_step_emit durable_step_visit) in Hfin
    as (Ha & Hb & Hc & Hd).
  simpl in *. split; [by apply Ha|].
  split; [by apply Hb, elem_of_union_l, elem_of_singleton|]. split; [|done].
  apply elem_of_dom. apply Hc. rewrite dom_insert_L.
  by apply elem_of_union_l, elem_of_singleton.
Qed.

Lemma fetches_log (r : log_record) : fetches [ev_log r] = [].
Proof. reflexivity. Qed.

Lemma fetches_saves (r : log_record) (m : gmap string string) (p : gset string) :
  fetches [ev_log r; ev_save_hash_store m; ev_save_processed_pages p] = [].
Proof. reflexivity. Qed.

Lemma visit_page_fetches pid parent page s s' :
  visit_page pid parent page s = Done s' →
  fetches (trace s') = fetches (trace s).
Proof.
  intros Hv.
  destruct (visit_page_cases pid parent page s)
    as [(e & Ht & Hv')|[(title & es & Ht & _ & _ & Hes & Hv')|(title & Ht & Hout & Hne & Hs & Hv')]];
    rewrite Hv' in Hv; try done; injection Hv as <-.
  - rewrite emit_all_trace. destruct s; state_simpl.
    rewrite fetches_app, Hes. apply app_nil_r.
  - rewrite index_page_spec by done. destruct s; state_simpl.
    rewrite !fetches_app, fetches_delete_events, fetches_submit_events,
      fetches_result_events, fetches_log, fetches_saves.
    by rewrite !app_nil_r.
Qed.

Lemma visit_page_returns pid parent page title s :
  title_of page = Ok title → ∃ s', visit_page pid parent page s = Done s'.
Proof.
  intros Ht.
  destruct (visit_page_cases pid parent page s)
    as [(e & Ht' & _)|[(? & ? & _ & _ & _ & _ & Hv)|(? & _ & _ & _ & _ & Hv)]];
    [congruence|eauto..].
Qed.

Lemma fetches_emit_all_print (out : list string) (pid : string) (s : indexer) :
  fetches (trace (emit_all (map ev_print out) (emit (ev_fetch pid) s)))
  = fetches (trace s) ++ [pid].
Proof.
  rewrite emit_all_trace. simpl. rewrite !fetches_app. simpl.
  assert (H : fetches (map ev_print out) = []) by (induction out; done).
  rewrite H. by rewrite app_nil_r.
Qed.

(** The traversal of a corpus that unfolds into a tree: it returns, and the
    pages it fetches are the nodes of the tree in preorder. *)
Lemma process_page_tree (depth : nat) :
  ∀ t parent s,
    unfolds notion t → (height t ≤ depth)%nat →
    ∃ s', process_page depth (root t) parent s = Done s'
          ∧ fetches (trace s') = fetches (trace s) ++ preorder t.
Proof.
  induction depth as [|depth IH]; intros t parent s Hu Hh.
  { destruct t; simpl in Hh; lia. }
  inversion Hu as [i ks page title Hget Htitle Hkids Hall]; subst t.
  simpl root. simpl process_page. rewrite fetch_result, Hget.
  destruct (visit_page_returns i parent page title
              (emit_all (map ev_print (get_page_content notion i).1)
                 (emit (ev_fetch i) s)) Htitle) as [s1 Hv].
  rewrite Hv. apply visit_page_fetches in Hv.
  rewrite fetches_emit_all_print in Hv.
  assert (Hloop : ∀ ks cs s2,
            child_page_id <$> cs = root <$> ks →
            Forall (unfolds notion) ks →
            Forall (λ k, (height k ≤ depth)%nat) ks →
            ∃ s', for_each
                    (λ child, process_page depth (child_page_id child) (Some i))
                    cs s2 = Done s'
                  ∧ fetches (trace s')
                    = fetches (trace s2) ++ flat_map preorder ks).
  { clear -IH. induction ks as [|k ks IHks]; intros cs s2 Hcs Hall Hhs.
    - destruct cs; [|done]. exists s2. simpl. by rewrite app_nil_r.
    - destruct cs as [|c cs]; [done|]. simpl in Hcs.
      injection Hcs as Hc Hcs.
      apply Forall_cons in Hall as [Hk Hall].
      apply Forall_cons in Hhs as [Hhk Hhs].
      destruct (IH k (Some i) s2 Hk Hhk) as (s3 & Hrun & Hf).
      destruct (IHks cs s3 Hcs Hall Hhs) as (s4 & Hrest & Hf').
      exists s4. simpl. rewrite Hc, Hrun. split; [done|].
      by rewrite Hf', Hf, <- app_assoc. }
  assert (Hhs : Forall (λ k, (height k ≤ depth)%nat) ks).
  { simpl in Hh. apply Nat.succ_le_mono in Hh. clear -Hh.
    induction ks as [|k ks IHks]; [done|]. simpl in Hh.
    apply Forall_cons. split; [lia|]. apply IHks. lia. }
  unfold descend. destruct (child_pages page) as [|c cs] eqn:Hcp.
  - destruct ks; [|done]. exists s1. split; [done|]. by rewrite Hv.
  - destruct (Hloop ks (c :: cs)
                (emit (ev_log (log_found_children
                   (Z.of_nat (length (c :: cs)))
                   match title_of page with Ok t => t | Raise _ => "" end)) s1)
                Hkids Hall Hhs) as (s' & Hrun & Hf).
    exists s'. split; [exact Hrun|]. rewrite Hf. simpl trace.
    rewrite fetches_app, Hv. simpl. rewrite app_nil_r.
    by rewrite <- app_assoc.
Qed.

(** C2, as the code has it. [process_page] keeps no record of the ids it
    has entered during a run: it is invoked once per child reference. When
    the references followed from the root unfold into a finite tree in
    which every page is fetched without error and has a usable title (its
    title lookup does not raise), and the tree is no deeper than the
    recursion depth available, one call of [run] returns and fetches the
    nodes of that tree in preorder; when moreover no id occurs twice in the
    tree, every reachable node is visited exactly once. *)
Theorem tree_corpus_visited_once (t : tree) (s : indexer) (depth : nat) :
  unfolds notion t →
  root_page_id s = root t →
  (height t ≤ depth)%nat →
  ∃ s' visited,
    run depth s = Done s'
    ∧ fetches (trace s') = fetches (trace s) ++ visited
    ∧ visited = preorder t
    ∧ (NoDup (preorder t) →
       ∀ pid, pid ∈ preorder t →
         length (filter (λ x, x = pid) visited) = 1%nat).
Proof.
  intros Hu Hroot Hh. unfold run.
  set (s0 := set_counters 1 0 (load_processed_pages (emit (ev_log log_start) s))).
  assert (Hr : root_page_id s0 = root t).
  { unfold s0, load_processed_pages. simpl.
    destruct (processed_pages_file s); simpl; done. }
  assert (Ht : fetches (trace s0) = fetches (trace s)).
  { unfold s0, load_processed_pages. simpl.
    destruct (processed_pages_file s); simpl;
      rewrite fetches_app; simpl; apply app_nil_r. }
  destruct (process_page_tree depth t None s0 Hu Hh) as (s1 & Hrun & Hf).
  rewrite Hr, Hrun. eexists _, (preorder t). split; [reflexivity|].
  split.
  { simpl. rewrite !fetches_app. simpl. rewrite !app_nil_r. by rewrite Hf, Ht. }
  split; [done|]. intros Hnd pid Hin.
  apply (count_key id pid); by rewrite list_fmap_id.
Qed.

(** *** Replaying a traversal on a state that has absorbed it *)

Lemma graph_eta (g : DiGraph) : mkGraph (nodes g) (edges g) = g.
Proof. by destruct g. Qed.

Lemma update_graph_nodes pid title parent g x a :
  nodes g !! x = Some a →
  (x = pid → a = Some title) →
  nodes (update_graph pid title parent g) !! x = Some a.
Proof.
  intros Hx Hsame.
  assert (Hn : nodes (add_node pid title g) !! x = Some a).
  { simpl. destruct (decide (pid = x)) as [->|Hne].
    - rewrite lookup_insert_eq. by rewrite Hsame.
    - by rewrite lookup_insert_ne. }
  unfold update_graph. destruct parent as [p|]; [|done].
  destruct (truthy (Some p)); [|done]. simpl.
  rewrite !touch_node_lookup; try done; rewrite ?touch_node_lookup;
    simpl in Hn; rewrite ?Hn; eauto.
Qed.

Lemma update_graph_edges pid title parent g :
  edges g ⊆ edges (update_graph pid title parent g).
Proof.
  unfold update_graph. destruct parent as [p|]; [|done].
  destruct (truthy (Some p)); [|done]. simpl. apply union_subseteq_r.
Qed.

Lemma graph_has_update pid title parent g :
  graph_has (update_graph pid title parent g) pid title parent.
Proof.
  unfold graph_has, update_graph.
  assert (Hn : nodes (add_node pid title g) !! pid = Some (Some title))
    by (simpl; apply lookup_insert_eq).
  destruct parent as [p|]; [|done].
  destruct (truthy (Some p)) eqn:Htr; [|split; [done|by intros]].
  split.
  - simpl. rewrite touch_node_lookup; [rewrite touch_node_lookup|];
      simpl in Hn; rewrite ?Hn; eauto.
    rewrite touch_node_lookup; rewrite Hn; eauto.
  - intros _. simpl. split.
    + apply touch_node_mono, touch_node_is_Some.
    + apply elem_of_union_l. by apply elem_of_singleton.
Qed.

Lemma graph_has_fixed pid title parent g :
  graph_has g pid title parent → update_graph pid title parent g = g.
Proof.
  intros [Hn Hp]. unfold update_graph.
  assert (Ha : add_node pid title g = g).
  { unfold add_node. rewrite insert_id by done. apply graph_eta. }
  rewrite Ha. destruct parent as [p|]; [|done].
  destruct (truthy (Some p)); [|done]. destruct (Hp eq_refl) as [Hsome He].
  unfold add_edge. rewrite (touch_node_id p) by done.
  rewrite touch_node_id by (rewrite Hn; eauto).
  rewrite (subseteq_union_1_L {[(p, pid)]} (edges g)).
  - apply graph_eta.
  - by apply singleton_subseteq_l.
Qed.

Lemma graph_has_mono pid title parent pid' title' parent' g :
  graph_has g pid title parent →
  (pid = pid' → title = title') →
  graph_has (update_graph pid' title' parent' g) pid title parent.
Proof.
  intros [Hn Hp] Hsame. split.
  - apply update_graph_nodes; [done|]. intros Heq. by rewrite (Hsame Heq).
  - destruct parent as [p|]; [|done]. intros Htr.
    destruct (Hp Htr) as [[a Ha] He]. split.
    + destruct (decide (p = pid')) as [->|Hne].
      * destruct (decide (a = Some title')) as [->|Hne'].
        { erewrite update_graph_nodes; eauto. }
        unfold update_graph.
        assert (Hn' : is_Some (nodes (add_node pid' title' g) !! pid'))
          by (simpl; rewrite lookup_insert_eq; eauto).
        destruct parent' as [q|]; [|done].
        destruct (truthy (Some q)); [|done]. simpl.
        by do 2 apply touch_node_mono.
      * erewrite update_graph_nodes; eauto. done.
    + by apply update_graph_edges.
Qed.

Lemma quiet_refl s : quiet s s.
Proof. unfold quiet. done. Qed.

Lemma quiet_trans s1 s2 s3 : quiet s1 s2 → quiet s2 s3 → quiet s1 s3.
Proof.
  unfold quiet.
  intros (?&?&?&?&?&?&?&?&?&?) (?&?&?&?&?&?&?&?&?&?).
  repeat split; congruence.
Qed.

Lemma quiet_emit e s : is_store_event e = false → quiet s (emit e s).
Proof.
  intros He. unfold quiet. simpl. repeat (split; [done|]).
  rewrite store_events_app. unfold store_events at 2. simpl.
  rewrite filter_cons_False by (rewrite He; done). apply app_nil_r.
Qed.

Lemma quiet_emit_all es s : store_events es = [] → quiet s (emit_all es s).
Proof.
  intros He. rewrite emit_all_trace. unfold quiet. simpl.
  repeat (split; [done|]). rewrite store_events_app, He. apply app_nil_r.
Qed.

Lemma quiet_fetch pid s : quiet s (fetch notion pid s).1.
Proof.
  rewrite fetch_result. simpl. eapply quiet_trans.
  - by apply (quiet_emit (ev_fetch pid)).
  - apply quiet_emit_all.
    induction (get_page_content notion pid).1; done.
Qed.

Lemma absorbed_quiet s t pid parent :
  hash_store t = hash_store s →
  processed_pages t = processed_pages s →
  knowledge_graph t = knowledge_graph s →
  absorbed notion md5 split_text s pid parent →
  absorbed notion md5 split_text t pid parent.
Proof.
  intros Hh Hp Hg Ha page title Hget Ht.
  destruct (Ha page title Hget Ht) as [Hs Hgr].
  unfold settled in *. by rewrite Hh, Hp, Hg.
Qed.

Lemma quiet_covers s t : quiet s t → covers notion md5 split_text s t.
Proof.
  intros (Hh & Hp & Hg & _) pid parent. by apply absorbed_quiet.
Qed.

Lemma quiet_covers_inv s t : quiet s t → covers notion md5 split_text t s.
Proof.
  intros (Hh & Hp & Hg & _) pid parent. by apply absorbed_quiet.
Qed.

Lemma covers_trans s1 s2 s3 :
  covers notion md5 split_text s1 s2 →
  covers notion md5 split_text s2 s3 →
  covers notion md5 split_text s1 s3.
Proof. unfold covers. eauto. Qed.
(** A completed visit is absorbed by the state it leaves. *)
Lemma visit_page_absorbs pid parent page s s' :
  (get_page_content notion pid).2 = Ok page →
  visit_page pid parent page s = Done s' →
  absorbed notion md5 split_text s' pid parent.
Proof.
  intros Hget Hv page' title' Hget' Ht'.
  assert (page' = page) as -> by congruence.
  destruct (visit_page_cases pid parent page s)
    as [(e & Ht & Hv')|[(title & es & Ht & Hset & _ & _ & Hv')|(title & Ht & Hout & Hne & Hs & Hv')]];
    rewrite Hv' in Hv; try done; injection Hv as <-;
    assert (title' = title) as -> by congruence.
  - rewrite emit_all_trace. split; [exact Hset|]. simpl. apply graph_has_update.
  - rewrite index_page_spec by done. split.
    + left. simpl. set_solver.
    + simpl. apply graph_has_update.
Qed.

(** Whatever was absorbed before a visit still is after it. *)
Lemma visit_page_covers pid parent page s s' :
  (get_page_content notion pid).2 = Ok page →
  visit_page pid parent page s = Done s' →
  covers notion md5 split_text s s'.
Proof.
  intros Hget Hv pid0 parent0 Ha page0 title0 Hget0 Ht0.
  destruct (Ha page0 title0 Hget0 Ht0) as [Hs0 Hg0].
  assert (Hsame : ∀ title, title_of page = Ok title → pid0 = pid → title0 = title).
  { intros title Ht ->. congruence. }
  destruct (visit_page_cases pid parent page s)
    as [(e & Ht & Hv')|[(title & es & Ht & Hset & _ & _ & Hv')|(title & Ht & Hout & Hne & Hs & Hv')]];
    rewrite Hv' in Hv; try done; injection Hv as <-.
  - rewrite emit_all_trace. split; [exact Hs0|]. simpl.
    apply graph_has_mono; [done|]. by apply Hsame.
  - rewrite index_page_spec by done. split.
    + unfold settled in *. simpl.
      destruct Hs0 as [Hin|[Hemp|Hh]]; [left; set_solver|by right; left|].
      destruct (decide (pid0 = pid)) as [->|Hneq]; [left; set_solver|].
      right; right. by rewrite lookup_insert_ne.
    + simpl. apply graph_has_mono; [done|]. by apply Hsame.
Qed.

(** Visiting a page that the state has absorbed changes neither the stores
    nor the graph. *)
Lemma visit_page_quiet pid parent page title t :
  (get_page_content notion pid).2 = Ok page →
  title_of page = Ok title →
  absorbed notion md5 split_text t pid parent →
  ∃ t', visit_page pid parent page t = Done t' ∧ quiet t t'.
Proof.
  intros Hget Ht Ha. destruct (Ha page title Hget Ht) as [Hset Hg].
  destruct (visit_page_cases pid parent page t)
    as [(e & Ht' & Hv')|[(title' & es & Ht' & _ & Hes & _ & Hv')|(title' & Ht' & Hout & Hne & Hs & Hv')]].
  - congruence.
  - assert (title' = title) as -> by congruence.
    eexists. split; [exact Hv'|]. rewrite emit_all_trace.
    unfold quiet. simpl. rewrite graph_has_fixed by done.
    repeat (split; [done|]). rewrite store_events_app, Hes. apply app_nil_r.
  - exfalso. destruct Hset as [?|[?|?]]; done.
Qed.

Lemma visit_page_title pid parent page s s' :
  visit_page pid parent page s = Done s' → ∃ title, title_of page = Ok title.
Proof.
  intros Hv. destruct (title_of page) as [title|e] eqn:Ht; [eauto|].
  unfold visit_page in Hv. by rewrite Ht in Hv.
Qed.

(** A traversal that returned can be replayed from any state that has
    absorbed its result: the replay returns too, and is quiet. *)
Lemma process_page_replay (depth : nat) :
  ∀ pid parent s s',
    process_page depth pid parent s = Done s' →
    covers notion md5 split_text s s'
    ∧ ∀ t, covers notion md5 split_text s' t →
        ∃ t', process_page depth pid parent t = Done t' ∧ quiet t t'.
Proof.
  induction depth as [|depth IH]; intros pid parent s s' Hrun; [done|].
  simpl in Hrun. rewrite fetch_result in Hrun.
  set (sf := emit_all _ _) in Hrun.
  assert (Hqf : quiet s sf).
  { pose proof (quiet_fetch pid s) as H. by rewrite fetch_result in H. }
  destruct (get_page_content notion pid).2 as [page|e] eqn:Hget; [|done].
  destruct (visit_page pid parent page sf) as [sv|e sv|] eqn:Hv; [|done..].
  destruct (visit_page_title _ _ _ _ _ Hv) as [title Ht].
  pose proof (visit_page_absorbs _ _ _ _ _ Hget Hv) as Habs.
  pose proof (visit_page_covers _ _ _ _ _ Hget Hv) as Hcov.
  assert (Hloop : ∀ cs u u',
            for_each (λ child, process_page depth (child_page_id child) (Some pid))
              cs u = Done u' →
            covers notion md5 split_text u u'
            ∧ ∀ t, covers notion md5 split_text u' t →
                ∃ t', for_each
                        (λ child, process_page depth (child_page_id child) (Some pid))
                        cs t = Done t'
                      ∧ quiet t t').
  { clear -IH. induction cs as [|c cs IHcs]; intros u u' Hfe.
    - simpl in Hfe. injection Hfe as <-. split; [by intros ??|].
      intros t _. exists t. split; [done|apply quiet_refl].
    - simpl in Hfe.
      destruct (process_page depth (child_page_id c) (Some pid) u)
        as [u1|e u1|] eqn:Hc; [|done..].
      destruct (IH _ _ _ _ Hc) as [Hcov1 Hrep1].
      destruct (IHcs _ _ Hfe) as [Hcov2 Hrep2].
      split; [by eapply covers_trans|].
      intros t Ht. destruct (Hrep1 t) as (t1 & Hrun1 & Hq1).
      { by eapply covers_trans. }
      destruct (Hrep2 t1) as (t2 & Hrun2 & Hq2).
      { eapply covers_trans; [exact Ht|]. by apply quiet_covers. }
      exists t2. simpl. rewrite Hrun1. split; [done|]. by eapply quiet_trans. }
  assert (Hdesc : covers notion md5 split_text sv s'
            ∧ ∀ t, covers notion md5 split_text s' t →
                ∃ t', descend (process_page depth) pid page t = Done t'
                      ∧ quiet t t').
  { unfold descend in *. destruct (child_pages page) as [|c cs].
    - injection Hrun as <-. split; [by intros ??|].
      intros t _. exists t. split; [done|apply quiet_refl].
    - destruct (Hloop _ _ _ Hrun) as [Hc Hrep]. split.
      + eapply covers_trans; [|exact Hc]. by apply quiet_covers, quiet_emit.
      + intros t Hcov'.
        destruct (Hrep (emit (ev_log (log_found_children
                     (Z.of_nat (length (c :: cs)))
                     match title_of page with Ok t0 => t0 | Raise _ => "" end)) t))
          as (t' & Hrun' & Hq').
        { eapply covers_trans; [exact Hcov'|]. by apply quiet_covers, quiet_emit. }
        exists t'. split; [exact Hrun'|].
        eapply quiet_trans; [|exact Hq']. by apply quiet_emit. }
  destruct Hdesc as [Hcd Hrepd]. split.
  { eapply covers_trans; [by apply quiet_covers|]. by eapply covers_trans. }
  intros t Hcov'. simpl. rewrite fetch_result, Hget.
  set (tf := emit_all _ _).
  assert (Hqt : quiet t tf).
  { pose proof (quiet_fetch pid t) as H. by rewrite fetch_result in H. }
  destruct (visit_page_quiet pid parent page title tf Hget Ht) as (tv & Hvt & Hqv).
  { apply (quiet_covers _ _ Hqt). apply Hcov'. by apply Hcd. }
  rewrite Hvt. destruct (Hrepd tv) as (t' & Hrun' & Hq').
  { eapply covers_trans; [exact Hcov'|]. apply quiet_covers.
    by eapply quiet_trans. }
  exists t'. split; [exact Hrun'|].
  eapply quiet_trans; [exact Hqt|]. by eapply quiet_trans.
Qed.

(** The root id never changes, and the file of ProcessedSet stays in sync. *)
Lemma process_page_sync depth pid parent s s' :
  final_state (process_page depth pid parent s) = Some s' →
  root_page_id s' = root_page_id s
  ∧ (processed_in_sync s → processed_in_sync s').
Proof.
  apply (process_page_preserves
           (λ s s', root_page_id s' = root_page_id s
                    ∧ (processed_in_sync s → processed_in_sync s'))).
  - by intros ?.
  - intros s1 s2 s3 [? ?] [? ?]. split; [congruence|auto].
  - intros e [] . by state_simpl.
  - clear. intros pid parent page s s' Hfin.
    destruct (visit_page_cases pid parent page s)
      as [(e & Ht & Hv)|[(title & es & Ht & _ & _ & _ & Hv)|(title & Ht & Hout & Hne & Hs & Hv)]];
      rewrite Hv in Hfin; injection Hfin as <-.
    + destruct s. by state_simpl.
    + rewrite emit_all_trace. destruct s. by state_simpl.
    + rewrite index_page_spec by done. destruct s.
      unfold processed_in_sync. by state_simpl.
Qed.

(** C9, as the code has it. After a run that returned, a second run over
    the same corpus returns too and leaves ContentHash, ProcessedSet, the
    graph and the embedding store as they were: the second run makes no
    call to the embedding store (no deletion, no addition) and saves
    neither ContentHash nor ProcessedSet again. *)
Theorem second_run_is_quiet (depth : nat) (s0 s1 : indexer) :
  run depth s0 = Done s1 →
  ∃ s2, run depth s1 = Done s2
    ∧ hash_store s2 = hash_store s1
    ∧ knowledge_graph s2 = knowledge_graph s1
    ∧ processed_pages s2 = processed_pages s1
    ∧ vector_store s2 = vector_store s1
    ∧ store_calls s2 = store_calls s1
    ∧ store_events (trace s2) = store_events (trace s1)
    ∧ hash_store_file s2 = hash_store_file s1
    ∧ processed_pages_file s2 = processed_pages_file s1
    ∧ knowledge_graph_file s2 = Some (knowledge_graph s1).
Proof.
  unfold run. intros Hrun1.
  set (a0 := set_counters 1 0 (load_processed_pages (emit (ev_log log_start) s0)))
    in Hrun1.
  destruct (process_page depth (root_page_id a0) None a0) as [a1| |] eqn:Ha;
    [|done..].
  injection Hrun1 as <-.
  assert (Hsync0 : processed_in_sync a0).
  { unfold a0, load_processed_pages, processed_in_sync. destruct s0 as [].
    state_simpl. destruct processed_pages_file0; by state_simpl. }
  destruct (process_page_sync depth (root_page_id a0) None a0 a1) as [Hroot Hsync].
  { by rewrite Ha. }
  specialize (Hsync Hsync0).
  destruct (process_page_replay depth _ _ _ _ Ha) as [_ Hreplay].
  set (s1 := emit (ev_log (log_complete (pages_processed a1)))
               (save_knowledge_graph a1)).
  set (b0 := set_counters 1 0 (load_processed_pages (emit (ev_log log_start) s1))).
  assert (Hb0 : hash_store b0 = hash_store a1
                ∧ processed_pages b0 = processed_pages a1
                ∧ knowledge_graph b0 = knowledge_graph a1
                ∧ vector_store b0 = vector_store a1
                ∧ store_calls b0 = store_calls a1
                ∧ hash_store_file b0 = hash_store_file a1
                ∧ processed_pages_file b0 = processed_pages_file a1
                ∧ knowledge_graph_file b0 = Some (knowledge_graph a1)
                ∧ root_page_id b0 = root_page_id a1
                ∧ store_events (trace b0) = store_events (trace a1)).
  { unfold b0, s1, load_processed_pages. clear -Hsync.
    unfold processed_in_sync in Hsync. destruct a1 as []. state_simpl_all.
    destruct processed_pages_file0 as [p|]; state_simpl;
      rewrite <- ?app_assoc, store_events_app, app_nil_r;
      repeat split; done. }
  destruct Hb0 as (Hh & Hp & Hg & Hv & Hc & Hhf & Hpf & Hgf & Hr & Hev).
  destruct (Hreplay b0) as (b1 & Hrun2 & Hq).
  { intros pid parent. by apply absorbed_quiet. }
  assert (Hroot' : root_page_id b0 = root_page_id a0) by congruence.
  rewrite Hroot', Hrun2. eexists. split; [reflexivity|].
  destruct Hq as (Hh' & Hp' & Hg' & Hv' & Hc' & Hhf' & Hpf' & Hgf' & Hr' & Hev').
  unfold s1. clear -Hh Hp Hg Hv Hc Hhf Hpf Hgf Hev Hh' Hp' Hg' Hv' Hc' Hhf' Hpf' Hev'.
  destruct a1 as [], b1 as [], b0 as []. state_simpl_all. subst.
  repeat (split; [done|]). split; [|done].
  rewrite !store_events_app, Hev', Hev. reflexivity.
Qed.

End Traversal.

(** * Counterexamples and instances *)

Section Instances.
Import Demo.

(** C3, counterexample. The request for the blocks of "root" is answered
    404: no error is raised, the failure is printed and the page comes back
    with empty text and no child reference. When the page request itself is
    answered 404, the exception raised carries the status code only. *)
Lemma refused_blocks_yield_empty_page :
  status_code (blocks_endpoint blocks_refused "root") = 404
  ∧ get_page_content blocks_refused "root"
    = (["Error fetching blocks. Status Code: 404";
        "Error Response Content for blocks: Not Found"],
       Ok (mkPage "root" {["title" := PList ["root"]]} "" []))
  ∧ get_page_content page_refused "root"
    = (["Error Status Code: 404"; "Error Response Content: Not Found"],
       Raise (Exception "Failed to retrieve page content. Status code: 404")).
Proof. split; [reflexivity|]. split; vm_compute; reflexivity. Qed.

Lemma fetch_failure_modes_witness :
  status_code (pages_endpoint page_refused "root") ≠ 200
  ∧ status_code (pages_endpoint blocks_refused "root") = 200
  ∧ status_code (blocks_endpoint blocks_refused "root") ≠ 200
  ∧ (get_page_content page_refused "root").2
    = Raise (Exception ("Failed to retrieve page content. Status code: "
                          +:+ pretty 404))
  ∧ (get_page_content blocks_refused "root").2
    = Ok (mkPage "root" (read_properties [("title", prop_title ["root"])] ∅)
            "" []).
Proof.
  assert (H1 : status_code (pages_endpoint page_refused "root") ≠ 200)
    by (vm_compute; discriminate).
  assert (H2 : status_code (blocks_endpoint blocks_refused "root") ≠ 200)
    by (vm_compute; discriminate).
  split; [exact H1|]. split; [reflexivity|]. split; [exact H2|]. split.
  - destruct (fetch_failure_modes page_refused "root") as [Ha _].
    rewrite (Ha H1). reflexivity.
  - destruct (fetch_failure_modes blocks_refused "root") as [_ Hb].
    rewrite (Hb "" [("title", prop_title ["root"])] eq_refl eq_refl H2).
    reflexivity.
Defined.

(** C1, counterexample. "root" is indexed with the text "old" by a first
    run; its text is then "new". The second run finds "root" in
    ProcessedSet: although the stored fingerprint differs from the fresh
    one, nothing is submitted and the entry keeps the old fingerprint. *)
Lemma modified_page_in_processed_set_is_skipped :
  ∃ s1 s2 page,
    run (single "old") digest split never_fails 1 (fresh "root") = Done s1
    ∧ run (single "new") digest split never_fails 1 s1 = Done s2
    ∧ (get_page_content (single "new") "root").2 = Ok page
    ∧ processed_pages_file s1 = Some {["root"]}
    ∧ hash_store s1 !! "root" = Some (digest "old")
    ∧ full_content page = "new"
    ∧ split (full_content page) = ["new"]
    ∧ digest (full_content page) ≠ digest "old"
    ∧ hash_store s2 !! "root" = Some (digest "old")
    ∧ vector_store s2 = [("old", mkMeta "root" "root")]
    ∧ submissions (trace s2) = [("old", true)].
Proof.
  eexists _, _, _.
  split; [vm_compute; reflexivity|]. split; [vm_compute; reflexivity|].
  split; [vm_compute; reflexivity|].
  repeat split; try (vm_compute; reflexivity). vm_compute. discriminate.
Qed.

(** C9, counterexample. A page without content has no ContentHash entry
    after the first run, so the second run decides it Unseen, not
    Unchanged, and takes the indexing branch again (to no effect). *)
Lemma empty_page_is_unseen_again :
  ∃ s1 s2 page,
    run (single "") digest split never_fails 1 (fresh "root") = Done s1
    ∧ run (single "") digest split never_fails 1 s1 = Done s2
    ∧ (get_page_content (single "") "root").2 = Ok page
    ∧ decide_page digest "root" page s1 = Unseen
    ∧ decide_page digest "root" page s1 ≠ Unchanged
    ∧ logged (drop (length (trace s1)) (trace s2))
      = [log_start; log_processing 1 2 "root"; log_no_content "root";
         log_complete 1].
Proof.
  eexists _, _, _.
  split; [vm_compute; reflexivity|]. split; [vm_compute; reflexivity|].
  split; [vm_compute; reflexivity|].
  repeat split; try (vm_compute; reflexivity). vm_compute. discriminate.
Qed.

Lemma cycle_page (pid : string) :
  ∃ page c cs,
    get_page_content cycle pid = ([], Ok page)
    ∧ title_of page = Ok pid
    ∧ child_pages page = c :: cs.
Proof.
  unfold get_page_content, get_page_blocks.
  cbn [cycle pages_endpoint blocks_endpoint ok_page status_code payload].
  rewrite decide_True by done.
  destruct (String.eqb pid "A");
    cbn [ok_blocks status_code payload]; rewrite decide_True by done;
    eexists _, _, _; (split; [reflexivity|]); (split; [|reflexivity]);
    unfold title_of, page_title; cbn [content read_properties convert_property];
    by rewrite lookup_insert_eq.
Qed.

Lemma cycle_overflows (depth : nat) :
  ∀ pid parent s,
    process_page cycle digest split never_fails depth pid parent s
    = RecursionOverflow.
Proof.
  induction depth as [|depth IH]; intros pid parent s; [done|].
  cbn [process_page]. rewrite fetch_result.
  destruct (cycle_page pid) as (page & c & cs & Hget & Ht & Hkids).
  rewrite Hget. cbn [fst snd].
  destruct (visit_page_returns digest split never_fails pid parent page pid
              (emit_all (map ev_print []) (emit (ev_fetch pid) s)) Ht)
    as [s1 Hv].
  rewrite Hv. unfold descend. rewrite Hkids. cbn [for_each]. by rewrite IH.
Qed.

(** C2, counterexample. In the corpus root -> A, B; A -> C; B -> C the run
    returns after fetching C twice, once under each parent. In the corpus
    A -> B -> A no recursion depth is enough for the run to return. *)
Lemma shared_child_is_visited_twice :
  (∃ s', run diamond digest split never_fails 3 (fresh "root") = Done s'
         ∧ fetches (trace s') = ["root"; "A"; "C"; "B"; "C"])
  ∧ ∀ depth, run cycle digest split never_fails depth (fresh "A")
             = RecursionOverflow.
Proof.
  split.
  - eexists. split; vm_compute; reflexivity.
  - intros depth. unfold run. by rewrite cycle_overflows.
Qed.

Lemma family_unfolds : unfolds family family_tree.
Proof.
  unfold family_tree.
  eapply (unfolds_node family "root"); [vm_compute; reflexivity|reflexivity..|].
  repeat constructor.
  - eapply (unfolds_node family "A"); [vm_compute; reflexivity|reflexivity..|].
    repeat constructor.
    eapply (unfolds_node family "C"); [vm_compute; reflexivity|reflexivity..|].
    constructor.
  - eapply (unfolds_node family "B"); [vm_compute; reflexivity|reflexivity..|].
    constructor.
Defined.

Lemma tree_corpus_visited_once_witness :
  unfolds family family_tree
  ∧ root_page_id (fresh "root") = root family_tree
  ∧ (height family_tree ≤ 3)%nat
  ∧ NoDup (preorder family_tree)
  ∧ ∃ s', run family digest split never_fails 3 (fresh "root") = Done s'
          ∧ fetches (trace s') = ["root"; "A"; "C"; "B"]
          ∧ ∀ pid, pid ∈ preorder family_tree →
              length (filter (λ x, x = pid) (preorder family_tree)) = 1%nat.
Proof.
  assert (Hh : (height family_tree ≤ 3)%nat) by (vm_compute; lia).
  assert (Hnd : NoDup (preorder family_tree)).
  { apply (bool_decide_unpack (NoDup (preorder family_tree))).
    vm_compute. exact I. }
  split; [exact family_unfolds|]. split; [reflexivity|].
  split; [exact Hh|]. split; [exact Hnd|].
  destruct (tree_corpus_visited_once family digest split never_fails
              family_tree (fresh "root") 3 family_unfolds eq_refl Hh)
    as (s' & visited & Hrun & Hf & Hv & Honce).
  exists s'. split; [exact Hrun|]. split.
  - rewrite Hf, Hv. reflexivity.
  - intros pid Hin. rewrite <- Hv. by apply Honce.
Defined.

Lemma graph_builder_idempotent_witness :
  "root" ≠ ""
  ∧ edge_count "root" "A"
      (Nat.iter 3 (update_graph "A" "Page A" (Some "root")) empty_graph) = 1%nat
  ∧ node_count "A"
      (Nat.iter 3 (update_graph "A" "Page A" (Some "root")) empty_graph) = 1%nat.
Proof.
  assert (Hp : "root" ≠ "") by discriminate.
  pose proof (graph_builder_idempotent "root" "A" "Page A" empty_graph 2 Hp)
    as (_ & _ & _ & _ & H).
  cbv zeta in H. destruct H as (_ & He & Hn & _).
  split; [exact Hp|]. split; [exact He|exact Hn].
Defined.

Lemma child_page_link_vs_ref_witness :
  block_type (link "root" "A") = child_page "A"
  ∧ get_child_pages ([para "root" "hello"] ++ link "root" "A" :: [])
    = get_child_pages [para "root" "hello"] ++ [mkChild "A" "A"]
  ∧ render_block (link "root" "A") ≠ "- [A](A)".
Proof.
  pose proof (child_page_link_vs_ref [para "root" "hello"] [] (link "root" "A")
                "A" eq_refl) as (_ & Hrefs & Hne).
  split; [reflexivity|]. split; [exact Hrefs|].
  apply (Hne ltac:(discriminate) (mkChild "A" "A")). by left.
Defined.

Lemma decision_reads_processed_set_witness :
  title_of two_chunks = Ok "A"
  ∧ ∃ s', visit_page digest split2 never_fails "A" None two_chunks (fresh "root")
          = Done s'
          ∧ hash_store s' !! "A" = Some (digest "first|second").
Proof.
  split; [reflexivity|].
  destruct (decision_reads_processed_set digest split2 never_fails "A" None
              two_chunks "A" (fresh "root") eq_refl)
    as (s' & Hv & _ & Hindex & _).
  exists s'. split; [exact Hv|]. apply Hindex.
  - apply not_elem_of_empty.
  - vm_compute. discriminate.
  - vm_compute. discriminate.
Defined.

Lemma chunk_failures_are_isolated_witness :
  title_of two_chunks = Ok "A"
  ∧ ("A" ∉ processed_pages (fresh "root"))
  ∧ hash_store (fresh "root") !! "A" ≠ Some (digest (full_content two_chunks))
  ∧ split2 (full_content two_chunks) ≠ []
  ∧ ∃ s', visit_page digest split2 third_fails "A" None two_chunks (fresh "root")
          = Done s'
          ∧ submissions (trace s') = [("first", true); ("second", false)]
          ∧ hash_store s' !! "A" = Some (digest "first|second").
Proof.
  assert (H2 : "A" ∉ processed_pages (fresh "root")) by apply not_elem_of_empty.
  assert (H3 : hash_store (fresh "root") !! "A"
               ≠ Some (digest (full_content two_chunks)))
    by (vm_compute; discriminate).
  assert (H4 : split2 (full_content two_chunks) ≠ [])
    by (vm_compute; discriminate).
  split; [reflexivity|]. split; [exact H2|]. split; [exact H3|].
  split; [exact H4|].
  pose proof (chunk_failures_are_isolated diamond digest split2 third_fails
                "A" None two_chunks "A" (fresh "root") eq_refl H2 H3 H4) as H.
  cbv zeta in H.
  destruct H as (s' & new & docs & Hv & Htr & Hsub & _ & _ & _ & Hh & _).
  exists s'. split; [exact Hv|]. split; [|exact Hh].
  rewrite Htr. change (trace (fresh "root") ++ new) with new. rewrite Hsub.
  vm_compute. reflexivity.
Defined.

Lemma empty_page_is_noop_witness :
  title_of empty_page = Ok "B"
  ∧ hash_store (fresh "root") !! "B" ≠ Some (digest (full_content empty_page))
  ∧ split (full_content empty_page) = []
  ∧ ∃ s', visit_page digest split never_fails "B" (Some "root") empty_page
            (fresh "root") = Done s'
          ∧ vector_store s' = []
          ∧ hash_store s' = ∅
          ∧ logged (trace s') = [log_processing 1 1 "B"; log_no_content "B"].
Proof.
  assert (H2 : hash_store (fresh "root") !! "B"
               ≠ Some (digest (full_content empty_page)))
    by (vm_compute; discriminate).
  split; [reflexivity|]. split; [exact H2|]. split; [reflexivity|].
  destruct (empty_page_is_noop diamond digest split never_fails "B"
              (Some "root") empty_page "B" (fresh "root") eq_refl H2 eq_refl)
    as (s' & Hv & Hvs & _ & _ & Hh & _ & Hlog & _).
  exists s'. split; [exact Hv|]. split; [exact Hvs|]. split; [exact Hh|].
  destruct (Hlog ltac:(apply not_elem_of_empty)) as [-> _]. reflexivity.
Defined.

Lemma delete_precedes_adds_witness :
  title_of two_chunks = Ok "A"
  ∧ ("A" ∉ processed_pages (fresh "root"))
  ∧ hash_store (fresh "root") !! "A" ≠ Some (digest (full_content two_chunks))
  ∧ split2 (full_content two_chunks) ≠ []
  ∧ ∃ s' before after,
      visit_page digest split2 first_fails "A" None two_chunks (fresh "root")
      = Done s'
      ∧ trace s' = before ++ ev_delete "A" false :: after
      ∧ store_events before = []
      ∧ head after = Some (ev_log (log_delete_error "A"))
      ∧ submissions after = [("first", true); ("second", true)].
Proof.
  assert (H2 : "A" ∉ processed_pages (fresh "root")) by apply not_elem_of_empty.
  assert (H3 : hash_store (fresh "root") !! "A"
               ≠ Some (digest (full_content two_chunks)))
    by (vm_compute; discriminate).
  assert (H4 : split2 (full_content two_chunks) ≠ [])
    by (vm_compute; discriminate).
  split; [reflexivity|]. split; [exact H2|]. split; [exact H3|].
  split; [exact H4|].
  pose proof (delete_precedes_adds digest split2 first_fails
                "A" None two_chunks "A" (fresh "root") eq_refl H2 H3 H4) as H.
  cbv zeta in H.
  destruct H as (s' & before & after & Hv & Htr & Hb & Hsub & _ & _ & Hfail).
  exists s', before, after. split; [exact Hv|]. split; [exact Htr|].
  split; [exact Hb|]. split.
  - by destruct (Hfail eq_refl) as [? _].
  - rewrite Hsub. vm_compute. reflexivity.
Defined.

Lemma persisted_before_children_and_siblings_witness :
  fetch (single "old") "root" (fresh "root") = (old_fetched, Ok old_page)
  ∧ visit_page digest split never_fails "root" None old_page old_fetched
    = Done old_visited
  ∧ hash_store old_visited ≠ hash_store old_fetched
  ∧ persisted old_visited
  ∧ process_page (single "old") digest split never_fails 1 "root" None
      (fresh "root")
    = descend (process_page (single "old") digest split never_fails 0)
        "root" old_page old_visited.
Proof.
  assert (H1 : fetch (single "old") "root" (fresh "root")
               = (old_fetched, Ok old_page)) by (vm_compute; reflexivity).
  assert (H2 : visit_page digest split never_fails "root" None old_page
                 old_fetched = Done old_visited) by (vm_compute; reflexivity).
  assert (H3 : hash_store old_visited ≠ hash_store old_fetched).
  { intros H. apply (f_equal (λ m : gmap string string, m !! "root")) in H.
    vm_compute in H. discriminate H. }
  split; [exact H1|]. split; [exact H2|]. split; [exact H3|].
  destruct (persisted_before_children_and_siblings (single "old") digest split
              never_fails 0 "root" None (fresh "root") old_fetched old_page
              old_visited H1 H2 (or_introl H3))
    as (Hp & _ & _ & _ & Hcont & _).
  split; [exact Hp|exact Hcont].
Defined.

Lemma second_run_is_quiet_witness :
  run family digest split never_fails 3 (fresh "root") = Done first_run
  ∧ ∃ s2, run family digest split never_fails 3 first_run = Done s2
          ∧ hash_store s2 = hash_store first_run
          ∧ knowledge_graph s2 = knowledge_graph first_run
          ∧ store_events (trace s2) = store_events (trace first_run).
Proof.
  assert (H1 : run family digest split never_fails 3 (fresh "root")
               = Done first_run) by (vm_compute; reflexivity).
  split; [exact H1|].
  destruct (second_run_is_quiet family digest split never_fails 3
              (fresh "root") first_run H1)
    as (s2 & Hrun & Hh & Hg & _ & _ & _ & Hev & _).
  exists s2. split; [exact Hrun|]. split; [exact Hh|]. split; [exact Hg|exact Hev].
Defined.

End Instances.

(** * Further properties of the code *)

#[local] Set Warnings "-clear-no-such-hyp".

(** ** The reader *)

Lemma join_cons (sep x : string) (l : list string) :
  l ≠ [] → join sep (x :: l) = x +:+ sep +:+ join sep l.
Proof. destruct l; [done|]. reflexivity. Qed.

Lemma append_assoc (x y z : string) : (x +:+ y) +:+ z = x +:+ y +:+ z.
Proof.
  induction x as [|a x IH]; [done|]. rewrite !append_cons. by rewrite IH.
Qed.

Lemma join_app (sep : string) (l1 l2 : list string) :
  l1 ≠ [] → l2 ≠ [] →
  join sep (l1 ++ l2) = join sep l1 +:+ sep +:+ join sep l2.
Proof.
  intros H1 H2. induction l1 as [|x l1 IH]; [done|].
  destruct l1 as [|y l1].
  - change ([x] ++ l2) with (x :: l2). by rewrite join_cons.
  - change ((x :: y :: l1) ++ l2) with (x :: ((y :: l1) ++ l2)).
    rewrite join_cons by done. rewrite IH by done.
    rewrite (join_cons sep x (y :: l1)) by done.
    by rewrite !append_assoc.
Qed.

(** X1. The text of a block list made of two non-empty parts is the text of
    the first part, a newline, and the text of the second part; the text of
    no block at all is empty. No block is dropped, whatever its type. *)
Theorem process_blocks_app (blocks1 blocks2 : list block) :
  process_blocks [] = ""
  ∧ (blocks1 ≠ [] → blocks2 ≠ [] →
     process_blocks (blocks1 ++ blocks2)
     = process_blocks blocks1 +:+ newline +:+ process_blocks blocks2).
Proof.
  split; [reflexivity|]. intros H1 H2. unfold process_blocks.
  rewrite map_app. apply join_app.
  - by destruct blocks1.
  - by destruct blocks2.
Qed.

Lemma get_child_pages_cons_child (b : block) (bs : list block) (title : string) :
  block_type b = child_page title →
  get_child_pages (b :: bs) = mkChild title (block_id b) :: get_child_pages bs.
Proof. intros Hb. simpl. by rewrite Hb. Qed.

Lemma get_child_pages_cons_other (b : block) (bs : list block) :
  is_child_page b = false →
  get_child_pages (b :: bs) = get_child_pages bs.
Proof. unfold is_child_page. intros Hb. simpl. by destruct (block_type b). Qed.

(** X2. The child references of a page are exactly its [child_page]
    blocks: a reference is returned if and only if some block of that type
    has its title and its block id, and the references come in the order of
    the blocks. *)
Theorem get_child_pages_spec (blocks : list block) :
  get_child_pages blocks = omap child_ref blocks
  ∧ child_page_id <$> get_child_pages blocks
    = block_id <$> filter (λ b, is_child_page b = true) blocks
  ∧ ∀ ref, ref ∈ get_child_pages blocks ↔
      ∃ b, b ∈ blocks ∧ block_type b = child_page (child_title ref)
           ∧ block_id b = child_page_id ref.
Proof.
  assert (H1 : get_child_pages blocks = omap child_ref blocks).
  { induction blocks as [|b bs IH]; [done|]. simpl. unfold child_ref at 1.
    destruct (block_type b); simpl; by rewrite ?IH. }
  split; [exact H1|]. split.
  - clear H1. induction blocks as [|b bs IH]; [done|].
    destruct (is_child_page b) eqn:Hc.
    + rewrite filter_cons_True by done. unfold is_child_page in Hc.
      destruct (block_type b) as [| | | |title|] eqn:Hb; try done.
      rewrite (get_child_pages_cons_child b bs title Hb), !fmap_cons.
      by rewrite IH.
    + rewrite filter_cons_False by (rewrite Hc; done).
      by rewrite get_child_pages_cons_other.
  - intros ref. rewrite H1. rewrite list_elem_of_omap. split.
    + intros (b & Hin & Href). exists b. split; [done|].
      unfold child_ref in Href. destruct (block_type b); try done.
      by injection Href as <-.
    + intros (b & Hin & Hty & Hid). exists b. split; [done|].
      unfold child_ref. rewrite Hty, Hid. by destruct ref.
Qed.

Lemma read_properties_other (props : list (string * property))
    (acc : gmap string pyval) (k : string) :
  k ∉ props.*1 → read_properties props acc !! k = acc !! k.
Proof.
  revert acc. induction props as [|[key value] props IH]; intros acc Hk; [done|].
  simpl in Hk. apply not_elem_of_cons in Hk as [Hne Hk]. simpl.
  rewrite IH by done. destruct (convert_property value); [|done].
  by rewrite lookup_insert_ne.
Qed.

Lemma read_properties_entry (props : list (string * property))
    (acc : gmap string pyval) (k : string) (v : property) :
  NoDup props.*1 → acc !! k = None → (k, v) ∈ props →
  read_properties props acc !! k = convert_property v.
Proof.
  revert acc. induction props as [|[key value] props IH]; intros acc Hnd Hacc Hin.
  { by apply elem_of_nil in Hin. }
  simpl in Hnd. apply NoDup_cons in Hnd as [Hfresh Hnd].
  apply elem_of_cons in Hin as [Heq|Hin].
  - injection Heq as <- <-. simpl. rewrite read_properties_other by done.
    destruct (convert_property v) eqn:Hv; [|done].
    by rewrite lookup_insert_eq.
  - simpl. apply IH; [done| |done].
    destruct (convert_property value); [|done].
    rewrite lookup_insert_ne; [done|]. intros ->. apply Hfresh.
    by apply (list_elem_of_fmap_2 fst) in Hin.
Qed.

(** The [content] dict of a returned page is read from the property object
    of the page response. *)
Lemma fetched_content (notion : source) (pid : string) (out : list string)
    (page : NotionPage) :
  get_page_content notion pid = (out, Ok page) →
  ∃ dump props,
    payload (pages_endpoint notion pid) = Json dump (Some props)
    ∧ content page = read_properties props ∅.
Proof.
  unfold get_page_content, get_page_blocks. intros H.
  destruct (decide (status_code (pages_endpoint notion pid) = 200)) as [Hp|Hp];
    [|done].
  destruct (payload (pages_endpoint notion pid)) as [dump [props|]|]; [|done..].
  exists dump, props. split; [done|].
  destruct (decide (status_code (blocks_endpoint notion pid) = 200)) as [Hb|Hb].
  - destruct (payload (blocks_endpoint notion pid)) as [d [blocks|]|];
      [|done..].
    by injection H as <- <-.
  - by injection H as <- <-.
Qed.

(** X3. The [content] dict of a fetched page, for a property object whose
    keys are distinct: the entry of a key is the converted value of the
    property of that name, a property of an unsupported type leaves no
    entry, and there is no entry for a name that is not a property. *)
Theorem read_properties_lookup (props : list (string * property)) (k : string) :
  NoDup props.*1 →
  (∀ v, (k, v) ∈ props → read_properties props ∅ !! k = convert_property v)
  ∧ (k ∉ props.*1 → read_properties props ∅ !! k = None).
Proof.
  intros Hnd. split.
  - intros v Hin. by apply read_properties_entry.
  - intros Hk. by rewrite read_properties_other.
Qed.

(** X4. What a page returned by [get_page_content] always is: the page
    request was answered 200 with a property object, the page carries the
    requested id and the converted properties, and either the block request
    was answered 200 and the text and child references are those of its
    blocks (nothing printed), or it was refused and the page has empty text
    and no child reference (the refusal printed). *)
Theorem get_page_content_returns (notion : source) (pid : string)
    (out : list string) (page : NotionPage) :
  get_page_content notion pid = (out, Ok page) →
  status_code (pages_endpoint notion pid) = 200
  ∧ ∃ dump props,
      payload (pages_endpoint notion pid) = Json dump (Some props)
      ∧ page_id page = pid
      ∧ content page = read_properties props ∅
      ∧ ((status_code (blocks_endpoint notion pid) = 200
          ∧ ∃ d blocks,
              payload (blocks_endpoint notion pid) = Json d (Some blocks)
              ∧ out = []
              ∧ full_content page = process_blocks blocks
              ∧ child_pages page = get_child_pages blocks)
         ∨ (status_code (blocks_endpoint notion pid) ≠ 200
            ∧ out = error_report "Error fetching blocks. Status Code: "
                      "Full Error Response for blocks: "
                      "Error Response Content for blocks: "
                      (blocks_endpoint notion pid)
            ∧ full_content page = ""
            ∧ child_pages page = [])).
Proof.
  unfold get_page_content, get_page_blocks. intros H.
  destruct (decide (status_code (pages_endpoint notion pid) = 200)) as [Hp|Hp];
    [|done].
  split; [done|].
  destruct (payload (pages_endpoint notion pid)) as [dump [props|]|]; [|done..].
  exists dump, props. split; [done|].
  destruct (decide (status_code (blocks_endpoint notion pid) = 200)) as [Hb|Hb].
  - destruct (payload (blocks_endpoint notion pid)) as [d [blocks|]|];
      [|done..].
    injection H as <- <-. repeat (split; [done|]). left. split; [done|].
    by exists d, blocks.
  - injection H as <- <-. repeat (split; [done|]). by right.
Qed.

(** X5. The title the indexer gives a fetched page (distinct property
    names): "Untitled" when no property is named "title", whatever other
    title-typed property the page has; the first plain-text segment of the
    property named "title" when that is a title property with a segment;
    and a checkbox named "title" that is ticked makes the title lookup
    raise TypeError. *)
Theorem title_of_fetched_page (notion : source) (pid dump : string)
    (props : list (string * property)) (out : list string) (page : NotionPage) :
  get_page_content notion pid = (out, Ok page) →
  payload (pages_endpoint notion pid) = Json dump (Some props) →
  NoDup props.*1 →
  ("title" ∉ props.*1 → title_of page = Ok "Untitled")
  ∧ (∀ t rest, ("title", prop_title (t :: rest)) ∈ props → title_of page = Ok t)
  ∧ (("title", prop_title []) ∈ props → title_of page = Ok "Untitled")
  ∧ (("title", prop_checkbox true) ∈ props → title_of page = Raise TypeError).
Proof.
  intros Hget Hpay Hnd.
  destruct (fetched_content _ _ _ _ Hget) as (dump' & props' & Hpay' & Hcontent).
  assert (props' = props) as -> by congruence.
  assert (Hin : ∀ v, ("title", v) ∈ props →
                read_properties props ∅ !! "title" = convert_property v)
    by (intros v H; by apply read_properties_entry).
  unfold title_of, page_title. rewrite Hcontent.
  split; [|split; [|split]].
  - intros H. by rewrite read_properties_other.
  - intros t rest H. by rewrite (Hin _ H).
  - intros H. by rewrite (Hin _ H).
  - intros H. by rewrite (Hin _ H).
Qed.

(** X6. A refused block request cannot be told from a page without blocks:
    two sources that answer the page request alike, one refusing the block
    request and the other answering it with an empty list, give the same
    page. *)
Theorem refused_blocks_look_empty (n1 n2 : source) (pid dump d : string)
    (props : list (string * property)) :
  pages_endpoint n1 pid = pages_endpoint n2 pid →
  status_code (pages_endpoint n1 pid) = 200 →
  payload (pages_endpoint n1 pid) = Json dump (Some props) →
  status_code (blocks_endpoint n1 pid) ≠ 200 →
  status_code (blocks_endpoint n2 pid) = 200 →
  payload (blocks_endpoint n2 pid) = Json d (Some []) →
  (get_page_content n1 pid).2 = (get_page_content n2 pid).2
  ∧ (get_page_content n2 pid).2
    = Ok (mkPage pid (read_properties props ∅) "" []).
Proof.
  intros Hsame Hs Hp Hb1 Hb2 Hp2.
  unfold get_page_content, get_page_blocks.
  rewrite <- Hsame, !(decide_True _ _ Hs), Hp.
  rewrite (decide_False _ _ Hb1), (decide_True _ _ Hb2), Hp2. done.
Qed.

(** ** The graph a run builds *)

Lemma tree_ind_forall (P : tree → Prop) :
  (∀ i ks, Forall P ks → P (Node i ks)) → ∀ t, P t.
Proof.
  intros H.
  assert (Hn : ∀ n t, (height t ≤ n)%nat → P t).
  { induction n as [|n IH]; intros [i ks] Hh; simpl in Hh; [lia|].
    apply H. apply Nat.succ_le_mono in Hh.
    induction ks as [|k ks IHks]; [constructor|]. simpl in Hh.
    constructor; [apply IH; lia|apply IHks; lia]. }
  intros t. by apply (Hn (height t)).
Qed.

Lemma touch_node_dom (n : string) (ns : gmap string (option string)) :
  dom (touch_node n ns) = {[n]} ∪ dom ns.
Proof.
  unfold touch_node. destruct (ns !! n) eqn:E.
  - apply elem_of_dom_2 in E. set_solver.
  - by rewrite dom_insert_L.
Qed.

Lemma update_graph_dom i title parent g :
  dom (nodes (update_graph i title parent g))
  = dom (nodes g) ∪ {[i]} ∪ parent_node parent.
Proof.
  unfold update_graph, parent_node. destruct parent as [p|].
  - destruct (truthy (Some p)).
    + cbn [add_edge add_node nodes]. rewrite !touch_node_dom, dom_insert_L.
      set_solver.
    + cbn [add_node nodes]. rewrite dom_insert_L. set_solver.
  - cbn [add_node nodes]. rewrite dom_insert_L. set_solver.
Qed.

Lemma update_graph_edges_eq i title parent g :
  edges (update_graph i title parent g) = edges g ∪ parent_edge parent i.
Proof.
  unfold update_graph, parent_edge. destruct parent as [p|].
  - destruct (truthy (Some p)).
    + cbn [add_edge add_node edges]. set_solver.
    + cbn [add_node edges]. set_solver.
  - cbn [add_node edges]. set_solver.
Qed.

Lemma update_graph_keeps_title i title parent g x :
  nodes g !! x = Some (Some (title x)) →
  nodes (update_graph i (title i) parent g) !! x = Some (Some (title x)).
Proof. intros Hx. apply update_graph_nodes; [done|]. by intros ->. Qed.

Lemma parent_node_preorder i (k : tree) :
  parent_node (Some i) ⊆ ({[i]} : gset string).
Proof. unfold parent_node. by destruct (truthy (Some i)). Qed.

(** The nodes of the graph after the updates of a tree traversal. *)
Lemma tree_graph_dom (title : string → string) (t : tree) :
  ∀ parent g,
    dom (nodes (tree_graph title t parent g))
    = dom (nodes g) ∪ list_to_set (preorder t) ∪ parent_node parent.
Proof.
  induction t as [i ks IH] using tree_ind_forall. intros parent g.
  cbn [tree_graph preorder].
  assert (Hfold : ∀ g0,
            dom (nodes (foldl (λ g k, tree_graph title k (Some i) g) g0 ks))
            = dom (nodes g0) ∪ list_to_set (flat_map preorder ks)
              ∪ (if ks is [] then ∅ else parent_node (Some i))).
  { induction ks as [|k ks IHks]; intros g0.
    - simpl. set_solver.
    - apply Forall_cons in IH as [Hk Hks]. cbn [foldl flat_map].
      rewrite (IHks Hks), Hk, list_to_set_app_L.
      destruct ks; set_solver. }
  rewrite Hfold, update_graph_dom, list_to_set_cons.
  pose proof (parent_node_preorder i (Node i ks)).
  destruct ks; set_solver.
Qed.

(** Every node of the tree ends up titled. *)
Lemma tree_graph_titles (title : string → string) (t : tree) :
  ∀ parent g,
    (∀ x, nodes g !! x = Some (Some (title x)) →
          nodes (tree_graph title t parent g) !! x = Some (Some (title x)))
    ∧ ∀ x, x ∈ preorder t →
           nodes (tree_graph title t parent g) !! x = Some (Some (title x)).
Proof.
  induction t as [i ks IH] using tree_ind_forall. intros parent g.
  cbn [tree_graph preorder].
  assert (Hfold : ∀ g0,
            (∀ x, nodes g0 !! x = Some (Some (title x)) →
                  nodes (foldl (λ g k, tree_graph title k (Some i) g) g0 ks) !! x
                  = Some (Some (title x)))
            ∧ ∀ x, x ∈ flat_map preorder ks →
                   nodes (foldl (λ g k, tree_graph title k (Some i) g) g0 ks) !! x
                   = Some (Some (title x))).
  { induction ks as [|k ks IHks]; intros g0.
    - split; [done|]. intros x Hx. by apply elem_of_nil in Hx.
    - apply Forall_cons in IH as [Hk Hks]. cbn [foldl flat_map].
      destruct (IHks Hks (tree_graph title k (Some i) g0)) as [Hkeep Hin].
      destruct (Hk (Some i) g0) as [Hkeepk Hink].
      split; [auto|]. intros x Hx. apply elem_of_app in Hx as [Hx|Hx]; auto. }
  destruct (Hfold (update_graph i (title i) parent g)) as [Hkeep Hin].
  split.
  - intros x Hx. by apply Hkeep, update_graph_keeps_title.
  - intros x Hx. apply elem_of_cons in Hx as [->|Hx]; [|auto].
    apply Hkeep. apply graph_has_update.
Qed.

Lemma truthy_nonempty (p : string) : p ≠ "" → truthy (Some p) = true.
Proof. by destruct p. Qed.

(** The edges of the graph after the updates of a tree traversal, when no
    id is the empty string. *)
Lemma tree_graph_edges (title : string → string) (t : tree) :
  "" ∉ preorder t →
  ∀ parent g,
    edges (tree_graph title t parent g)
    = edges g ∪ list_to_set (edge_list t) ∪ parent_edge parent (root t).
Proof.
  induction t as [i ks IH] using tree_ind_forall. intros Hne parent g.
  cbn [tree_graph preorder edge_list root] in *.
  apply not_elem_of_cons in Hne as [Hi Hne].
  assert (Hfold : ∀ g0,
            edges (foldl (λ g k, tree_graph title k (Some i) g) g0 ks)
            = edges g0
              ∪ list_to_set (flat_map (λ k, (i, root k) :: edge_list k) ks)).
  { induction ks as [|k ks IHks]; intros g0.
    - simpl. set_solver.
    - apply Forall_cons in IH as [Hk Hks]. cbn [foldl flat_map] in *.
      apply not_elem_of_app in Hne as [Hnk Hnks].
      rewrite (IHks Hks Hnks), (Hk Hnk).
      unfold parent_edge. rewrite truthy_nonempty by done.
      rewrite list_to_set_app_L, list_to_set_cons. set_solver. }
  rewrite Hfold, update_graph_edges_eq. set_solver.
Qed.

Lemma edge_list_children (t : tree) :
  (edge_list t).*2 = tail (preorder t).
Proof.
  induction t as [i ks IH] using tree_ind_forall.
  cbn [edge_list preorder tail].
  induction ks as [|k ks IHks]; [done|].
  apply Forall_cons in IH as [Hk Hks]. cbn [flat_map].
  rewrite fmap_app, (IHks Hks). f_equal.
  rewrite fmap_cons, Hk. by destruct k.
Qed.

Lemma edge_list_NoDup (t : tree) : NoDup (preorder t) → NoDup (edge_list t).
Proof.
  intros Hnd. apply (NoDup_fmap_1 snd). rewrite edge_list_children.
  destruct (preorder t) as [|x l]; [constructor|].
  by apply NoDup_cons in Hnd as [_ ?].
Qed.

Lemma edge_list_length (t : tree) :
  length (edge_list t) = (length (preorder t) - 1)%nat.
Proof.
  rewrite <- (length_fmap snd), edge_list_children.
  destruct (preorder t); simpl; lia.
Qed.
(** ** The indexer: what a traversal keeps *)

Section MoreTraversal.
Variable notion : source.
Variable md5 : string → string.
Variable split_text : string → list string.
Variable store_fails : nat → bool.

Abbreviation visit_page := (visit_page md5 split_text store_fails).
Abbreviation index_page := (index_page split_text store_fails).
Abbreviation process_page := (process_page notion md5 split_text store_fails).
Abbreviation run := (run notion md5 split_text store_fails).

(** What a visit that returns does to the fields it is not about. *)
Lemma visit_page_fields pid parent page s s' :
  visit_page pid parent page s = Done s' →
  pages_processed s' = pages_processed s + 1
  ∧ total_pages_found s'
    = total_pages_found s + Z.of_nat (length (child_pages page))
  ∧ root_page_id s' = root_page_id s
  ∧ knowledge_graph_file s' = knowledge_graph_file s
  ∧ ∃ title, title_of page = Ok title
             ∧ knowledge_graph s'
               = update_graph pid title parent (knowledge_graph s).
Proof.
  intros Hv.
  destruct (visit_page_cases md5 split_text store_fails pid parent page s)
    as [(e & Ht & Hv')|[(title & es & Ht & _ & _ & _ & Hv')|(title & Ht & Hout & Hne & Hs & Hv')]];
    rewrite Hv' in Hv; try done; injection Hv as <-.
  - rewrite emit_all_trace. destruct s. state_simpl.
    repeat (split; [done|]). by exists title.
  - rewrite index_page_spec by done. destruct s. state_simpl.
    repeat (split; [done|]). by exists title.
Qed.

Lemma fetch_fields pid s :
  pages_processed (fetch notion pid s).1 = pages_processed s
  ∧ total_pages_found (fetch notion pid s).1 = total_pages_found s
  ∧ root_page_id (fetch notion pid s).1 = root_page_id s
  ∧ knowledge_graph (fetch notion pid s).1 = knowledge_graph s
  ∧ knowledge_graph_file (fetch notion pid s).1 = knowledge_graph_file s
  ∧ hash_store (fetch notion pid s).1 = hash_store s
  ∧ processed_pages (fetch notion pid s).1 = processed_pages s
  ∧ vector_store (fetch notion pid s).1 = vector_store s
  ∧ hash_store_file (fetch notion pid s).1 = hash_store_file s
  ∧ processed_pages_file (fetch notion pid s).1 = processed_pages_file s.
Proof.
  rewrite fetch_result. cbn [fst]. rewrite emit_all_trace.
  destruct s. by state_simpl.
Qed.

(** The two progress counters over a traversal that returns. *)
Lemma process_page_counters (depth : nat) :
  ∀ pid parent s s',
    process_page depth pid parent s = Done s' →
    ∃ l, fetches (trace s') = fetches (trace s) ++ l
         ∧ pages_processed s' = pages_processed s + Z.of_nat (length l)
         ∧ total_pages_found s'
           = total_pages_found s + Z.of_nat (length l) - 1.
Proof.
  induction depth as [|depth IH]; intros pid parent s s' Hrun; [done|].
  simpl in Hrun. destruct (fetch notion pid s) as [sf r] eqn:Hf.
  assert (Hr : r = (get_page_content notion pid).2)
    by (rewrite fetch_result in Hf; by injection Hf).
  assert (Hsf : sf = (fetch notion pid s).1) by (by rewrite Hf).
  destruct r as [page|e]; [|done].
  destruct (visit_page pid parent page sf) as [sv|e sv|] eqn:Hv; [|done..].
  assert (Hfv : fetches (trace sv) = fetches (trace s) ++ [pid]).
  { rewrite (visit_page_fetches _ _ _ _ _ _ _ _ Hv), Hsf, fetch_result.
    apply fetches_emit_all_print. }
  destruct (visit_page_fields _ _ _ _ _ Hv) as (Hpp & Htf & _).
  destruct (fetch_fields pid s) as (Hpp0 & Htf0 & _).
  rewrite <- Hsf in Hpp0, Htf0. rewrite Hpp0 in Hpp. rewrite Htf0 in Htf.
  assert (Hloop : ∀ cs u u',
            for_each (λ child, process_page depth (child_page_id child) (Some pid))
              cs u = Done u' →
            ∃ l, fetches (trace u') = fetches (trace u) ++ l
                 ∧ pages_processed u' = pages_processed u + Z.of_nat (length l)
                 ∧ total_pages_found u'
                   = total_pages_found u + Z.of_nat (length l)
                     - Z.of_nat (length cs)).
  { clear -IH. induction cs as [|c cs IHcs]; intros u u' Hfe.
    - simpl in Hfe. injection Hfe as <-. exists []. rewrite app_nil_r.
      simpl. repeat split; lia.
    - simpl in Hfe.
      destruct (process_page depth (child_page_id c) (Some pid) u)
        as [u1|e u1|] eqn:Hc; [|done..].
      destruct (IH _ _ _ _ Hc) as (l1 & Hf1 & Hp1 & Ht1).
      destruct (IHcs _ _ Hfe) as (l2 & Hf2 & Hp2 & Ht2).
      exists (l1 ++ l2). split; [by rewrite Hf2, Hf1, app_assoc|].
      rewrite length_app. simpl length. split; lia. }
  unfold descend in Hrun. destruct (child_pages page) as [|c cs] eqn:Hcp.
  - injection Hrun as <-. exists [pid]. simpl in *. repeat split; [done|lia..].
  - destruct (Hloop _ _ _ Hrun) as (l & Hfl & Hpl & Htl).
    exists ([pid] ++ l). split.
    + rewrite Hfl. cbn [trace emit]. rewrite fetches_app, fetches_log, app_nil_r.
      by rewrite Hfv, <- app_assoc.
    + cbn [pages_processed total_pages_found emit] in Hpl, Htl.
      rewrite length_app. simpl length in *. split; lia.
Qed.

(** X7. The progress counters agree when a run returns: the number of
    pages processed and the number of pages found are both the number of
    pages fetched during the run, which is also the number the closing log
    record reports. *)
Theorem run_counters_agree (depth : nat) (s s' : indexer) :
  run depth s = Done s' →
  ∃ l, fetches (trace s') = fetches (trace s) ++ l
       ∧ pages_processed s' = Z.of_nat (length l)
       ∧ total_pages_found s' = Z.of_nat (length l)
       ∧ last (logged (trace s')) = Some (log_complete (Z.of_nat (length l))).
Proof.
  unfold run. intros Hrun.
  set (a0 := set_counters 1 0 (load_processed_pages (emit (ev_log log_start) s)))
    in Hrun.
  destruct (process_page depth (root_page_id a0) None a0) as [a1| |] eqn:Ha;
    [|done..].
  injection Hrun as <-.
  destruct (process_page_counters _ _ _ _ _ Ha) as (l & Hf & Hp & Ht).
  assert (H0 : fetches (trace a0) = fetches (trace s)
               ∧ pages_processed a0 = 0 ∧ total_pages_found a0 = 1).
  { unfold a0, load_processed_pages. destruct s. state_simpl.
    destruct processed_pages_file0; state_simpl;
      rewrite fetches_app, fetches_log, app_nil_r; done. }
  destruct H0 as (Hf0 & Hp0 & Ht0). clearbody a0.
  exists l.
  cbn [trace pages_processed total_pages_found emit save_knowledge_graph].
  rewrite !fetches_app, fetches_log, !app_nil_r.
  split; [by rewrite Hf, Hf0|]. split; [lia|]. split; [lia|].
  unfold logged. rewrite omap_app. cbn [omap list_omap].
  rewrite last_snoc. do 2 f_equal. lia.
Qed.
Lemma tagged_app pid (d1 d2 : list (string * metadata)) :
  tagged pid (d1 ++ d2) = tagged pid d1 ++ tagged pid d2.
Proof. apply filter_app. Qed.

Lemma tagged_stored_other pid other title (l : list (string * bool)) :
  other ≠ pid → tagged other (stored pid title l) = [].
Proof.
  intros Hne. unfold tagged, stored.
  induction (filter _ l) as [|x xs IH]; [done|].
  simpl. rewrite filter_cons_False; [done|]. simpl. congruence.
Qed.

Lemma tagged_purged_other pid other (docs : list (string * metadata)) :
  other ≠ pid →
  tagged other (filter (λ d, meta_page_id d.2 ≠ pid) docs) = tagged other docs.
Proof.
  intros Hne. unfold tagged. induction docs as [|d docs IH]; [done|].
  rewrite (filter_cons (λ d, meta_page_id d.2 ≠ pid)).
  destruct (decide (meta_page_id d.2 ≠ pid)) as [Hd|Hd].
  - rewrite !filter_cons. destruct (decide (meta_page_id d.2 = other)); by rewrite IH.
  - rewrite IH. rewrite filter_cons_False; [done|].
    intros Heq. apply Hd. congruence.
Qed.

(** X8. A visit only touches the vectors of the page it visits: for every
    other page id, the vectors tagged with that id are the same before and
    after, whichever branch the visit takes and whatever the store does. *)
Theorem visit_page_touches_own_vectors pid parent page s s' other :
  final_state (visit_page pid parent page s) = Some s' →
  other ≠ pid →
  tagged other (vector_store s') = tagged other (vector_store s).
Proof.
  intros Hfin Hne.
  destruct (visit_page_cases md5 split_text store_fails pid parent page s)
    as [(e & Ht & Hv)|[(title & es & Ht & _ & _ & _ & Hv)|(title & Ht & Hout & Hh & Hs & Hv)]];
    rewrite Hv in Hfin; injection Hfin as <-.
  - by destruct s.
  - rewrite emit_all_trace. by destruct s.
  - rewrite index_page_spec by done. destruct s. state_simpl.
    rewrite tagged_app, tagged_stored_other, app_nil_r by done.
    destruct (store_fails store_calls0); [done|].
    by apply tagged_purged_other.
Qed.

(** Over a traversal: the graph file is not written, the root id is kept,
    and what a restart would read back stays what is in memory. *)
Lemma process_page_files depth pid parent s s' :
  final_state (process_page depth pid parent s) = Some s' →
  knowledge_graph_file s' = knowledge_graph_file s
  ∧ root_page_id s' = root_page_id s
  ∧ (restorable s → restorable s').
Proof.
  apply (process_page_preserves notion md5 split_text store_fails
           (λ s s', knowledge_graph_file s' = knowledge_graph_file s
                    ∧ root_page_id s' = root_page_id s
                    ∧ (restorable s → restorable s'))).
  - by intros ?.
  - intros s1 s2 s3 (? & ? & ?) (? & ? & ?).
    split; [congruence|]. split; [congruence|auto].
  - intros e []. unfold restorable. by state_simpl.
  - clear. intros pid parent page s s' Hfin.
    destruct (visit_page_cases md5 split_text store_fails pid parent page s)
      as [(e & Ht & Hv)|[(title & es & Ht & _ & _ & _ & Hv)|(title & Ht & Hout & Hh & Hs & Hv)]];
      rewrite Hv in Hfin; injection Hfin as <-.
    + destruct s. unfold restorable. by state_simpl.
    + rewrite emit_all_trace. destruct s. unfold restorable. by state_simpl.
    + rewrite index_page_spec by done. destruct s. unfold restorable.
      by state_simpl.
Qed.

Lemma run_start_restorable root docs hf gf pf :
  restorable
    (set_counters 1 0
       (load_processed_pages
          (emit (ev_log log_start) (new_indexer root docs hf gf pf)))).
Proof.
  unfold restorable, load_processed_pages, new_indexer. state_simpl.
  destruct pf; by state_simpl.
Qed.

(** X9. Restarting after a run that returned loses nothing: a new indexer
    object built over the files the run left, once its ProcessedSet is
    loaded, holds the same ContentHash, ProcessedSet and graph as the
    object that ran. *)
Theorem restart_after_run root docs hf gf pf (depth : nat) (s1 : indexer) :
  run depth (new_indexer root docs hf gf pf) = Done s1 →
  hash_store (restart s1) = hash_store s1
  ∧ processed_pages (restart s1) = processed_pages s1
  ∧ knowledge_graph (restart s1) = knowledge_graph s1
  ∧ root_page_id (restart s1) = root.
Proof.
  unfold run. intros Hrun.
  pose proof (run_start_restorable root docs hf gf pf) as Hres.
  set (a0 := set_counters 1 0 _) in *.
  assert (Hroot0 : root_page_id a0 = root).
  { unfold a0, load_processed_pages, new_indexer. state_simpl.
    destruct pf; by state_simpl. }
  clearbody a0.
  destruct (process_page depth (root_page_id a0) None a0) as [a1| |] eqn:Ha;
    [|done..].
  injection Hrun as <-.
  destruct (process_page_files depth (root_page_id a0) None a0 a1)
    as (_ & Hroot & Hkeep); [by rewrite Ha|].
  destruct (Hkeep Hres) as [Hh Hp]. clear -Hh Hp Hroot Hroot0.
  unfold restart, load_processed_pages, new_indexer.
  destruct a1. state_simpl_all. subst.
  destruct processed_pages_file0; by state_simpl.
Qed.

(** X10. When a run fails (a fetch or a title lookup raised), the graph
    file is left as it was before the run, so what the run added to the
    graph is lost on restart, while ContentHash and ProcessedSet are read
    back as they were in memory at the failure. *)
Theorem failed_run_keeps_hashes_loses_graph root docs hf gf pf
    (depth : nat) (e : exn) (s1 : indexer) :
  run depth (new_indexer root docs hf gf pf) = Failed e s1 →
  knowledge_graph_file s1 = gf
  ∧ knowledge_graph (restart s1) = default empty_graph gf
  ∧ hash_store (restart s1) = hash_store s1
  ∧ processed_pages (restart s1) = processed_pages s1.
Proof.
  unfold run. intros Hrun.
  pose proof (run_start_restorable root docs hf gf pf) as Hres.
  set (a0 := set_counters 1 0 _) in *.
  assert (Hg0 : knowledge_graph_file a0 = gf).
  { unfold a0, load_processed_pages, new_indexer. state_simpl.
    destruct pf; by state_simpl. }
  clearbody a0.
  destruct (process_page depth (root_page_id a0) None a0) as [a1|e' a1|] eqn:Ha;
    [done| |done].
  injection Hrun as <- <-.
  destruct (process_page_files depth (root_page_id a0) None a0 a1)
    as (Hg & _ & Hkeep); [by rewrite Ha|].
  destruct (Hkeep Hres) as [Hh Hp]. rewrite Hg0 in Hg. clear -Hh Hp Hg.
  unfold restart, load_processed_pages, new_indexer.
  destruct a1. state_simpl_all. subst.
  destruct processed_pages_file0; by state_simpl.
Qed.
(** X11. Once a page has a fingerprint it is never indexed again. As long
    as every id with a fingerprint is in ProcessedSet (they are written
    together), a traversal leaves every existing ContentHash entry and the
    vectors of every such page as they are, however the page's text has
    changed; it only adds entries. *)
Theorem fingerprints_are_never_updated depth pid parent s s' :
  hashed_are_processed s →
  final_state (process_page depth pid parent s) = Some s' →
  hashed_are_processed s'
  ∧ hash_store s ⊆ hash_store s'
  ∧ (∀ p h, hash_store s !! p = Some h → hash_store s' !! p = Some h)
  ∧ (∀ p, is_Some (hash_store s !! p) →
       tagged p (vector_store s') = tagged p (vector_store s)).
Proof.
  intros HJ Hfin.
  assert (H : hashed_are_processed s →
              hashed_are_processed s'
              ∧ hash_store s ⊆ hash_store s'
              ∧ ∀ p, is_Some (hash_store s !! p) →
                  tagged p (vector_store s') = tagged p (vector_store s)).
  { revert Hfin.
    apply (process_page_preserves notion md5 split_text store_fails
             (λ s s', hashed_are_processed s →
                      hashed_are_processed s'
                      ∧ hash_store s ⊆ hash_store s'
                      ∧ ∀ p, is_Some (hash_store s !! p) →
                          tagged p (vector_store s') = tagged p (vector_store s))).
    - by intros ??.
    - intros s1 s2 s3 H12 H23 H1.
      destruct (H12 H1) as (H2 & Hsub12 & Hv12).
      destruct (H23 H2) as (H3 & Hsub23 & Hv23).
      split; [done|]. split; [by etrans|]. intros p [h Hp].
      rewrite Hv23, Hv12; eauto.
      exists h. by eapply lookup_weaken.
    - intros e []. unfold hashed_are_processed. by state_simpl.
    - clear. intros pid parent page s s' Hfin HJ.
      destruct (visit_page_cases md5 split_text store_fails pid parent page s)
        as [(e & Ht & Hv)|[(title & es & Ht & _ & _ & _ & Hv)|(title & Ht & Hout & Hh & Hs & Hv)]];
        rewrite Hv in Hfin; injection Hfin as <-.
      + destruct s. unfold hashed_are_processed in *. by state_simpl_all.
      + rewrite emit_all_trace. destruct s.
        unfold hashed_are_processed in *. by state_simpl_all.
      + assert (Hnone : hash_store s !! pid = None).
        { apply not_elem_of_dom. intros Hd. apply Hout. by apply HJ. }
        rewrite index_page_spec by done. destruct s.
        unfold hashed_are_processed in *. state_simpl_all.
        split; [|split].
        * rewrite dom_insert_L. by apply union_mono_l.
        * by apply insert_subseteq.
        * intros p [h Hp].
          assert (p ≠ pid) by congruence.
          rewrite tagged_app, tagged_stored_other, app_nil_r by done.
          destruct (store_fails store_calls0); [done|].
          by apply tagged_purged_other. }
  destruct (H HJ) as (HJ' & Hsub & Hvec).
  split; [done|]. split; [done|]. split; [|done].
  intros p h Hp. by eapply lookup_weaken.
Qed.

(** X12. A page whose block request is refused is visited as an empty
    page: with a splitter that yields no chunk for the empty text, the
    traversal of that page returns without indexing it, without a
    ContentHash entry, and without fetching anything below it, and the page
    is still recorded in the graph under its title. *)
Theorem refused_blocks_prune_subtree depth pid parent s dump props title :
  status_code (pages_endpoint notion pid) = 200 →
  payload (pages_endpoint notion pid) = Json dump (Some props) →
  page_title (read_properties props ∅) = Ok title →
  status_code (blocks_endpoint notion pid) ≠ 200 →
  split_text "" = [] →
  ∃ s', process_page (S depth) pid parent s = Done s'
        ∧ fetches (trace s') = fetches (trace s) ++ [pid]
        ∧ hash_store s' = hash_store s
        ∧ processed_pages s' = processed_pages s
        ∧ vector_store s' = vector_store s
        ∧ nodes (knowledge_graph s') !! pid = Some (Some title).
Proof.
  intros Hs Hp Ht Hb Hsplit.
  set (page := mkPage pid (read_properties props ∅) "" []).
  assert (Hget : (get_page_content notion pid).2 = Ok page).
  { unfold get_page_content, get_page_blocks.
    by rewrite (decide_True _ _ Hs), Hp, (decide_False _ _ Hb). }
  cbn [process_page]. rewrite fetch_result, Hget.
  set (sf := emit_all _ _).
  assert (Hsf : sf = (fetch notion pid s).1) by (by rewrite fetch_result).
  destruct (fetch_fields pid s) as (_ & _ & _ & _ & _ & Hh & Hpr & Hv & _).
  rewrite <- Hsf in Hh, Hpr, Hv.
  assert (Hfs : fetches (trace sf) = fetches (trace s) ++ [pid])
    by apply fetches_emit_all_print.
  clearbody sf.
  destruct (visit_page_cases md5 split_text store_fails pid parent page sf)
    as [(e & Ht' & _)|[(title' & es & Ht' & _ & _ & Hes & Hvis)|(? & _ & _ & _ & Hne & _)]].
  - unfold title_of in Ht'. cbn [content page] in Ht'. congruence.
  - assert (title' = title) as ->.
    { unfold title_of in Ht'. cbn [content page] in Ht'. congruence. }
    rewrite Hvis. unfold descend. cbn [child_pages page].
    eexists. split; [reflexivity|].
    rewrite emit_all_trace. destruct sf. state_simpl_all.
    rewrite fetches_app, Hes, app_nil_r. repeat (split; [done|]).
    apply graph_has_update.
  - by cbn [full_content page] in Hne.
Qed.
(** As [process_page_preserves], for relations that hold of the visit of a
    page as the source serves it. *)
Lemma process_page_preserves_fetched (R : relation indexer) :
  Reflexive R → Transitive R →
  (∀ e s, R s (emit e s)) →
  (∀ pid parent page s s',
     (get_page_content notion pid).2 = Ok page →
     final_state (visit_page pid parent page s) = Some s' → R s s') →
  ∀ depth pid parent s s',
    final_state (process_page depth pid parent s) = Some s' → R s s'.
Proof.
  intros Hrefl Htrans Hemit Hvisit.
  induction depth as [|depth IH]; intros pid parent s s' Hfin; [done|].
  simpl in Hfin. rewrite fetch_result in Hfin.
  set (s1 := emit_all _ _) in Hfin.
  assert (H1 : R s s1).
  { unfold s1. etrans; [apply (Hemit (ev_fetch pid))|].
    by apply emit_all_preserves. }
  destruct (get_page_content notion pid).2 as [page|e] eqn:Hget.
  2:{ simpl in Hfin. by injection Hfin as <-. }
  destruct (visit_page pid parent page s1) as [s2|e s2|] eqn:Hv.
  - assert (H2 : R s1 s2) by (apply (Hvisit pid parent page); [done|by rewrite Hv]).
    unfold descend in Hfin. destruct (child_pages page) as [|c cs].
    + simpl in Hfin. injection Hfin as <-. by etrans.
    + etrans; [exact H1|]. etrans; [exact H2|]. etrans; [apply Hemit|].
      eapply (for_each_preserves R); [done..| |exact Hfin].
      intros x t t' _. apply IH.
  - simpl in Hfin. injection Hfin as <-. etrans; [exact H1|].
    apply (Hvisit pid parent page); [done|]. by rewrite Hv.
  - done.
Qed.

(** X13. ContentHash only ever holds fingerprints of indexable text: if
    every entry is the fingerprint of the text the source serves for its id
    and that text has a chunk, the same is true in whatever state a
    traversal ends, returned or failed. In particular it is true of every
    entry written by a run that started without entries. *)
Theorem content_hash_stays_sound depth pid parent s s' :
  hash_sound notion md5 split_text s →
  final_state (process_page depth pid parent s) = Some s' →
  hash_sound notion md5 split_text s'.
Proof.
  intros Hs Hfin. revert Hs. revert Hfin.
  apply (process_page_preserves_fetched
           (λ s s', hash_sound notion md5 split_text s →
                    hash_sound notion md5 split_text s')).
  - by intros ??.
  - intros s1 s2 s3 H12 H23 H1. auto.
  - intros e []. unfold hash_sound. by state_simpl.
  - clear. intros pid parent page s s' Hget Hfin Hsound.
    destruct (visit_page_cases md5 split_text store_fails pid parent page s)
      as [(e & Ht & Hv)|[(title & es & Ht & _ & _ & _ & Hv)|(title & Ht & Hout & Hh & Hs & Hv)]];
      rewrite Hv in Hfin; injection Hfin as <-.
    + destruct s. unfold hash_sound in *. by state_simpl_all.
    + rewrite emit_all_trace. destruct s. unfold hash_sound in *.
      by state_simpl_all.
    + rewrite index_page_spec by done. destruct s. unfold hash_sound in *.
      state_simpl_all. intros p h page' Hlook Hget'.
      destruct (decide (p = pid)) as [->|Hne].
      * rewrite lookup_insert_eq in Hlook. injection Hlook as <-.
        assert (page' = page) as -> by congruence. done.
      * rewrite lookup_insert_ne in Hlook by done. by eapply Hsound.
Qed.
(** The graph after the traversal of a corpus that unfolds into a tree. *)
Lemma process_page_tree_graph (depth : nat) :
  ∀ t parent s s',
    unfolds notion t →
    process_page depth (root t) parent s = Done s' →
    knowledge_graph s'
    = tree_graph (title_at notion) t parent (knowledge_graph s).
Proof.
  induction depth as [|depth IH]; intros t parent s s' Hu Hrun; [done|].
  inversion Hu as [i ks page title Hget Htitle Hkids Hall]; subst t.
  cbn [root] in Hrun. cbn [process_page] in Hrun.
  destruct (fetch notion i s) as [sf r] eqn:Hf.
  assert (Hr : r = Ok page)
    by (rewrite fetch_result in Hf; injection Hf as _ <-; done).
  assert (Hsf : sf = (fetch notion i s).1) by (by rewrite Hf).
  subst r.
  destruct (visit_page i parent page sf) as [sv|e sv|] eqn:Hv; [|done..].
  destruct (visit_page_fields _ _ _ _ _ Hv) as (_ & _ & _ & _ & title' & Ht' & Hg).
  assert (title' = title) as -> by congruence.
  destruct (fetch_fields i s) as (_ & _ & _ & Hg0 & _).
  rewrite <- Hsf in Hg0. rewrite Hg0 in Hg.
  assert (Hti : title_at notion i = title).
  { unfold title_at. by rewrite Hget, Htitle. }
  assert (Hloop : ∀ ks cs u u',
            child_page_id <$> cs = root <$> ks →
            Forall (unfolds notion) ks →
            for_each (λ child, process_page depth (child_page_id child) (Some i))
              cs u = Done u' →
            knowledge_graph u'
            = foldl (λ g k, tree_graph (title_at notion) k (Some i) g)
                (knowledge_graph u) ks).
  { clear -IH. induction ks as [|k ks IHks]; intros cs u u' Hcs Hall Hfe.
    - destruct cs; [|done]. simpl in Hfe. by injection Hfe as <-.
    - destruct cs as [|c cs]; [done|]. simpl in Hcs.
      injection Hcs as Hc Hcs. apply Forall_cons in Hall as [Hk Hall].
      simpl in Hfe. rewrite Hc in Hfe.
      destruct (process_page depth (root k) (Some i) u) as [u1|e u1|] eqn:Hk1;
        [|done..].
      cbn [foldl]. rewrite <- (IH _ _ _ _ Hk Hk1). by apply (IHks cs). }
  cbn [tree_graph]. rewrite Hti, <- Hg.
  unfold descend in Hrun. destruct (child_pages page) as [|c cs] eqn:Hcp.
  - destruct ks; [|done]. by injection Hrun as <-.
  - by rewrite (Hloop ks (c :: cs) _ _ Hkids Hall Hrun).
Qed.

(** What a run over a tree-shaped corpus leaves in the graph. *)
Lemma run_on_tree (t : tree) (s : indexer) (depth : nat) :
  unfolds notion t →
  root_page_id s = root t →
  (height t ≤ depth)%nat →
  ∃ s', run depth s = Done s'
    ∧ knowledge_graph s'
      = tree_graph (title_at notion) t None (knowledge_graph s)
    ∧ knowledge_graph_file s' = Some (knowledge_graph s')
    ∧ (∀ i, i ∈ preorder t →
         nodes (knowledge_graph s') !! i = Some (Some (title_at notion i)))
    ∧ (knowledge_graph s = empty_graph →
       NoDup (preorder t) → "" ∉ preorder t →
         size (nodes (knowledge_graph s')) = length (preorder t)
         ∧ size (edges (knowledge_graph s')) = (length (preorder t) - 1)%nat
         ∧ edges (knowledge_graph s') = list_to_set (edge_list t)).
Proof.
  intros Hu Hroot Hh. unfold run.
  set (s0 := set_counters 1 0 (load_processed_pages (emit (ev_log log_start) s))).
  assert (H0 : root_page_id s0 = root t ∧ knowledge_graph s0 = knowledge_graph s).
  { unfold s0, load_processed_pages. destruct s. state_simpl_all.
    destruct processed_pages_file0; by state_simpl. }
  destruct H0 as [Hr Hg0]. clearbody s0.
  destruct (process_page_tree notion md5 split_text store_fails depth t None s0
              Hu Hh) as (s1 & Hrun & _).
  pose proof (process_page_tree_graph depth t None s0 s1 Hu Hrun) as Hg.
  rewrite Hg0 in Hg. rewrite Hr, Hrun. eexists. split; [reflexivity|].
  cbn [knowledge_graph knowledge_graph_file emit save_knowledge_graph].
  split; [exact Hg|]. split; [done|]. rewrite Hg. split.
  - intros i Hi. by apply tree_graph_titles.
  - intros He Hnd Hne. rewrite He.
    rewrite <- size_dom, tree_graph_dom, tree_graph_edges by done.
    cbn [empty_graph nodes edges parent_node parent_edge].
    rewrite dom_empty_L, !(left_id_L ∅ (∪)), !(right_id_L ∅ (∪)).
    rewrite !size_list_to_set by (done || by apply edge_list_NoDup).
    by rewrite edge_list_length.
Qed.

(** X14. The graph a run builds over a tree-shaped corpus. The run returns
    with the graph it started from extended by the updates of the tree in
    preorder, saved to the graph file; every page of the tree is a node
    carrying its title. Started from the empty graph, with page ids that
    are distinct and not empty, the graph has exactly one node per page and
    one edge per child reference (one less than the number of pages), the
    edges being the parent->child pairs of the tree. *)
Theorem run_builds_tree_graph (t : tree) (s : indexer) (depth : nat) :
  unfolds notion t →
  root_page_id s = root t →
  (height t ≤ depth)%nat →
  ∃ s', run depth s = Done s'
    ∧ knowledge_graph s'
      = tree_graph (title_at notion) t None (knowledge_graph s)
    ∧ knowledge_graph_file s' = Some (knowledge_graph s')
    ∧ (∀ i, i ∈ preorder t →
         nodes (knowledge_graph s') !! i = Some (Some (title_at notion i)))
    ∧ (knowledge_graph s = empty_graph →
       NoDup (preorder t) → "" ∉ preorder t →
         size (nodes (knowledge_graph s')) = length (preorder t)
         ∧ size (edges (knowledge_graph s')) = (length (preorder t) - 1)%nat
         ∧ edges (knowledge_graph s') = list_to_set (edge_list t)).
Proof. apply run_on_tree. Qed.
(** Where a traversal that fails stops. *)
Lemma process_page_failure (depth : nat) :
  ∀ pid parent s e s',
    process_page depth pid parent s = Failed e s' →
    ∃ before failing out,
      trace s' = trace s ++ before ++ ev_fetch failing :: map ev_print out
      ∧ (get_page_content notion failing = (out, Raise e)
         ∨ ∃ page, get_page_content notion failing = (out, Ok page)
                   ∧ title_of page = Raise e).
Proof.
  induction depth as [|depth IH]; intros pid parent s e s' Hrun; [done|].
  simpl in Hrun. unfold fetch in Hrun.
  destruct (get_page_content notion pid) as [out r] eqn:Hget.
  set (sf := emit_all (map ev_print out) (emit (ev_fetch pid) s)) in Hrun.
  assert (Hsf : trace sf = trace s ++ [] ++ ev_fetch pid :: map ev_print out).
  { unfold sf. rewrite emit_all_trace. cbn [trace emit].
    by rewrite <- app_assoc. }
  destruct r as [page|e0].
  2:{ injection Hrun as <- <-. exists [], pid, out. split; [done|by left]. }
  destruct (visit_page pid parent page sf) as [sv|e1 sv|] eqn:Hv; [| |done].
  - assert (Hext : ∃ mid, trace sv = trace s ++ mid).
    { assert (Hd : durable_step sf sv)
        by (apply (durable_step_visit md5 split_text store_fails pid parent
                     page); by rewrite Hv).
      destruct Hd as (_ & _ & _ & [mid Hmid]).
      exists ((ev_fetch pid :: map ev_print out) ++ mid).
      rewrite Hmid, Hsf. cbn [app]. by rewrite <- app_assoc. }
    destruct Hext as [mid Hmid].
    assert (Hloop : ∀ cs u,
              for_each (λ child, process_page depth (child_page_id child) (Some pid))
                cs u = Failed e s' →
              ∃ before failing out',
                trace s' = trace u ++ before ++ ev_fetch failing :: map ev_print out'
                ∧ (get_page_content notion failing = (out', Raise e)
                   ∨ ∃ page', get_page_content notion failing = (out', Ok page')
                              ∧ title_of page' = Raise e)).
    { clear -IH. induction cs as [|c cs IHcs]; intros u Hfe; [done|].
      simpl in Hfe.
      destruct (process_page depth (child_page_id c) (Some pid) u)
        as [u1|e1 u1|] eqn:Hc; [| |done].
      - destruct (IHcs u1 Hfe) as (before & failing & out' & Htr & Hwhy).
        assert (Hpre : trace u `prefix_of` trace u1).
        { assert (Hd : durable_step u u1).
          { eapply (process_page_preserves notion md5 split_text store_fails
                      durable_step);
              [apply durable_step_refl
              |apply (durable_step_trans md5 split_text)
              |apply durable_step_emit
              |apply (durable_step_visit md5 split_text store_fails)
              |by rewrite Hc]. }
          by destruct Hd as (_ & _ & _ & ?). }
        destruct Hpre as [mid Hmid]. exists (mid ++ before), failing, out'.
        split; [|done]. rewrite Htr, Hmid. by rewrite <- !app_assoc.
      - injection Hfe as <- <-. by apply IH in Hc. }
    unfold descend in Hrun. destruct (child_pages page) as [|c cs]; [done|].
    destruct (Hloop _ _ Hrun) as (before & failing & out' & Htr & Hwhy).
    cbn [trace emit] in Htr. rewrite Hmid in Htr.
    eexists (mid ++ [_] ++ before), failing, out'. split; [|done].
    rewrite Htr. by rewrite <- !app_assoc.
  - injection Hrun as <- <-.
    destruct (visit_page_cases md5 split_text store_fails pid parent page sf)
      as [(e' & Ht & Hv')|[(? & ? & _ & _ & _ & _ & Hv')|(? & _ & _ & _ & _ & Hv')]];
      rewrite Hv' in Hv; try done.
    injection Hv as <- <-. exists [], pid, out. split.
    + rewrite <- Hsf. by destruct sf.
    + right. by exists page.
Qed.

(** X15. A run that fails stops at the fetch that failed: the last thing
    it did is that fetch and the printing of its diagnostics, nothing is
    fetched, indexed or saved after it, and the exception is the one the
    reader raised for that page or the TypeError of its title lookup. *)
Theorem failed_run_stops_at_failing_fetch (depth : nat) (s : indexer)
    (e : exn) (s' : indexer) :
  run depth s = Failed e s' →
  ∃ before failing out,
    trace s' = trace s ++ before ++ ev_fetch failing :: map ev_print out
    ∧ (get_page_content notion failing = (out, Raise e)
       ∨ ∃ page, get_page_content notion failing = (out, Ok page)
                 ∧ title_of page = Raise e).
Proof.
  unfold run. intros Hrun.
  set (a0 := set_counters 1 0 (load_processed_pages (emit (ev_log log_start) s)))
    in Hrun.
  assert (H0 : trace a0 = trace s ++ [ev_log log_start]).
  { unfold a0, load_processed_pages. destruct s. state_simpl.
    destruct processed_pages_file0; by state_simpl. }
  clearbody a0.
  destruct (process_page depth (root_page_id a0) None a0) as [|e1 a1|] eqn:Ha;
    [done| |done].
  injection Hrun as <- <-.
  destruct (process_page_failure _ _ _ _ _ _ Ha)
    as (before & failing & out & Htr & Hwhy).
  exists ([ev_log log_start] ++ before), failing, out. split; [|done].
  rewrite Htr, H0. by rewrite <- !app_assoc.
Qed.

Lemma submission_results_all_ok (n : nat) (chunks : list string) :
  (∀ k, store_fails k = false) →
  submission_results store_fails n chunks = (λ _, true) <$> chunks.
Proof.
  intros Hok. revert n. induction chunks as [|c cs IH]; intros n; [done|].
  cbn [submission_results]. rewrite Hok, IH. done.
Qed.

Lemma stored_all_ok pid title (chunks : list string) :
  stored pid title (zip chunks ((λ _, true) <$> chunks))
  = (λ c, (c, mkMeta pid title)) <$> chunks.
Proof.
  unfold stored. induction chunks as [|c cs IH]; [done|].
  cbn [fmap list_fmap zip zip_with]. rewrite filter_cons_True by done.
  cbn [map fst]. f_equal. exact IH.
Qed.

(** X16. With a store that never raises, indexing a page leaves, as the
    vectors tagged with its id, exactly its chunks, once each and each with
    the page id and title as metadata: whatever was stored for that id
    before is gone. The statement is up to the order of the vectors: the
    chunks reach the store in the order in which the workers of the pool
    complete, which the code does not fix. *)
Theorem indexed_page_vectors pid parent page title s :
  (∀ k, store_fails k = false) →
  title_of page = Ok title →
  pid ∉ processed_pages s →
  hash_store s !! pid ≠ Some (md5 (full_content page)) →
  split_text (full_content page) ≠ [] →
  ∃ s', visit_page pid parent page s = Done s'
        ∧ tagged pid (vector_store s')
          ≡ₚ (λ c, (c, mkMeta pid title)) <$> split_text (full_content page).
Proof.
  intros Hok Ht Hout Hh Hs. eexists.
  split; [by apply visit_page_index|].
  apply (eq_ind_r (λ l, l ≡ₚ _) (reflexivity _)).
  rewrite index_page_spec by done. destruct s. state_simpl.
  rewrite Hok, submission_results_all_ok, stored_all_ok by done.
  rewrite tagged_app. unfold tagged at 1. rewrite purged_untagged.
  cbn [app]. clear. unfold tagged.
  induction (split_text (full_content page)) as [|c cs IH]; [done|].
  cbn [fmap list_fmap]. rewrite filter_cons_True by done. f_equal. exact IH.
Qed.
End MoreTraversal.

(** ** The tools built on the reader and the indexer *)

(** X17. What the page reader tool answers when the remote source refuses:
    a refused page request gives the error text with the status code; a
    refused block request gives no error at all, the tool answers as for a
    page that has no block. *)
Theorem page_reader_tool_on_refusal (notion : source)
    (builtin_message : exn → string) (dumps : NotionPage → string)
    (pid : string) :
  (status_code (pages_endpoint notion pid) ≠ 200 →
     (page_reader_tool notion builtin_message dumps pid).2
     = "Error reading Notion page: Failed to retrieve page content. Status code: "
       +:+ pretty (status_code (pages_endpoint notion pid)))
  ∧ (∀ dump props,
       status_code (pages_endpoint notion pid) = 200 →
       payload (pages_endpoint notion pid) = Json dump (Some props) →
       status_code (blocks_endpoint notion pid) ≠ 200 →
       (page_reader_tool notion builtin_message dumps pid).2
       = dumps (mkPage pid (read_properties props ∅) "" [])).
Proof.
  unfold page_reader_tool, get_page_content, get_page_blocks. split.
  - intros Hs. by rewrite (decide_False _ _ Hs).
  - intros dump props Hs Hp Hb.
    by rewrite (decide_True _ _ Hs), Hp, (decide_False _ _ Hb).
Qed.


Lemma edge_list_fst (t : tree) (u v : string) :
  (u, v) ∈ edge_list t → u ∈ preorder t.
Proof.
  revert u v. induction t as [i ks IH] using tree_ind_forall. intros u v.
  cbn [edge_list preorder].
  induction ks as [|k ks IHks]; [by intros ?%elem_of_nil|].
  apply Forall_cons in IH as [Hk Hks]. cbn [flat_map].
  intros Hin. apply elem_of_app in Hin as [Hin|Hin].
  - apply elem_of_cons in Hin as [Heq|Hin].
    + injection Heq as -> _. by left.
    + right. apply elem_of_app. left. by eapply Hk.
  - specialize (IHks Hks Hin). apply elem_of_cons in IHks as [->|?]; [by left|].
    right. apply elem_of_app. by right.
Qed.

(** The edges leaving the root of a tree without repeated id. *)
Lemma edge_list_from_root (i : string) (ks : list tree) (v : string) :
  NoDup (preorder (Node i ks)) →
  (i, v) ∈ edge_list (Node i ks) ↔ v ∈ root <$> ks.
Proof.
  cbn [preorder edge_list]. intros Hnd. apply NoDup_cons in Hnd as [Hi _].
  induction ks as [|k ks IHks].
  - split; by intros ?%elem_of_nil.
  - cbn [flat_map] in *. rewrite fmap_cons.
    apply not_elem_of_app in Hi as [Hik Hiks].
    rewrite elem_of_app, !elem_of_cons, (IHks Hiks). split.
    + intros [[Heq|Hin]|Hin]; [left; congruence| |by right].
      exfalso. apply Hik. by eapply edge_list_fst.
    + intros [->|Hin]; [by left; left|by right].
Qed.

Section GraphTool.
Variable notion : source.
Variable md5 : string → string.
Variable split_text : string → list string.
Variable store_fails : nat → bool.
Variable dumps : graph_report → string.

Abbreviation visit_page := (visit_page md5 split_text store_fails).
Abbreviation process_page := (process_page notion md5 split_text store_fails).
Abbreviation run := (run notion md5 split_text store_fails).

(** No traversal removes a node from the graph. *)
Lemma nodes_are_kept_visit pid parent page s s' :
  final_state (visit_page pid parent page s) = Some s' →
  ∀ x, is_Some (nodes (knowledge_graph s) !! x) →
       is_Some (nodes (knowledge_graph s') !! x).
Proof.
  intros Hfin x Hx.
  destruct (visit_page pid parent page s) as [sv|e sv|] eqn:Hv; [| |done].
  - injection Hfin as <-.
    destruct (visit_page_fields md5 split_text store_fails _ _ _ _ _ Hv)
      as (_ & _ & _ & _ & title & _ & ->).
    apply elem_of_dom. rewrite update_graph_dom.
    apply elem_of_dom in Hx. set_solver.
  - injection Hfin as <-.
    destruct (visit_page_cases md5 split_text store_fails pid parent page s)
      as [(e' & Ht & Hv')|[(? & ? & _ & _ & _ & _ & Hv')|(? & _ & _ & _ & _ & Hv')]];
      rewrite Hv' in Hv; try done.
    injection Hv as _ <-. by destruct s.
Qed.

Lemma run_root_is_node (depth : nat) (s s' : indexer) :
  run depth s = Done s' →
  root_page_id s' = root_page_id s
  ∧ is_Some (nodes (knowledge_graph s') !! root_page_id s).
Proof.
  unfold run. intros Hrun.
  set (a0 := set_counters 1 0 (load_processed_pages (emit (ev_log log_start) s)))
    in Hrun.
  assert (Hr0 : root_page_id a0 = root_page_id s).
  { unfold a0, load_processed_pages. destruct s. state_simpl.
    destruct processed_pages_file0; by state_simpl. }
  clearbody a0. rewrite Hr0 in Hrun.
  destruct (process_page depth (root_page_id s) None a0) as [a1| |] eqn:Ha;
    [|done..].
  injection Hrun as <-.
  cbn [root_page_id knowledge_graph emit save_knowledge_graph].
  destruct (process_page_files notion md5 split_text store_fails depth
              (root_page_id s) None a0 a1) as (_ & Hroot & _); [by rewrite Ha|].
  split; [congruence|].
  destruct depth as [|depth]; [done|].
  simpl in Ha. destruct (fetch notion (root_page_id s) a0) as [sf r] eqn:Hf.
  destruct r as [page|e]; [|done].
  destruct (visit_page (root_page_id s) None page sf) as [sv|e sv|] eqn:Hv;
    [|done..].
  destruct (visit_page_fields md5 split_text store_fails _ _ _ _ _ Hv)
    as (_ & _ & _ & _ & title & _ & Hg).
  assert (Hsv : is_Some (nodes (knowledge_graph sv) !! root_page_id s)).
  { rewrite Hg. exists (Some title). apply graph_has_update. }
  revert Hsv.
  apply (descend_preserves notion md5 split_text store_fails
           (λ u u', is_Some (nodes (knowledge_graph u) !! root_page_id s) →
                    is_Some (nodes (knowledge_graph u') !! root_page_id s)))
    with (depth := depth) (pid := root_page_id s) (page := page).
  - by intros ??.
  - intros ??? H12 H23 ?. auto.
  - intros e []. by state_simpl.
  - intros pid parent pg u u' Hfin. by apply (nodes_are_kept_visit pid parent pg).
  - by rewrite Ha.
Qed.
(** X18. The knowledge graph tool needs a run that returned. A new indexer
    that found no graph file has an empty graph, and the tool answers with
    the error text of networkx for the missing root; after any run that
    returned the root is a node, and the tool answers with the report: the
    sizes of the graph, the root id and the titled successors of the root. *)
Theorem knowledge_graph_tool_needs_a_run (depth : nat) (s s' : indexer) :
  (∀ root docs hf pf,
     knowledge_graph_tool dumps (new_indexer root docs hf None pf)
     = "Error exploring knowledge graph: The node " +:+ root
       +:+ " is not in the digraph.")
  ∧ (run depth s = Done s' →
     ∃ children,
       neighbors (knowledge_graph s') (root_page_id s) = Some children
       ∧ knowledge_graph_tool dumps s'
         = dumps (mkReport (size (nodes (knowledge_graph s')))
                    (size (edges (knowledge_graph s'))) (root_page_id s)
                    (set_to_map (λ n, (n, node_title (knowledge_graph s') n))
                       children))
       ∧ (0 < size (nodes (knowledge_graph s')))%nat).
Proof.
  split; [done|]. intros Hrun.
  destruct (run_root_is_node depth s s' Hrun) as [Hroot [a Ha]].
  unfold knowledge_graph_tool, neighbors. rewrite Hroot, Ha.
  eexists. split; [reflexivity|]. split; [reflexivity|].
  destruct (decide (size (nodes (knowledge_graph s')) = 0%nat)) as [Hz|Hz]; [|lia].
  apply map_size_empty_iff in Hz. rewrite Hz in Ha. by rewrite lookup_empty in Ha.
Qed.

(** X19. The report of the knowledge graph tool after a first run over a
    tree-shaped corpus (empty graph before the run, page ids distinct and
    not empty): as many pages as the tree has nodes, one connection less,
    and as children of the root exactly the pages the root refers to, each
    under the title the indexer gave it. *)
Theorem knowledge_graph_tool_on_tree (t : tree) (s : indexer) (depth : nat) :
  unfolds notion t →
  root_page_id s = root t →
  (height t ≤ depth)%nat →
  knowledge_graph s = empty_graph →
  NoDup (preorder t) →
  "" ∉ preorder t →
  ∃ s' report,
    run depth s = Done s'
    ∧ knowledge_graph_tool dumps s' = dumps report
    ∧ total_pages report = length (preorder t)
    ∧ total_connections report = (length (preorder t) - 1)%nat
    ∧ report_root_page_id report = root t
    ∧ dom (root_children report) = list_to_set (root <$> kids t)
    ∧ ∀ k, k ∈ kids t →
        root_children report !! root k = Some (title_at notion (root k)).
Proof.
  intros Hu Hroot Hh He Hnd Hne.
  destruct (run_on_tree notion md5 split_text store_fails t s depth Hu Hroot Hh)
    as (s' & Hrun & Hg & _ & Htitles & Hsizes).
  destruct (Hsizes He Hnd Hne) as (Hn & Hm & Hedges).
  destruct (run_root_is_node depth s s' Hrun) as [Hroot' [a Ha]].
  exists s'. unfold knowledge_graph_tool, neighbors. rewrite Hroot', Ha.
  eexists. split; [exact Hrun|]. split; [reflexivity|].
  cbn [total_pages total_connections report_root_page_id root_children].
  split; [exact Hn|]. split; [exact Hm|]. split; [exact Hroot|].
  assert (Hchildren : ∀ v,
            v ∈ (set_map snd (filter (λ e, e.1 = root_page_id s)
                                (edges (knowledge_graph s'))) : gset string)
            ↔ v ∈ root <$> kids t).
  { intros v. rewrite Hedges, Hroot. destruct t as [i ks]. cbn [root kids].
    rewrite <- (edge_list_from_root i ks v Hnd). rewrite elem_of_map. split.
    - intros ([u w] & -> & Hin). apply elem_of_filter in Hin as [Hu' Hin].
      cbn in Hu'. subst u. by apply elem_of_list_to_set in Hin.
    - intros Hin. exists (i, v). split; [done|]. apply elem_of_filter.
      split; [done|]. by apply elem_of_list_to_set. }
  assert (Hlook : ∀ n x,
            (set_to_map (λ n, (n, node_title (knowledge_graph s') n))
               (set_map snd (filter (λ e, e.1 = root_page_id s)
                               (edges (knowledge_graph s'))) : gset string)
             : gmap string string) !! n = Some x
            ↔ n ∈ root <$> kids t ∧ x = node_title (knowledge_graph s') n).
  { intros n x. rewrite lookup_set_to_map.
    - split.
      + intros (y & Hy & Heq). injection Heq as -> <-. by rewrite <- Hchildren.
      + intros [Hn' ->]. exists n. by rewrite Hchildren.
    - intros y y' _ _ Heq. exact Heq. }
  split.
  - apply set_eq. intros n. rewrite elem_of_dom, elem_of_list_to_set. split.
    + intros [x Hx]. by apply Hlook in Hx as [? _].
    + intros Hn'. eexists. by apply Hlook.
  - intros k Hk. apply Hlook. split; [by apply list_elem_of_fmap_2|].
    unfold node_title. rewrite Htitles; [done|].
    destruct t as [i ks]. cbn [kids preorder] in *. right.
    apply list_elem_of_In, in_flat_map. exists k.
    split; [by apply list_elem_of_In|]. destruct k. by left.
Qed.
End GraphTool.

Lemma code_points_str_take (n : nat) (text : string) :
  code_points (str_take n text) = (n `min` code_points text)%nat.
Proof.
  revert n. induction text as [|c rest IH]; intros n; [simpl; lia|].
  cbn [str_take code_points]. destruct (is_continuation c) eqn:Hc.
  - cbn [code_points]. rewrite Hc, IH. lia.
  - destruct n as [|n]; [done|]. cbn [code_points]. rewrite Hc, IH. lia.
Qed.

Lemma str_take_all (n : nat) (text : string) :
  (code_points text ≤ n)%nat → str_take n text = text.
Proof.
  revert n. induction text as [|c rest IH]; intros n Hlen; [done|].
  cbn [str_take code_points] in *. destruct (is_continuation c).
  - rewrite IH; [done|lia].
  - destruct n as [|n]; [lia|]. rewrite IH; [done|lia].
Qed.

Lemma str_take_prefix (n : nat) (text : string) :
  ∃ rest, text = str_take n text +:+ rest.
Proof.
  revert n. induction text as [|c text IH]; intros n; [by exists ""|].
  cbn [str_take]. destruct (is_continuation c).
  - destruct (IH n) as [rest Hrest]. exists rest.
    rewrite append_cons. by rewrite <- Hrest.
  - destruct n as [|n]; [by eexists|].
    destruct (IH n) as [rest Hrest]. exists rest.
    rewrite append_cons. by rewrite <- Hrest.
Qed.

(** The cut never splits a code point: what is left over does not start
    with a continuation byte. *)
Lemma str_take_whole (n : nat) (text rest : string) (c : Ascii.ascii) :
  text = str_take n text +:+ String c rest → is_continuation c = false.
Proof.
  revert n. induction text as [|b text IH]; intros n H; [done|].
  cbn [str_take] in H. destruct (is_continuation b) eqn:Hb.
  - rewrite append_cons in H. injection H as H. by apply (IH n).
  - destruct n as [|n].
    + cbn in H. injection H as -> _. exact Hb.
    + rewrite append_cons in H. injection H as H. by apply (IH n).
Qed.

(** X20. What the search tool answers. When the search of the store
    returns, the answer lists one entry per document found, in order, with
    the page id and title of its metadata and a preview: the first 200
    characters (code points) of the text followed by three dots, which are
    added also when nothing was cut (a text of at most 200 characters is
    previewed whole, plus the dots); a character is never cut in two. When
    the search raises, the answer is the error text with the message of
    the exception. *)
Theorem search_tool_previews
    (similarity_search : list (string * metadata) → string → Z →
                         result (list (string * metadata)))
    (builtin_message : exn → string) (dumps : list search_hit → string)
    (s : indexer) (query : string) (max_results : Z) :
  (∀ docs,
     similarity_search (vector_store s) query max_results = Ok docs →
     ∃ hits,
       search_tool similarity_search builtin_message dumps s query max_results
       = dumps hits
       ∧ length hits = length docs
       ∧ ∀ i text meta, docs !! i = Some (text, meta) →
           ∃ cut rest,
             hits !! i = Some (mkHit (meta_page_id meta) (meta_title meta)
                                 (cut +:+ "..."))
             ∧ text = cut +:+ rest
             ∧ code_points cut = (200 `min` code_points text)%nat
             ∧ (∀ c rest', rest = String c rest' → is_continuation c = false)
             ∧ ((code_points text ≤ 200)%nat → cut = text))
  ∧ (∀ msg,
       similarity_search (vector_store s) query max_results
       = Raise (Exception msg) →
       search_tool similarity_search builtin_message dumps s query max_results
       = "Error searching Notion: " +:+ msg).
Proof.
  unfold search_tool. split.
  - intros docs ->. exists (map format_result docs).
    split; [done|]. split; [by rewrite length_map|].
    intros i text meta Hi.
    destruct (str_take_prefix 200 text) as [rest Hrest].
    exists (str_take 200 text), rest.
    split; [|split; [exact Hrest|split; [|split]]].
    + change (map format_result docs) with (format_result <$> docs).
      rewrite list_lookup_fmap, Hi. done.
    + apply code_points_str_take.
    + intros c rest' ->. by apply (str_take_whole 200 text rest').
    + apply str_take_all.
  - by intros msg ->.
Qed.
(** ** Instances of the further properties *)

Section MoreInstances.
Import Demo Cases.

Lemma process_blocks_app_witness :
  process_blocks ([para "root" "hello"] ++ [para "root" "again"])
  = process_blocks [para "root" "hello"] +:+ newline
    +:+ process_blocks [para "root" "again"].
Proof.
  destruct (process_blocks_app [para "root" "hello"] [para "root" "again"])
    as [_ H].
  apply H; discriminate.
Defined.

Lemma read_properties_lookup_witness :
  NoDup three_props.*1
  ∧ read_properties three_props ∅ !! "done" = Some (PBool true)
  ∧ read_properties three_props ∅ !! "misc" = None
  ∧ read_properties three_props ∅ !! "absent" = None.
Proof.
  assert (Hnd : NoDup three_props.*1).
  { apply (bool_decide_unpack (NoDup three_props.*1)). vm_compute. exact I. }
  split; [exact Hnd|].
  destruct (read_properties_lookup three_props "done" Hnd) as [Hdone _].
  destruct (read_properties_lookup three_props "misc" Hnd) as [Hmisc _].
  destruct (read_properties_lookup three_props "absent" Hnd) as [_ Habsent].
  split; [|split].
  - apply (Hdone (prop_checkbox true)). unfold three_props. set_solver.
  - apply (Hmisc prop_other). unfold three_props. set_solver.
  - apply Habsent. intros Hin.
    apply (bool_decide_pack ("absent" ∈ three_props.*1)) in Hin.
    vm_compute in Hin. exact Hin.
Defined.

Lemma get_page_content_returns_witness :
  ∃ page, get_page_content family "root" = ([], Ok page)
          ∧ status_code (pages_endpoint family "root") = 200
          ∧ page_id page = "root".
Proof.
  destruct (get_page_content family "root") as [out [page|e]] eqn:E;
    [|vm_compute in E; discriminate E].
  destruct (get_page_content_returns family "root" out page E)
    as (Hst & dump & props & _ & Hid & _).
  assert (Hout : out = []).
  { apply (f_equal fst) in E. vm_compute in E. by symmetry. }
  subst out. exists page. split; [reflexivity|]. split; [exact Hst|exact Hid].
Defined.

Lemma title_of_fetched_page_witness :
  ∃ out page, get_page_content family "A" = (out, Ok page)
              ∧ title_of page = Ok "A".
Proof.
  destruct (get_page_content family "A") as [out [page|e]] eqn:E;
    [|vm_compute in E; discriminate E].
  assert (Hp : payload (pages_endpoint family "A")
               = Json "" (Some [("title", prop_title ["A"])]))
    by (vm_compute; reflexivity).
  assert (Hnd : NoDup [("title", prop_title ["A"])].*1).
  { apply (bool_decide_unpack (NoDup [("title", prop_title ["A"])].*1)).
    vm_compute. exact I. }
  destruct (title_of_fetched_page family "A" "" _ out page E Hp Hnd)
    as (_ & Ht & _).
  exists out, page. split; [reflexivity|]. apply (Ht "A" []). by left.
Defined.

Lemma refused_blocks_look_empty_witness :
  status_code (blocks_endpoint blocks_refused "P") ≠ 200
  ∧ payload (blocks_endpoint no_blocks "P") = Json "" (Some [])
  ∧ (get_page_content blocks_refused "P").2 = (get_page_content no_blocks "P").2.
Proof.
  assert (H4 : status_code (blocks_endpoint blocks_refused "P") ≠ 200)
    by (vm_compute; discriminate).
  split; [exact H4|]. split; [reflexivity|].
  apply (refused_blocks_look_empty blocks_refused no_blocks "P" "" ""
           [("title", prop_title ["P"])] eq_refl eq_refl eq_refl H4 eq_refl
           eq_refl).
Defined.

Lemma run_counters_agree_witness :
  run family digest split never_fails 3 (fresh "root") = Done first_run
  ∧ pages_processed first_run = 4
  ∧ total_pages_found first_run = 4
  ∧ last (logged (trace first_run)) = Some (log_complete 4).
Proof.
  assert (H1 : run family digest split never_fails 3 (fresh "root")
               = Done first_run) by (vm_compute; reflexivity).
  split; [exact H1|].
  destruct (run_counters_agree family digest split never_fails 3
              (fresh "root") first_run H1) as (l & Hf & Hp & Ht & Hl).
  assert (Hlen : Z.of_nat (length l) = 4).
  { change (fetches (trace (fresh "root")) ++ l) with l in Hf. rewrite <- Hf.
    vm_compute. reflexivity. }
  rewrite Hlen in Hp, Ht, Hl. split; [exact Hp|]. split; [exact Ht|exact Hl].
Defined.

Lemma visit_page_touches_own_vectors_witness :
  ∃ s', final_state (visit_page digest split2 never_fails "A" None two_chunks
                       with_vectors) = Some s'
        ∧ tagged "Z" (vector_store s') = [("x", mkMeta "Z" "Zed")].
Proof.
  destruct (final_state (visit_page digest split2 never_fails "A" None
                           two_chunks with_vectors)) as [s'|] eqn:E;
    [|vm_compute in E; discriminate E].
  exists s'. split; [reflexivity|].
  apply (visit_page_touches_own_vectors digest split2 never_fails "A" None
           two_chunks with_vectors s' "Z" E).
  discriminate.
Defined.

Lemma restart_after_run_witness :
  run family digest split never_fails 3 (new_indexer "root" [] None None None)
  = Done first_run
  ∧ hash_store (restart first_run) = hash_store first_run
  ∧ processed_pages (restart first_run) = processed_pages first_run
  ∧ knowledge_graph (restart first_run) = knowledge_graph first_run.
Proof.
  assert (H1 : run family digest split never_fails 3
                 (new_indexer "root" [] None None None) = Done first_run)
    by (vm_compute; reflexivity).
  split; [exact H1|].
  destruct (restart_after_run family digest split never_fails "root" [] None
              None None 3 first_run H1) as (Hh & Hp & Hg & _).
  split; [exact Hh|]. split; [exact Hp|exact Hg].
Defined.

Lemma failed_run_keeps_hashes_loses_graph_witness :
  ∃ e s1, run orphan digest split never_fails 2
            (new_indexer "root" [] None None None) = Failed e s1
          ∧ is_Some (nodes (knowledge_graph s1) !! "root")
          ∧ knowledge_graph (restart s1) = empty_graph
          ∧ hash_store (restart s1) = hash_store s1
          ∧ is_Some (hash_store s1 !! "root").
Proof.
  destruct (run orphan digest split never_fails 2
              (new_indexer "root" [] None None None)) as [s1|e s1|] eqn:E;
    [vm_compute in E; discriminate E| |vm_compute in E; discriminate E].
  destruct (failed_run_keeps_hashes_loses_graph orphan digest split
              never_fails "root" [] None None None 2 e s1 E)
    as (_ & Hg & Hh & _).
  assert (Hs : final_state (run orphan digest split never_fails 2
                              (new_indexer "root" [] None None None))
               = Some s1) by (by rewrite E).
  exists e, s1. split; [reflexivity|]. split; [|split; [exact Hg|split; [exact Hh|]]].
  - assert (H : (s0 ← final_state (run orphan digest split never_fails 2
                                     (new_indexer "root" [] None None None));
                 nodes (knowledge_graph s0) !! "root")
                = nodes (knowledge_graph s1) !! "root") by (by rewrite Hs).
    rewrite <- H. vm_compute. by eexists.
  - assert (H : (s0 ← final_state (run orphan digest split never_fails 2
                                     (new_indexer "root" [] None None None));
                 hash_store s0 !! "root")
                = hash_store s1 !! "root") by (by rewrite Hs).
    rewrite <- H. vm_compute. by eexists.
Defined.

Lemma fingerprints_are_never_updated_witness :
  hashed_are_processed stale
  ∧ ∃ s', final_state (process_page (single "new") digest split never_fails 1
                         "root" None stale) = Some s'
          ∧ hash_store s' !! "root" = Some (digest "older")
          ∧ tagged "root" (vector_store s') = [("older", mkMeta "root" "root")].
Proof.
  assert (H1 : hashed_are_processed stale).
  { apply (bool_decide_unpack (dom (hash_store stale) ⊆ processed_pages stale)).
    vm_compute. exact I. }
  split; [exact H1|].
  destruct (final_state (process_page (single "new") digest split never_fails
                           1 "root" None stale)) as [s'|] eqn:E;
    [|vm_compute in E; discriminate E].
  destruct (fingerprints_are_never_updated (single "new") digest split
              never_fails 1 "root" None stale s' H1 E) as (_ & _ & Hh & Hv).
  exists s'. split; [reflexivity|]. split.
  - apply Hh. vm_compute. reflexivity.
  - rewrite Hv; [vm_compute; reflexivity|]. vm_compute. by eexists.
Defined.

Lemma refused_blocks_prune_subtree_witness :
  status_code (blocks_endpoint blocks_refused "P") ≠ 200
  ∧ ∃ s', process_page blocks_refused digest split never_fails 1 "P" None
            (fresh "P") = Done s'
          ∧ fetches (trace s') = ["P"]
          ∧ hash_store s' = ∅
          ∧ nodes (knowledge_graph s') !! "P" = Some (Some "P").
Proof.
  assert (H4 : status_code (blocks_endpoint blocks_refused "P") ≠ 200)
    by (vm_compute; discriminate).
  split; [exact H4|].
  destruct (refused_blocks_prune_subtree blocks_refused digest split
              never_fails 0 "P" None (fresh "P") ""
              [("title", prop_title ["P"])] "P" eq_refl eq_refl eq_refl H4
              eq_refl) as (s' & Hrun & Hf & Hh & _ & _ & Hn).
  exists s'. split; [exact Hrun|]. split; [exact Hf|].
  split; [exact Hh|exact Hn].
Defined.

Lemma content_hash_stays_sound_witness :
  hash_sound family digest split (fresh "root")
  ∧ ∃ s', final_state (process_page family digest split never_fails 3 "root"
                         None (fresh "root")) = Some s'
          ∧ hash_sound family digest split s'.
Proof.
  assert (H1 : hash_sound family digest split (fresh "root")).
  { intros pid h page Hl _.
    change (hash_store (fresh "root")) with (∅ : gmap string string) in Hl.
    by rewrite lookup_empty in Hl. }
  split; [exact H1|].
  destruct (final_state (process_page family digest split never_fails 3 "root"
                           None (fresh "root"))) as [s'|] eqn:E;
    [|vm_compute in E; discriminate E].
  exists s'. split; [reflexivity|].
  exact (content_hash_stays_sound family digest split never_fails 3 "root"
           None (fresh "root") s' H1 E).
Defined.

Lemma run_builds_tree_graph_witness :
  ∃ s', run family digest split never_fails 3 (fresh "root") = Done s'
        ∧ size (nodes (knowledge_graph s')) = 4%nat
        ∧ size (edges (knowledge_graph s')) = 3%nat
        ∧ edges (knowledge_graph s')
          = list_to_set [("root", "A"); ("A", "C"); ("root", "B")].
Proof.
  assert (Hh : (height family_tree ≤ 3)%nat) by (vm_compute; lia).
  assert (Hnd : NoDup (preorder family_tree)).
  { apply (bool_decide_unpack (NoDup (preorder family_tree))).
    vm_compute. exact I. }
  assert (Hne : "" ∉ preorder family_tree).
  { intros Hin. apply (bool_decide_pack ("" ∈ preorder family_tree)) in Hin.
    vm_compute in Hin. exact Hin. }
  destruct (run_builds_tree_graph family digest split never_fails family_tree
              (fresh "root") 3 family_unfolds eq_refl Hh)
    as (s' & Hrun & _ & _ & _ & Hsize).
  destruct (Hsize eq_refl Hnd Hne) as (Hn & He & Hedges).
  exists s'. split; [exact Hrun|]. split; [exact Hn|]. split; [exact He|exact Hedges].
Defined.

Lemma failed_run_stops_at_failing_fetch_witness :
  ∃ e s' before failing out,
    run orphan digest split never_fails 2 (fresh "root") = Failed e s'
    ∧ trace s' = before ++ ev_fetch failing :: map ev_print out
    ∧ (get_page_content orphan failing = (out, Raise e)
       ∨ ∃ page, get_page_content orphan failing = (out, Ok page)
                 ∧ title_of page = Raise e).
Proof.
  destruct (run orphan digest split never_fails 2 (fresh "root"))
    as [s1|e s1|] eqn:E;
    [vm_compute in E; discriminate E| |vm_compute in E; discriminate E].
  destruct (failed_run_stops_at_failing_fetch orphan digest split never_fails
              2 (fresh "root") e s1 E) as (before & failing & out & Htr & Hwhy).
  exists e, s1, before, failing, out. split; [reflexivity|].
  split; [exact Htr|exact Hwhy].
Defined.

Lemma indexed_page_vectors_witness :
  ("A" ∉ processed_pages with_vectors)
  ∧ ∃ s', visit_page digest split2 never_fails "A" None two_chunks with_vectors
          = Done s'
          ∧ tagged "A" (vector_store s')
            ≡ₚ [("first", mkMeta "A" "A"); ("second", mkMeta "A" "A")].
Proof.
  assert (H3 : "A" ∉ processed_pages with_vectors) by apply not_elem_of_empty.
  assert (H4 : hash_store with_vectors !! "A"
               ≠ Some (digest (full_content two_chunks)))
    by (vm_compute; discriminate).
  assert (H5 : split2 (full_content two_chunks) ≠ [])
    by (vm_compute; discriminate).
  split; [exact H3|].
  destruct (indexed_page_vectors digest split2 never_fails "A" None two_chunks
              "A" with_vectors (λ _, eq_refl) eq_refl H3 H4 H5)
    as (s' & Hv & Ht).
  exists s'. split; [exact Hv|]. exact Ht.
Defined.

Lemma page_reader_tool_on_refusal_witness :
  (page_reader_tool page_refused (λ _, "") full_content "P").2
  = "Error reading Notion page: Failed to retrieve page content. Status code: 404"
  ∧ (page_reader_tool blocks_refused (λ _, "") full_content "P").2 = "".
Proof.
  destruct (page_reader_tool_on_refusal page_refused (λ _, "") full_content "P")
    as [Hp _].
  destruct (page_reader_tool_on_refusal blocks_refused (λ _, "") full_content
              "P") as [_ Hb].
  split.
  - rewrite Hp; [vm_compute; reflexivity|]. vm_compute. discriminate.
  - rewrite (Hb "" [("title", prop_title ["P"])] eq_refl eq_refl);
      [reflexivity|]. vm_compute. discriminate.
Defined.

Lemma knowledge_graph_tool_needs_a_run_witness :
  knowledge_graph_tool show_report (fresh "root")
  = "Error exploring knowledge graph: The node root is not in the digraph."
  ∧ run family digest split never_fails 3 (fresh "root") = Done first_run
  ∧ (0 < size (nodes (knowledge_graph first_run)))%nat.
Proof.
  assert (H1 : run family digest split never_fails 3 (fresh "root")
               = Done first_run) by (vm_compute; reflexivity).
  destruct (knowledge_graph_tool_needs_a_run family digest split never_fails
              show_report 3 (fresh "root") first_run) as [Hnew Hrun].
  split; [exact (Hnew "root" [] None None)|]. split; [exact H1|].
  destruct (Hrun H1) as (children & _ & _ & Hpos). exact Hpos.
Defined.

Lemma knowledge_graph_tool_on_tree_witness :
  ∃ s' report,
    run family digest split never_fails 3 (fresh "root") = Done s'
    ∧ knowledge_graph_tool show_report s' = show_report report
    ∧ total_pages report = 4%nat
    ∧ total_connections report = 3%nat
    ∧ root_children report !! "A" = Some "A"
    ∧ root_children report !! "B" = Some "B"
    ∧ root_children report !! "C" = None.
Proof.
  assert (Hh : (height family_tree ≤ 3)%nat) by (vm_compute; lia).
  assert (Hnd : NoDup (preorder family_tree)).
  { apply (bool_decide_unpack (NoDup (preorder family_tree))).
    vm_compute. exact I. }
  assert (Hne : "" ∉ preorder family_tree).
  { intros Hin. apply (bool_decide_pack ("" ∈ preorder family_tree)) in Hin.
    vm_compute in Hin. exact Hin. }
  destruct (knowledge_graph_tool_on_tree family digest split never_fails
              show_report family_tree (fresh "root") 3 family_unfolds eq_refl
              Hh eq_refl Hnd Hne)
    as (s' & report & Hrun & Htool & Hp & Hc & _ & Hdom & Hkids).
  exists s', report. split; [exact Hrun|]. split; [exact Htool|].
  split; [exact Hp|]. split; [exact Hc|]. split; [|split].
  - apply (Hkids (Node "A" [Node "C" []])). set_solver.
  - apply (Hkids (Node "B" [])). set_solver.
  - apply not_elem_of_dom. rewrite Hdom.
    intros Hin. apply (bool_decide_pack _) in Hin. vm_compute in Hin.
    exact Hin.
Defined.

Lemma search_tool_previews_witness :
  code_points long_text = 201%nat
  ∧ String.length long_text = 402%nat
  ∧ search_tool first_k (λ _, "") show_hits with_long_text "anything" 1
    = str_repeat e_acute 200 +:+ "..."
  ∧ (∃ cut rest,
       search_tool first_k (λ _, "") show_hits with_long_text "anything" 1
       = cut +:+ "..."
       ∧ long_text = cut +:+ rest
       ∧ code_points cut = 200%nat)
  ∧ search_tool first_k (λ _, "") show_hits with_vectors "anything" 1
    = "older..."
  ∧ search_tool first_k (λ _, "") show_hits with_vectors "anything" (-1)
    = "Error searching Notion: k must be positive".
Proof.
  destruct (search_tool_previews first_k (λ _, "") show_hits with_long_text
              "anything" 1) as [Hlong _].
  destruct (search_tool_previews first_k (λ _, "") show_hits with_vectors
              "anything" 1) as [Hok _].
  destruct (search_tool_previews first_k (λ _, "") show_hits with_vectors
              "anything" (-1)) as [_ Herr].
  split; [vm_compute; reflexivity|]. split; [vm_compute; reflexivity|].
  split; [vm_compute; reflexivity|]. split; [|split].
  - destruct (Hlong [(long_text, mkMeta "A" "A")] eq_refl)
      as (hits & Htool & Hlen & Hhit).
    destruct (Hhit 0%nat long_text (mkMeta "A" "A") eq_refl)
      as (cut & rest & Hh & Htext & Hcp & _).
    exists cut, rest. split; [|split; [exact Htext|]].
    + destruct hits as [|h [|h' hits]]; [done| |done].
      injection Hh as ->. rewrite Htool. reflexivity.
    + rewrite Hcp. vm_compute. reflexivity.
  - destruct (Hok [("older", mkMeta "A" "A")] eq_refl)
      as (hits & Htool & Hlen & Hhit).
    destruct (Hhit 0%nat "older" (mkMeta "A" "A") eq_refl)
      as (cut & rest & Hh & _ & _ & _ & Hcut).
    rewrite Hcut in Hh by (vm_compute; lia).
    destruct hits as [|h [|h' hits]]; [done| |done].
    injection Hh as ->. rewrite Htool. vm_compute. reflexivity.
  - apply (Herr "k must be positive"). reflexivity.
Defined.

End MoreInstances.
